(** * NeuralNet: dense layer and network orchestrator

    A shallow embedding of [neuralnet/dense.py] (class [Dense]) and
    [src/network.py] (class [Network]) and the properties of their
    backward pass, training loop and gradient checker.

    Conventions of the embedding.
    - A numpy scalar is an exact rational ([Q]); every statement below is
      about the structure of the computation, none about rounding.
    - A two-dimensional numpy array is an [ndarray]: its shape and its rows.
    - A Python exception is a value of [exn]; a method of a mutable object is
      a function of the monad [M S], which threads the object's state and
      keeps it when an exception is raised, as Python does. *)

From stdpp Require Import base option list strings gmap.
From Stdlib Require Import ZArith QArith Qabs Lqa Lia.

(** ** Exceptions and the state-and-exception monad *)

Inductive exn : Set :=
| ValueError          (* numpy: shapes cannot be aligned or broadcast *)
| ZeroDivisionError   (* [1 / batch_size] with an empty batch *)
| AssertionError
| AttributeError      (* attribute not (yet) bound on the object *)
| IndexError
| UnboundLocalError
| Unsupported         (* numpy goes on with an array of rank 3 where the
                         object holds a matrix; outside this embedding *)
| External (tag : nat). (* raised by a loss function supplied by the caller *)

Inductive result (A : Type) : Type :=
| Ok (a : A)
| Raise (e : exn).
Arguments Ok {A} a.
Arguments Raise {A} e.

Definition M (S A : Type) : Type := S -> result A * S.

Definition ret {S A} (a : A) : M S A := fun s => (Ok a, s).
Definition raise {S A} (e : exn) : M S A := fun s => (Raise e, s).
Definition bind {S A B} (m : M S A) (k : A -> M S B) : M S B :=
  fun s => match m s with
           | (Ok a, s') => k a s'
           | (Raise e, s') => (Raise e, s')
           end.
Definition lift {S A} (r : result A) : M S A := fun s => (r, s).
Definition get {S} : M S S := fun s => (Ok s, s).
Definition gets {S A} (f : S -> A) : M S A := fun s => (Ok (f s), s).
Definition modify {S} (f : S -> S) : M S unit := fun s => (Ok tt, f s).

Declare Scope py_scope.
Delimit Scope py_scope with py.
Notation "'let*' x ':=' m 'in' k" := (bind m (fun x => k))
  (at level 10, x name, m at level 100, k at level 200) : py_scope.
Notation "'do' m 'in' k" := (bind m (fun _ => k))
  (at level 10, m at level 100, k at level 200) : py_scope.
Open Scope py_scope.

(** [for x in xs: body x] *)
Fixpoint for_each {S A} (xs : list A) (body : A -> M S unit) : M S unit :=
  match xs with
  | [] => ret tt
  | x :: xs' => do body x in for_each xs' body
  end.

(** The pure fragment: an expression that may raise but touches no state. *)
Definition rbind {A B} (r : result A) (k : A -> result B) : result B :=
  match r with
  | Ok a => k a
  | Raise e => Raise e
  end.
Notation "'let?' x ':=' r 'in' k" := (rbind r (fun x => k))
  (at level 10, x name, r at level 100, k at level 200) : py_scope.

(** ** Two-dimensional arrays *)

Record ndarray : Type := mk_array {
  nrows : nat;                 (* shape[0] *)
  ncols : nat;                 (* shape[1], also shape[-1] *)
  data : list (list Q)         (* the rows *)
}.

Definition well_shaped (A : ndarray) : bool :=
  (length (data A) =? nrows A)%nat
  && forallb (fun row => (length row =? ncols A)%nat) (data A).

(** [A[i, j]] for indices within the shape. *)
Definition item (A : ndarray) (i j : nat) : Q :=
  nth j (nth i (data A) []) 0%Q.

(** The array of shape [(r, c)] whose entry [(i, j)] is [f i j]. *)
Definition tabulate (r c : nat) (f : nat -> nat -> Q) : ndarray :=
  mk_array r c (map (fun i => map (f i) (seq 0 c)) (seq 0 r)).

(** [sigma n f] is f 0 + (f 1 + ... (f (n-1) + 0)). *)
Definition sigma (n : nat) (f : nat -> Q) : Q :=
  fold_right Qplus 0%Q (map f (seq 0 n)).

(** [A.T] *)
Definition transpose (A : ndarray) : ndarray :=
  tabulate (ncols A) (nrows A) (fun i j => item A j i).

(** [np.dot(A, B)] on two-dimensional operands. *)
Definition np_dot (A B : ndarray) : result ndarray :=
  if (ncols A =? nrows B)%nat
  then Ok (tabulate (nrows A) (ncols B)
             (fun i j => sigma (ncols A) (fun k => item A i k * item B k j)%Q))
  else Raise ValueError.

(** numpy broadcasting of one axis: equal lengths, or one of them is 1. *)
Definition broadcast_dim (m n : nat) : result nat :=
  if (m =? n)%nat then Ok m
  else if (m =? 1)%nat then Ok n
  else if (n =? 1)%nat then Ok m
  else Raise ValueError.

(** The index read along an axis of length [dim] when it is broadcast. *)
Definition bidx (dim i : nat) : nat := if (dim =? 1)%nat then 0%nat else i.

Definition bitem (A : ndarray) (i j : nat) : Q :=
  item A (bidx (nrows A) i) (bidx (ncols A) j).

(** An elementwise binary operator with broadcasting: [A * B], [A + B]. *)
Definition elementwise (op : Q -> Q -> Q) (A B : ndarray) : result ndarray :=
  let? r := broadcast_dim (nrows A) (nrows B) in
  let? c := broadcast_dim (ncols A) (ncols B) in
  Ok (tabulate r c (fun i j => op (bitem A i j) (bitem B i j))).

Definition np_mul : ndarray -> ndarray -> result ndarray := elementwise Qmult.
Definition np_add : ndarray -> ndarray -> result ndarray := elementwise Qplus.

(** An in-place operator, [A += B] and [A -= B]: the broadcast result must
    have the shape of [A]. *)
Definition inplace (op : Q -> Q -> Q) (A B : ndarray) : result ndarray :=
  let? C := elementwise op A B in
  if (nrows C =? nrows A)%nat && (ncols C =? ncols A)%nat
  then Ok C else Raise ValueError.

Definition np_iadd : ndarray -> ndarray -> result ndarray := inplace Qplus.
Definition np_isub : ndarray -> ndarray -> result ndarray := inplace Qminus.

(** [s * A] for a Python float [s]. *)
Definition scale (s : Q) (A : ndarray) : ndarray :=
  tabulate (nrows A) (ncols A) (fun i j => s * item A i j)%Q.

(** [np.sum(A, axis=1, keepdims=True)] *)
Definition np_sum_axis1 (A : ndarray) : ndarray :=
  tabulate (nrows A) 1 (fun i _ => sigma (ncols A) (fun n => item A i n)).

(** [np.all(A == B)]; numpy raises when the shapes cannot be broadcast
    (before numpy 1.25 the comparison gave [False] there instead). *)
Definition np_all_eq (A B : ndarray) : result bool :=
  let? r := broadcast_dim (nrows A) (nrows B) in
  let? c := broadcast_dim (ncols A) (ncols B) in
  Ok (forallb (fun i => forallb (fun j => Qeq_bool (bitem A i j) (bitem B i j))
                          (seq 0 c)) (seq 0 r)).

(** [1 / batch_size] for a Python int [batch_size]. *)
Definition reciprocal (n : nat) : Q := (1 / inject_Z (Z.of_nat n))%Q.

Definition py_inv (n : nat) : result Q :=
  match n with
  | O => Raise ZeroDivisionError
  | S _ => Ok (reciprocal n)
  end.

(** [A[i, j] = v] *)
Definition set_item (A : ndarray) (i j : nat) (v : Q) : result ndarray :=
  if (i <? nrows A)%nat && (j <? ncols A)%nat
  then Ok (mk_array (nrows A) (ncols A)
             (alter (fun row => <[j := v]> row) i (data A)))
  else Raise IndexError.

(** [A[i, j]] *)
Definition get_item (A : ndarray) (i j : nat) : result Q :=
  if (i <? nrows A)%nat && (j <? ncols A)%nat
  then Ok (item A i j) else Raise IndexError.

(** [np.argmax(A, axis=0)]: for each column the first row holding its
    maximum; numpy raises on an axis of length 0. *)
Definition argmax_column (A : ndarray) (j : nat) : nat :=
  fold_left (fun best i => if Qle_bool (item A i j) (item A best j)
                           then best else i)
            (seq 0 (nrows A)) 0%nat.

Definition np_argmax_axis0 (A : ndarray) : result (list nat) :=
  match nrows A with
  | O => Raise ValueError
  | S _ => Ok (map (argmax_column A) (seq 0 (ncols A)))
  end.

(** [np.sum(u == v)] on two vectors of labels; as for [np_all_eq], numpy
    raises on lengths that cannot be broadcast. *)
Definition count_equal (u v : list nat) : result nat :=
  let? n := broadcast_dim (length u) (length v) in
  Ok (length (List.filter (fun k => Nat.eqb (nth (bidx (length u) k) u 0%nat)
                                       (nth (bidx (length v) k) v 0%nat))
                (seq 0 n))).

(** A three-dimensional array, the shape of a softmax Jacobian. *)
Record tensor3 : Type := mk_tensor3 {
  dim0 : nat;
  dim1 : nat;
  dim2 : nat;
  planes : list (list (list Q))
}.

Definition item3 (T : tensor3) (j i n : nat) : Q :=
  nth n (nth i (nth j (planes T) []) []) 0%Q.

(** [np.einsum('in,jin->jn', A, T)]: labels [i] and [n] are aligned between
    the operands (an axis of length 1 is broadcast), [i] is summed. *)
Definition einsum_in_jin_jn (A : ndarray) (T : tensor3) : result ndarray :=
  let? I := broadcast_dim (nrows A) (dim1 T) in
  let? N := broadcast_dim (ncols A) (dim2 T) in
  Ok (tabulate (dim0 T) N
        (fun j n => sigma I (fun i =>
           item A (bidx (nrows A) i) (bidx (ncols A) n)
           * item3 T j (bidx (dim1 T) i) (bidx (dim2 T) n))%Q)).

(** ** External collaborators

    Code the two classes call and that is not part of them: the softmax
    activation of [activations], the slicing helper of [misc], and numpy's
    norm and random generator. *)
Class Externals : Type := {
  (* activations.softmax(z) *)
  softmax_value : ndarray -> ndarray;
  (* activations.softmax(z, derivative=True) *)
  softmax_jacobian : ndarray -> tensor3;
  (* misc.minibatches(x, y, batch_size=n) *)
  minibatches : ndarray -> ndarray -> nat -> list (ndarray * ndarray);
  (* np.linalg.norm of the entries *)
  norm : list Q -> Q;
  (* the k-th number produced by np.random *)
  random : nat -> nat
}.

(** An activation function object.  [softmax] is the object imported from
    [activations]; any other activation is a pair of array functions, its
    value and its elementwise derivative. *)
Inductive activation : Type :=
| softmax
| Activation (value derivative : ndarray -> ndarray).

Inductive derivative_value : Type :=
| Matrix (d : ndarray)
| Jacobian (t : tensor3).

(** [g(z)] and [g(z, derivative=True)] *)
Definition call_activation {E : Externals} (g : activation) (z : ndarray) : ndarray :=
  match g with
  | softmax => softmax_value z
  | Activation value _ => value z
  end.

Definition call_derivative {E : Externals} (g : activation) (z : ndarray)
  : derivative_value :=
  match g with
  | softmax => Jacobian (softmax_jacobian z)
  | Activation _ derivative => Matrix (derivative z)
  end.

(** [g is softmax] *)
Definition is_softmax (g : activation) : bool :=
  match g with
  | softmax => true
  | Activation _ _ => false
  end.

(** A regularizer bound to one parameter of its layer.  Both fields are read
    against the array the layer holds for that parameter at the time of the
    call: [reg_param] is what the accessor [param] returns, [reg_derivative]
    what [derivative()] returns. *)
Record regularizer : Type := mk_regularizer {
  reg_param : ndarray -> ndarray;
  reg_derivative : ndarray -> ndarray
}.

(** A bound loss function: [loss(ypred, ytrue, average_examples=...)], a
    scalar at every call site of the network, which all pass [True]; and
    the same call with [derivative=True]. *)
Record loss : Type := mk_loss {
  loss_value : ndarray -> ndarray -> bool -> result Q;
  loss_derivative : ndarray -> ndarray -> bool -> result ndarray
}.

(** Reading an attribute that may not have been bound yet. *)
Definition attr {S A} (field : option A) : M S A :=
  match field with
  | Some v => ret v
  | None => raise AttributeError
  end.

(** ** The dense layer, [neuralnet/dense.py] *)

Module Dense.

(** A prepared layer: [prepare_params] has bound [w], [dw], [b], [db];
    [z] and [a] are bound by the first [forward]. *)
Record t : Type := mk {
  g : activation;
  w : ndarray;
  dw : ndarray;
  b : ndarray;
  db : ndarray;
  z : option ndarray;
  a : option ndarray;
  kernel_regularizer : option regularizer;
  bias_regularizer : option regularizer;
  layer_id : nat               (* bound by the base class [Layer] *)
}.

Definition set_w (v : ndarray) (self : t) : t :=
  mk (g self) v (dw self) (b self) (db self) (z self) (a self)
     (kernel_regularizer self) (bias_regularizer self) (layer_id self).
Definition set_dw (v : ndarray) (self : t) : t :=
  mk (g self) (w self) v (b self) (db self) (z self) (a self)
     (kernel_regularizer self) (bias_regularizer self) (layer_id self).
Definition set_b (v : ndarray) (self : t) : t :=
  mk (g self) (w self) (dw self) v (db self) (z self) (a self)
     (kernel_regularizer self) (bias_regularizer self) (layer_id self).
Definition set_db (v : ndarray) (self : t) : t :=
  mk (g self) (w self) (dw self) (b self) v (z self) (a self)
     (kernel_regularizer self) (bias_regularizer self) (layer_id self).
Definition set_z (v : ndarray) (self : t) : t :=
  mk (g self) (w self) (dw self) (b self) (db self) (Some v) (a self)
     (kernel_regularizer self) (bias_regularizer self) (layer_id self).
Definition set_a (v : ndarray) (self : t) : t :=
  mk (g self) (w self) (dw self) (b self) (db self) (z self) (Some v)
     (kernel_regularizer self) (bias_regularizer self) (layer_id self).

Section Methods.
Context {E : Externals}.

Definition forward (a_in : ndarray) : M t ndarray :=
  let* self := get in
  let* wa := lift (np_dot (w self) a_in) in
  let* z' := lift (np_add wa (b self)) in
  do modify (set_z z') in
  let a' := call_activation (g self) z' in
  do modify (set_a a') in
  ret a'.

(** Lines 57-58: the error signal of this layer.  For a derivative of
    rank 3 (the Jacobian of [softmax]) numpy goes on by broadcasting, with
    arrays of rank 3 that these two-dimensional arrays do not hold:
    [Unsupported] marks that the run has left the model. *)
Definition backward_error (w_prev error_prev : ndarray) : M t ndarray :=
  let* self := get in
  let* z := attr (z self) in
  let derivative := call_derivative (g self) z in
  let* back := lift (np_dot (transpose w_prev) error_prev) in
  match derivative with
  | Matrix d => lift (np_mul back d)
  | Jacobian _ => raise Unsupported
  end.

(** Lines 55 and 60-61: the batch-averaged gradients of an error signal;
    the value is [1 / batch_size]. *)
Definition store_gradients (a_next error : ndarray) : M t Q :=
  let batch_size := ncols a_next in
  let* inv := lift (py_inv batch_size) in
  let* grad := lift (np_dot error (transpose a_next)) in
  do modify (set_dw (scale inv grad)) in
  do modify (set_db (scale inv (np_sum_axis1 error))) in
  ret inv.

(** Lines 63-65 *)
Definition add_kernel_regularizer (inv : Q) : M t unit :=
  let* self := get in
  match kernel_regularizer self with
  | Some r =>
      let* dw' := lift (np_iadd (dw self)
                          (scale inv (reg_derivative r (w self)))) in
      do modify (set_dw dw') in
      let* same := lift (np_all_eq (reg_param r (w self)) (w self)) in
      if same : bool then ret tt else raise AssertionError
  | None => ret tt
  end.

(** Lines 68-69 *)
Definition add_bias_regularizer (inv : Q) : M t unit :=
  let* self := get in
  match bias_regularizer self with
  | Some r =>
      let* db' := lift (np_iadd (db self)
                          (scale inv (reg_derivative r (b self)))) in
      modify (set_db db')
  | None => ret tt
  end.

Definition backward_step (a_next w_prev error_prev : ndarray)
  : M t ndarray :=
  let* error := backward_error w_prev error_prev in
  let* inv := store_gradients a_next error in
  do add_kernel_regularizer inv in
  do add_bias_regularizer inv in
  ret error.

End Methods.
End Dense.

(** ** Layers of a network *)

(** The two kinds of layer a network holds: the placeholder [layer.Layer()]
    that [Network.__init__] appends, with the input as its only attribute,
    and dense layers. *)
Inductive layer : Type :=
| InputLayer (a : option ndarray)
| DenseLayer (d : Dense.t).

(** A method or attribute of [Dense] looked up on a layer; the placeholder
    has none of them. *)
Definition on_dense {A} (m : M Dense.t A) : M layer A :=
  fun l => match l with
           | DenseLayer d => let (r, d') := m d in (r, DenseLayer d')
           | InputLayer _ => (Raise AttributeError, l)
           end.

(** [layer.a] and [layer.a = v] *)
Definition layer_a : M layer ndarray :=
  fun l => match l with
           | InputLayer a => attr a l
           | DenseLayer d => attr (Dense.a d) l
           end.

Definition layer_set_a (v : ndarray) : M layer unit :=
  modify (fun l => match l with
                   | InputLayer _ => InputLayer (Some v)
                   | DenseLayer d => DenseLayer (Dense.set_a v d)
                   end).

(** Modelled from the spec: [Layer.__call__] of the missing [layer] module.
    A dense layer is called through its [forward]; the input placeholder
    implements forward as the identity. *)
Definition layer_call {E : Externals} (a : ndarray) : M layer ndarray :=
  fun l => match l with
           | InputLayer _ => (Ok a, l)
           | DenseLayer _ => on_dense (Dense.forward a) l
           end.

(** A key of the dictionary [Network.layers]: a Python object, of which
    [compile] reads the attribute [info]. *)
Record key : Type := mk_key {
  key_name : string;
  key_info : option string
}.

#[global] Instance key_eq_dec : EqDecision key.
Proof. solve_decision. Defined.

#[global] Instance key_countable : Countable key.
Proof.
  refine (inj_countable' (fun k => (key_name k, key_info k))
                         (fun p => mk_key p.1 p.2) _).
  by intros [].
Defined.

(** What a run leaves behind besides the object's attributes: the calls of
    the training primitives in the order they happened, each with the
    learning rate bound at that moment.  This record is an observation of
    the run, not an attribute of the Python object. *)
Inductive event : Type :=
| TrainOnBatch (examples : nat) (lr : option Q)
| GradientCheck (layer_id i j : nat) (eps : Q) (lr : option Q)
| UpdateWeights (lr : option Q).

Definition event_lr (e : event) : option Q :=
  match e with
  | TrainOnBatch _ l => l
  | GradientCheck _ _ _ _ l => l
  | UpdateWeights l => l
  end.

(** [seq[i]] for a Python int [i]: negative indices count from the end. *)
Definition py_index (len : nat) (i : Z) : result nat :=
  let k := if (i <? 0)%Z then (i + Z.of_nat len)%Z else i in
  if (0 <=? k)%Z && (k <? Z.of_nat len)%Z
  then Ok (Z.to_nat k) else Raise IndexError.

(** Truth value of an optional integer argument: [None] and [0] are false. *)
Definition truthy (v : option Z) : bool :=
  match v with
  | Some n => negb (n =? 0)%Z
  | None => false
  end.

(** [for x in xs: body] with the local variables the body rebinds. *)
Fixpoint for_loop {S A L} (xs : list A) (body : A -> L -> M S L) (l : L)
  : M S L :=
  match xs with
  | [] => ret l
  | x :: xs' => let* l' := body x l in for_loop xs' body l'
  end.

(** [enumerate(xs)] *)
Definition enumerate {A} (xs : list A) : list (nat * A) :=
  zip (seq 0 (length xs)) xs.

(** The decay factor of the training loop, [0.993]. *)
Definition decay_factor : Q := 993 # 1000.
(** [10**(-6)] *)
Definition eps_default : Q := 1 # 1000000.

(** ** The network, [src/network.py] *)

Module Network.

Record t : Type := mk {
  items : list layer;            (* the list the class extends *)
  layers : gmap key layer;       (* self.layers *)
  epoch : Z;
  verbose : bool;
  softmax_flag : option bool;    (* self.softmax: None or True *)
  batch_norm : option bool;      (* bound by compile *)
  lr : option Q;                 (* bound by compile *)
  loss_fct : option loss;        (* bound by compile, with its derivative *)
  grads_ : option (list ndarray);
  n : option Q;
  d : option Q;
  draws : nat;                   (* numbers taken from np.random so far *)
  trace : list event             (* the observation of the run *)
}.

Definition set_items (v : list layer) (self : t) : t :=
  mk v (layers self) (epoch self) (verbose self) (softmax_flag self)
     (batch_norm self) (lr self) (loss_fct self) (grads_ self)
     (n self) (d self) (draws self) (trace self).
Definition set_epoch (v : Z) (self : t) : t :=
  mk (items self) (layers self) v (verbose self) (softmax_flag self)
     (batch_norm self) (lr self) (loss_fct self) (grads_ self)
     (n self) (d self) (draws self) (trace self).
Definition set_softmax_flag (v : bool) (self : t) : t :=
  mk (items self) (layers self) (epoch self) (verbose self) (Some v)
     (batch_norm self) (lr self) (loss_fct self) (grads_ self)
     (n self) (d self) (draws self) (trace self).
Definition set_batch_norm (v : bool) (self : t) : t :=
  mk (items self) (layers self) (epoch self) (verbose self)
     (softmax_flag self) (Some v) (lr self) (loss_fct self) (grads_ self)
     (n self) (d self) (draws self) (trace self).
Definition set_lr (v : Q) (self : t) : t :=
  mk (items self) (layers self) (epoch self) (verbose self)
     (softmax_flag self) (batch_norm self) (Some v) (loss_fct self)
     (grads_ self) (n self) (d self)
     (draws self) (trace self).
Definition set_loss_fct (v : loss) (self : t) : t :=
  mk (items self) (layers self) (epoch self) (verbose self)
     (softmax_flag self) (batch_norm self) (lr self) (Some v)
     (grads_ self) (n self) (d self)
     (draws self) (trace self).
Definition set_grads_ (v : list ndarray) (self : t) : t :=
  mk (items self) (layers self) (epoch self) (verbose self)
     (softmax_flag self) (batch_norm self) (lr self) (loss_fct self)
     (Some v) (n self) (d self) (draws self) (trace self).
Definition set_draws (v : nat) (self : t) : t :=
  mk (items self) (layers self) (epoch self) (verbose self)
     (softmax_flag self) (batch_norm self) (lr self) (loss_fct self)
     (grads_ self) (n self) (d self) v (trace self).
Definition set_n_d (vn vd : Q) (self : t) : t :=
  mk (items self) (layers self) (epoch self) (verbose self)
     (softmax_flag self) (batch_norm self) (lr self) (loss_fct self)
     (grads_ self) (Some vn) (Some vd) (draws self) (trace self).
Definition set_trace (v : list event) (self : t) : t :=
  mk (items self) (layers self) (epoch self) (verbose self)
     (softmax_flag self) (batch_norm self) (lr self) (loss_fct self)
     (grads_ self) (n self) (d self)
     (draws self) v.

(** Records one call in the observation, with the learning rate bound at
    that moment. *)
Definition emit (e : option Q -> event) : M t unit :=
  modify (fun self => set_trace (trace self ++ [e (lr self)]) self).

(** [self[i].method(...)]: runs a method of the layer at index [i] and
    keeps the layer it leaves. *)
Definition at_layer {A} (i : Z) (m : M layer A) : M t A :=
  fun self =>
    match py_index (length (items self)) i with
    | Raise e => (Raise e, self)
    | Ok k =>
        match items self !! k with
        | Some l => let (r, l') := m l in
                    (r, set_items (<[k := l']> (items self)) self)
        | None => (Raise IndexError, self)
        end
    end.

(** The next number of np.random. *)
Definition draw {E : Externals} : M t nat :=
  fun self => (Ok (random (draws self)), set_draws (S (draws self)) self).

(** [np.random.randint(low, high)] *)
Definition randint {E : Externals} (low high : nat) : M t nat :=
  if (low <? high)%nat
  then let* r := draw in ret (low + r mod (high - low))%nat
  else raise ValueError.

(** [np.random.choice(dim)] *)
Definition choice {E : Externals} (dim : nat) : M t nat :=
  match dim with
  | O => raise ValueError
  | S _ => let* r := draw in ret (r mod dim)%nat
  end.

(** [range(1, epochs)] *)
Definition epoch_range (epochs : Z) : list Z :=
  map (fun k => (1 + Z.of_nat k)%Z) (seq 0 (Z.to_nat (epochs - 1))).

Definition __init__ (verbose : bool) : t :=
  mk [InputLayer None] ∅ 0 verbose None None None None None None None 0 [].

Definition add (l : layer) : M t unit :=
  modify (fun self => set_items (items self ++ [l]) self).

Section Methods.
Context {E : Externals}.

Definition compile (loss_ : loss) (lr_ : Q) : M t unit :=
  do modify (set_batch_norm false) in
  let* self := get in
  do for_each (map fst (map_to_list (layers self)))
       (fun l => (* an object without [info] raises, and is passed *)
          match key_info l with
          | Some info => if String.eqb info "batch"
                         then modify (set_batch_norm true) else ret tt
          | None => ret tt
          end) in
  do modify (set_lr lr_) in
  do modify (set_loss_fct loss_) in
  let* g := at_layer (-1) (on_dense (gets Dense.g)) in
  if is_softmax g then modify (set_softmax_flag true) else ret tt.

(** Printing, here under [verbose] and in [fit], is left out. *)
Definition forward_step (a : ndarray) : M t ndarray :=
  do at_layer 0 (layer_set_a a) in
  let* self := get in
  for_loop (seq 0 (length (items self)))
    (fun k a => at_layer (Z.of_nat k) (layer_call a)) a.

(** Lines 155-158: the loss derivative and the activation derivative of
    the last layer fused into its error.  [einsum] with the subscripts
    [jin] raises on an operand of rank 2. *)
Definition output_delta (g : activation) (derivative_loss : ndarray)
    (derivative_layer : derivative_value) : result ndarray :=
  if is_softmax g
  then match derivative_layer with
       | Jacobian t => einsum_in_jin_jn derivative_loss t
       | Matrix _ => Raise ValueError
       end
  else match derivative_layer with
       | Matrix d => np_mul d derivative_loss
       | Jacobian _ => Raise Unsupported
       end.

(** Lines 144-158: the error of the last layer. *)
Definition output_error (y : ndarray) : M t ndarray :=
  let* self := get in
  let* loss_ := attr (loss_fct self) in
  let* ypred := at_layer (-1) layer_a in
  let* derivative_loss := lift (loss_derivative loss_ ypred y false) in
  let* g := at_layer (-1) (on_dense (gets Dense.g)) in
  let* z := at_layer (-1) (on_dense (let* d := get in attr (Dense.z d))) in
  let derivative_layer := call_derivative g z in
  lift (output_delta g derivative_loss derivative_layer).

Definition _backprop_last_layer (x y : ndarray) : M t ndarray :=
  let* deltaL := output_error y in
  let batch_size := ncols x in
  let* inv := lift (py_inv batch_size) in
  let* a_prev := at_layer (-2) layer_a in
  let* grad := lift (np_dot deltaL (transpose a_prev)) in
  do at_layer (-1) (on_dense (modify (Dense.set_dw (scale inv grad)))) in
  do at_layer (-1) (on_dense
       (modify (Dense.set_db (scale inv (np_sum_axis1 deltaL))))) in
  ret deltaL.

Definition backpropagation (x y : ndarray) : M t unit :=
  let* error_prev := _backprop_last_layer x y in
  let* self := get in
  let* _ := for_loop (rev (seq 1 (length (items self) - 2)))
    (fun l error_prev =>
       let* a_next := at_layer (Z.of_nat l - 1) layer_a in
       let* w_prev := at_layer (Z.of_nat l + 1) (on_dense (gets Dense.w)) in
       at_layer (Z.of_nat l)
         (on_dense (Dense.backward_step a_next w_prev error_prev)))
    error_prev in
  ret tt.

Definition train_on_batch (x y : ndarray) : M t unit :=
  do emit (TrainOnBatch (ncols x)) in
  let* _ := forward_step x in
  backpropagation x y.

(** [layer.w -= self.lr * layer.dw; layer.b -= self.lr * layer.db] *)
Definition update_layer (lr_ : option Q) : M Dense.t unit :=
  let* rate := attr lr_ in
  let* d := get in
  let* w' := lift (np_isub (Dense.w d) (scale rate (Dense.dw d))) in
  do modify (Dense.set_w w') in
  let* b' := lift (np_isub (Dense.b d) (scale rate (Dense.db d))) in
  modify (Dense.set_b b').

Definition update_weights : M t unit :=
  do emit UpdateWeights in
  let* self := get in
  for_each (seq 1 (length (items self) - 1))
    (fun k => at_layer (Z.of_nat k) (on_dense (update_layer (lr self)))).

Definition get_loss (x ytrue : ndarray) (average_examples : bool)
  : M t Q :=
  let* ypred := forward_step x in
  let* self := get in
  let* loss_ := attr (loss_fct self) in
  lift (loss_value loss_ ypred ytrue average_examples).

Definition predict (x : ndarray) : M t ndarray := forward_step x.

(** [self[layer_id].w[weight_idx] = v] *)
Definition set_weight (layer_id i j : nat) (v : Q) : M t unit :=
  at_layer (Z.of_nat layer_id) (on_dense
    (let* d := get in
     let* w' := lift (set_item (Dense.w d) i j v) in
     modify (Dense.set_w w'))).

(** [self[layer_id].w[weight_idx]] *)
Definition get_weight (layer_id i j : nat) : M t Q :=
  at_layer (Z.of_nat layer_id) (on_dense
    (let* d := get in lift (get_item (Dense.w d) i j))).

(** The value is [None] when the quotient is not finite ([eps = 0]). *)
Definition gradient_check (x ytrue : ndarray) (eps : Q)
    (layer_id : nat) (weight_idx : nat * nat) : M t (option Q) :=
  let '(i, j) := weight_idx in
  do emit (GradientCheck layer_id i j eps) in
  let* w_original := get_weight layer_id i j in
  let* cost := for_loop [1; -1]%Q
    (fun sign cost =>
       do set_weight layer_id i j (w_original + sign * eps)%Q in
       let* l := get_loss x ytrue true in
       ret (cost + sign * l)%Q)
    0%Q in
  do set_weight layer_id i j w_original in
  ret (if Qeq_bool (2 * eps) 0 then None else Some (cost / (2 * eps))%Q).

(** The normalised distance of two gradient vectors; [None] when it is
    not finite. *)
Definition goodness_of (grads grads_backprop : list Q) : option Q :=
  let numerator := norm (zip_with Qminus grads grads_backprop) in
  let denominator := (norm grads + norm grads_backprop)%Q in
  if Qeq_bool denominator 0 then None else Some (numerator / denominator)%Q.

Definition gradient_checks (x ytrue : ndarray) (checks : nat) (eps : Q)
  : M t (option Q) :=
  let* gs := for_loop (seq 0 checks)
    (fun check gs =>
       let* self := get in
       let* layer_id := randint 1 (length (items self)) in
       let* w := at_layer (Z.of_nat layer_id) (on_dense (gets Dense.w)) in
       let* i := choice (nrows w) in
       let* j := choice (ncols w) in
       let* gradient := gradient_check x ytrue eps layer_id (i, j) in
       let* backprop := at_layer (Z.of_nat layer_id) (on_dense
         (let* d := get in lift (get_item (Dense.dw d) i j))) in
       ret (gs ++ [(gradient, backprop)]))
    [] in
  ret (match mapM fst gs with
       | Some grads => goodness_of grads (map snd gs)
       | None => None
       end).

(** [itertools.product(range(r), range(c))] *)
Definition index_product (r c : nat) : list (nat * nat) :=
  i ← seq 0 r; j ← seq 0 c; [(i, j)].

(** The entries of an array, row after row. *)
Definition entries (A : ndarray) : list Q := concat (data A).

(** The body of the loop over layers in [complete_gradient_check]. *)
Definition complete_check_layer (x y : ndarray) (eps : Q) (k : nat)
  : M t unit :=
  let* w := at_layer (Z.of_nat k) (on_dense (gets Dense.w)) in
  let* gradient_manual := for_loop (index_product (nrows w) (ncols w))
    (fun idx gradient_manual =>
       let* layer_id :=
         at_layer (Z.of_nat k) (on_dense (gets Dense.layer_id)) in
       let* gradient := gradient_check x y eps layer_id idx in
       match gradient with
       | Some v => lift (set_item gradient_manual idx.1 idx.2 v)
       | None => raise Unsupported
       end)
    (tabulate (nrows w) (ncols w) (fun _ _ => 0%Q)) in
  let* dw := at_layer (Z.of_nat k) (on_dense (gets Dense.dw)) in
  let* difference := lift (elementwise Qminus gradient_manual dw) in
  let numerator := norm (entries difference) in
  let* dw := at_layer (Z.of_nat k) (on_dense (gets Dense.dw)) in
  let denominator := (norm (entries gradient_manual) + norm (entries dw))%Q in
  do modify (set_n_d numerator denominator) in
  let* self := get in
  let* grads := attr (grads_ self) in
  modify (set_grads_ (grads ++ [gradient_manual])).

Definition complete_gradient_check (x y : ndarray) (eps : Q) : M t unit :=
  do modify (set_grads_ []) in
  let* self := get in
  for_each (seq 1 (length (items self) - 1))
    (complete_check_layer x y eps).

(** The body of the loop over minibatches in [fit], lines 83-92.
    [grad_printout] tells whether that local variable is bound. *)
Definition fit_batch (gradients_to_check_each_epoch : option Z)
    (m : nat) (minibatch : ndarray * ndarray) (grad_printout : bool)
  : M t bool :=
  let '(xb, yb) := minibatch in
  do train_on_batch xb yb in
  let* _ := get_loss xb yb true in
  let* grad_printout :=
    if truthy gradients_to_check_each_epoch && (m =? 1)%nat
    then let* _ := gradient_checks xb yb 3 eps_default in ret true
    else ret grad_printout in
  do update_weights in
  ret grad_printout.

(** [self.lr *= 0.993] *)
Definition decay_lr : M t unit :=
  let* self := get in
  let* rate := attr (lr self) in
  modify (set_lr (rate * decay_factor)%Q).

(** The body of the loop over epochs in [fit], lines 77-110. *)
Definition fit_epoch (x y : ndarray) (ytrain_labels : list nat)
    (validation_data : option (ndarray * ndarray * list nat))
    (gradients_to_check_each_epoch : option Z)
    (epoch_ : Z) (grad_printout : bool) : M t bool :=
  do decay_lr in
  let* grad_printout :=
    for_loop (enumerate (minibatches x y 1000))
      (fun mb => fit_batch gradients_to_check_each_epoch mb.1 mb.2)
      grad_printout in
  let* a_train := forward_step x in
  let* ytrain_pred := lift (np_argmax_axis0 a_train) in
  let* train_correct := lift (count_equal ytrain_pred ytrain_labels) in
  do match validation_data with
     | Some (xtest, ytest, ytest_labels) =>
         let* a_test := forward_step xtest in
         let* ytest_pred := lift (np_argmax_axis0 a_test) in
         let* test_correct := lift (count_equal ytest_pred ytest_labels) in
         let* val_loss := get_loss xtest ytest true in
         ret tt
     | None => ret tt
     end in
  (* print(...) reads grad_printout *)
  do (if grad_printout : bool then ret tt else raise UnboundLocalError) in
  do modify (fun self => set_epoch (epoch self + 1) self) in
  ret grad_printout.

Definition fit (x y : ndarray) (epochs : Z) (batch_size : Z)
    (validation_data : option (ndarray * ndarray))
    (gradients_to_check_each_epoch : option Z) : M t unit :=
  let* ytrain_labels := lift (np_argmax_axis0 y) in
  let* validation :=
    match validation_data with
    | Some (xtest, ytest) =>
        if (ncols xtest =? ncols ytest)%nat
        then let* ytest_labels := lift (np_argmax_axis0 ytest) in
             ret (Some (xtest, ytest, ytest_labels))
        else raise AssertionError
    | None => ret None
    end in
  let* _ := for_loop (epoch_range epochs)
    (fit_epoch x y ytrain_labels validation gradients_to_check_each_epoch)
    (negb (truthy gradients_to_check_each_epoch)) in
  ret tt.

(** A call of one of the methods that [network.py] defines, as a client
    makes it ([__call__] is [forward_step]).  The methods that the class
    inherits from [list] are not among them. *)
Inductive call : Type :=
| call_add (l : layer)
| call_compile (loss_ : loss) (lr_ : Q)
| call_fit (x y : ndarray) (epochs batch_size : Z)
    (validation_data : option (ndarray * ndarray))
    (gradients_to_check_each_epoch : option Z)
| call_forward_step (a : ndarray)
| call_train_on_batch (x y : ndarray)
| call_backpropagation (x y : ndarray)
| call_update_weights
| call_get_loss (x ytrue : ndarray) (average_examples : bool)
| call_predict (x : ndarray)
| call_complete_gradient_check (x y : ndarray) (eps : Q)
| call_gradient_checks (x ytrue : ndarray) (checks : nat) (eps : Q)
| call_gradient_check (x ytrue : ndarray) (eps : Q) (layer_id : nat)
    (weight_idx : nat * nat).

Definition discard {A} (m : M t A) : M t unit := let* _ := m in ret tt.

Definition run_call (c : call) : M t unit :=
  match c with
  | call_add l => add l
  | call_compile loss_ lr_ => compile loss_ lr_
  | call_fit x y epochs batch_size validation_data checks =>
      fit x y epochs batch_size validation_data checks
  | call_forward_step a => discard (forward_step a)
  | call_train_on_batch x y => train_on_batch x y
  | call_backpropagation x y => backpropagation x y
  | call_update_weights => update_weights
  | call_get_loss x ytrue average_examples =>
      discard (get_loss x ytrue average_examples)
  | call_predict x => discard (predict x)
  | call_complete_gradient_check x y eps => complete_gradient_check x y eps
  | call_gradient_checks x ytrue checks eps =>
      discard (gradient_checks x ytrue checks eps)
  | call_gradient_check x ytrue eps layer_id weight_idx =>
      discard (gradient_check x ytrue eps layer_id weight_idx)
  end.

(** A session: a network is constructed and methods are called on it
    one after the other; a call that raises leaves the object as it is
    at that moment, and the session goes on. *)
Definition session (verbose_ : bool) (calls : list call) : t :=
  fold_left (fun self c => (run_call c self).2) calls (__init__ verbose_).

End Methods.
End Network.

(** ** A concrete instance, to run the definitions

    Every theorem below holds for all collaborators; this instance serves
    the examples.  Its activation and norm are rational stand-ins. *)

(** Columns [start, start + width) of an array. *)
Definition slice_columns (A : ndarray) (start width : nat) : ndarray :=
  tabulate (nrows A) (Nat.min width (ncols A - start))
           (fun i j => item A i (start + j)).

(** Modelled from the spec: [misc.minibatches], which is not among the
    sources.  The training set is partitioned into minibatches of the
    configured size: consecutive blocks of [batch_size] examples (columns),
    the last one shorter when the size does not divide their number. *)
Definition chunked_minibatches (x y : ndarray) (batch_size : nat)
  : list (ndarray * ndarray) :=
  match batch_size with
  | O => []
  | S _ =>
      map (fun k => (slice_columns x (k * batch_size) batch_size,
                     slice_columns y (k * batch_size) batch_size))
          (seq 0 ((ncols x + batch_size - 1) / batch_size))
  end.

(** Each column divided by its sum. *)
Definition normalise_columns (z : ndarray) : ndarray :=
  tabulate (nrows z) (ncols z)
    (fun i n => item z i n / sigma (nrows z) (fun k => item z k n))%Q.

Definition normalise_jacobian (z : ndarray) : tensor3 :=
  let s := normalise_columns z in
  mk_tensor3 (nrows z) (nrows z) (ncols z)
    (map (fun j => map (fun i => map (fun n =>
       (item s i n * ((if (i =? j)%nat then 1 else 0) - item s j n))%Q)
       (seq 0 (ncols z))) (seq 0 (nrows z))) (seq 0 (nrows z))).

Definition sample_externals : Externals := {|
  softmax_value := normalise_columns;
  softmax_jacobian := normalise_jacobian;
  minibatches := chunked_minibatches;
  norm := fun v => fold_right Qplus 0%Q (map Qabs v);
  random := fun k => k
|}.

Definition matrix (rows : list (list Q)) : ndarray :=
  mk_array (length rows) (length (hd [] rows)) rows.

(** The identity activation and half the squared error. *)
Definition identity : activation :=
  Activation (fun z => z) (fun z => tabulate (nrows z) (ncols z) (fun _ _ => 1%Q)).

Definition squared_error : loss := {|
  loss_value := fun ypred ytrue average_examples =>
    let? diff := elementwise Qminus ypred ytrue in
    let total := sigma (nrows diff) (fun i =>
                   sigma (ncols diff) (fun n => item diff i n * item diff i n))%Q in
    match py_inv (if average_examples then 2 * ncols diff else 2) with
    | Ok inv => Ok (inv * total)%Q
    | Raise e => Raise e
    end;
  loss_derivative := fun ypred ytrue _ => elementwise Qminus ypred ytrue
|}.

(** ** Specification vocabulary *)

(** [invariant I m]: whatever [m] returns or raises, it takes a state
    satisfying [I] to a state satisfying [I]. *)
Definition invariant {S A} (I : S -> Prop) (m : M S A) : Prop :=
  forall s, I s -> I (m s).2.

(** [A] can be added in place into an array of shape [(r, c)]. *)
Definition broadcasts_into (A : ndarray) (r c : nat) : Prop :=
  (nrows A = r \/ nrows A = 1%nat) /\ (ncols A = c \/ ncols A = 1%nat).

(** Entry [(i, j)] of a gradient whose batch average is [base], after the
    contribution of the regularizer bound to its parameter, if any. *)
Definition regularized (reg : option regularizer) (param : ndarray) (inv : Q)
    (i j : nat) (base : Q) : Q :=
  match reg with
  | Some r => (base + inv * bitem (reg_derivative r param) i j)%Q
  | None => base
  end.

(** The error signal of a dense layer, entry by entry: the downstream error
    taken back through the downstream weights, times the derivative [dz] of
    the activation. *)
Definition error_signal (w_prev error_prev dz : ndarray) : ndarray :=
  tabulate (ncols w_prev) (ncols error_prev)
    (fun i n => sigma (nrows w_prev)
                  (fun k => item w_prev k i * item error_prev k n)
                * item dz i n)%Q.

(** The batch averages of an error signal against the upstream activation:
    [inv * error . a_next^T] and [inv * rowwise_sum(error)]. *)
Definition averaged_dw (inv : Q) (error a_next : ndarray) : ndarray :=
  tabulate (nrows error) (nrows a_next)
    (fun i j => inv * sigma (ncols error)
                        (fun n => item error i n * item a_next j n))%Q.

Definition averaged_db (inv : Q) (error : ndarray) : ndarray :=
  tabulate (nrows error) 1
    (fun i _ => inv * sigma (ncols error) (fun n => item error i n))%Q.

(** ** Sample data *)

(** An L2 penalty read against the live parameter, and one whose [param]
    still refers to an array the layer no longer holds. *)
Definition l2_regularizer : regularizer :=
  {| reg_param := fun p => p; reg_derivative := fun p => p |}.

Definition stale_regularizer (old : ndarray) : regularizer :=
  {| reg_param := fun _ => old; reg_derivative := fun p => p |}.

Definition sample_x : ndarray := matrix [[1; 0; 1; 2]; [0; 1; 1; 2]]%Q.
Definition sample_y : ndarray := matrix [[1; 2; 3; 4]]%Q.

(** A hidden layer of two units on two inputs, after a forward pass over
    [sample_x]. *)
Definition sample_hidden (kernel bias : option regularizer) : Dense.t :=
  Dense.mk identity
    (matrix [[1; 2]; [3; 4]]%Q) (matrix [[0; 0]; [0; 0]]%Q)
    (matrix [[1]; [1]]%Q) (matrix [[0]; [0]]%Q)
    (Some (matrix [[2; 3; 4; 7]; [4; 5; 8; 15]]%Q))
    (Some (matrix [[2; 3; 4; 7]; [4; 5; 8; 15]]%Q))
    kernel bias 1.

(** An output layer of one unit on the two hidden units. *)
Definition sample_output (kernel bias : option regularizer) : Dense.t :=
  Dense.mk identity
    (matrix [[1; 1]]%Q) (matrix [[0; 0]]%Q)
    (matrix [[1]]%Q) (matrix [[0]]%Q)
    (Some (matrix [[7; 9; 13; 23]]%Q)) (Some (matrix [[7; 9; 13; 23]]%Q))
    kernel bias 2.

(** The network of the two sample layers, compiled with the squared error
    and a learning rate of 0.1. *)
Definition sample_network : Network.t :=
  (Network.compile squared_error (1 # 10)
     (Network.add (DenseLayer (sample_output None None))
        (Network.add (DenseLayer (sample_hidden None None))
           (Network.__init__ false)).2).2).2.

(** The learning rate [rate] after [k] decays. *)
Definition decayed (k : nat) (rate : Q) : Q :=
  Nat.iter k (fun r => r * decay_factor)%Q rate.

(** [rate] multiplied [k] times by [factor]. *)
Definition scaled (factor : Q) (k : nat) (rate : Q) : Q :=
  Nat.iter k (fun r => r * factor)%Q rate.

(** The learning rate is [rate], and every recorded call either satisfies
    [old] or ran under [rate]. *)
Definition runs_under (old : event -> Prop) (rate : Q) (s : Network.t) : Prop :=
  Network.lr s = Some rate
  /\ Forall (fun e => old e \/ event_lr e = Some rate) (Network.trace s).

(** The calls that neither bind nor decay the learning rate. *)
Definition keeps_learning_rate (c : Network.call) : bool :=
  match c with
  | Network.call_compile _ _ | Network.call_fit _ _ _ _ _ _ => false
  | _ => true
  end.

(** The gradient checks among the recorded calls. *)
Definition is_gradient_check (e : event) : bool :=
  match e with
  | GradientCheck _ _ _ _ _ => true
  | _ => false
  end.

Definition gradient_check_count (s : Network.t) : nat :=
  length (List.filter is_gradient_check (Network.trace s)).

(** The weight array of each layer of a network, in order; the input
    placeholder has none. *)
Definition layer_w (l : layer) : option ndarray :=
  match l with
  | DenseLayer d => Some (Dense.w d)
  | InputLayer _ => None
  end.

Definition weights (s : Network.t) : list (option ndarray) :=
  layer_w <$> Network.items s.

(** What reading [self[layer_id].w[i, j]] gives, from the weights alone. *)
Definition weight_at (ws : list (option ndarray)) (layer_id i j : nat)
  : result Q :=
  match ws !! layer_id with
  | Some (Some w) => get_item w i j
  | Some None => Raise AttributeError
  | None => Raise IndexError
  end.

(** The activation a layer has cached, [layer.a]. *)
Definition cached_a (l : layer) : option ndarray :=
  match l with
  | InputLayer a => a
  | DenseLayer d => Dense.a d
  end.

(** A network whose output layer carries regularizers on both of its
    parameters, after a forward pass over the sample inputs. *)
Definition regularized_network : Network.t :=
  (Network.forward_step (E := sample_externals) sample_x
     (Network.compile squared_error (1 # 10)
        (Network.add
           (DenseLayer (sample_output (Some l2_regularizer) (Some l2_regularizer)))
           (Network.add (DenseLayer (sample_hidden None None))
              (Network.__init__ false)).2).2).2).2.


(** ** Vocabulary for the properties of the forward pass and of the state *)

(** The pre-activation of a dense layer on an input, entry by entry:
    [w . a_in + b], the bias broadcast over the batch. *)
Definition pre_activation (w b a_in : ndarray) : ndarray :=
  tabulate (nrows w) (ncols a_in)
    (fun i n => sigma (ncols w) (fun k => item w i k * item a_in k n)
                + bitem b i n)%Q.

(** What a dense layer holds besides its two gradient buffers. *)
Definition frozen_by_backward (d : Dense.t)
  : activation * ndarray * ndarray * option ndarray * option ndarray
    * option regularizer * option regularizer * nat :=
  (Dense.g d, Dense.w d, Dense.b d, Dense.z d, Dense.a d,
   Dense.kernel_regularizer d, Dense.bias_regularizer d, Dense.layer_id d).

(** What a dense layer holds besides its two forward caches. *)
Definition frozen_by_forward (d : Dense.t)
  : activation * ndarray * ndarray * ndarray * ndarray
    * option regularizer * option regularizer * nat :=
  (Dense.g d, Dense.w d, Dense.dw d, Dense.b d, Dense.db d,
   Dense.kernel_regularizer d, Dense.bias_regularizer d, Dense.layer_id d).

(** The parameters of a layer, [(w, b)], and its gradient buffers,
    [(dw, db)]; the input placeholder has neither. *)
Definition parameters (l : layer) : option (ndarray * ndarray) :=
  match l with
  | DenseLayer d => Some (Dense.w d, Dense.b d)
  | InputLayer _ => None
  end.

Definition gradients (l : layer) : option (ndarray * ndarray) :=
  match l with
  | DenseLayer d => Some (Dense.dw d, Dense.db d)
  | InputLayer _ => None
  end.

Definition is_dense (l : layer) : bool :=
  match l with
  | DenseLayer _ => true
  | InputLayer _ => false
  end.

(** A method of a layer that keeps what [f] reads of the layer. *)
Definition layer_keeps {X A} (f : layer -> X) (m : M layer A) : Prop :=
  forall l, f (m l).2 = f l.

(** [f] of every layer of the network, in order, is [v]. *)
Definition layers_read {X} (f : layer -> X) (v : list X) (s : Network.t)
  : Prop :=
  f <$> Network.items s = v.

(** The layers a sequence of calls adds, in order. *)
Definition added (calls : list Network.call) : list layer :=
  flat_map (fun c => match c with
                     | Network.call_add l => [l]
                     | _ => []
                     end) calls.

(** What a layer holds besides its forward caches [z] and [a]; of the
    input placeholder, whose only attribute is the input, nothing. *)
Definition outside_forward (l : layer)
  : option (activation * ndarray * ndarray * ndarray * ndarray
            * option regularizer * option regularizer * nat) :=
  match l with
  | DenseLayer d => Some (frozen_by_forward d)
  | InputLayer _ => None
  end.

(** What a layer holds besides its gradient buffers [dw] and [db]. *)
Definition outside_backward (l : layer)
  : option ndarray
    + activation * ndarray * ndarray * option ndarray * option ndarray
      * option regularizer * option regularizer * nat :=
  match l with
  | DenseLayer d => inr (frozen_by_backward d)
  | InputLayer a => inl a
  end.

(** What a layer holds besides its parameters [w] and [b]. *)
Definition outside_update (l : layer)
  : option ndarray
    + activation * ndarray * ndarray * option ndarray * option ndarray
      * option regularizer * option regularizer * nat :=
  match l with
  | DenseLayer d =>
      inr (Dense.g d, Dense.dw d, Dense.db d, Dense.z d, Dense.a d,
           Dense.kernel_regularizer d, Dense.bias_regularizer d,
           Dense.layer_id d)
  | InputLayer a => inl a
  end.

(** What a layer holds besides its weights [w] and its forward caches. *)
Definition outside_check (l : layer)
  : option (activation * ndarray * ndarray * ndarray
            * option regularizer * option regularizer * nat) :=
  match l with
  | DenseLayer d =>
      Some (Dense.g d, Dense.dw d, Dense.b d, Dense.db d,
            Dense.kernel_regularizer d, Dense.bias_regularizer d,
            Dense.layer_id d)
  | InputLayer _ => None
  end.

(** What no method of the network changes in a layer: its activation, its
    regularizers, its identifier and the shapes of its weights and bias. *)
Definition architecture (l : layer)
  : option (activation * option regularizer * option regularizer * nat
            * (nat * nat) * (nat * nat)) :=
  match l with
  | DenseLayer d =>
      Some (Dense.g d, Dense.kernel_regularizer d, Dense.bias_regularizer d,
            Dense.layer_id d,
            (nrows (Dense.w d), ncols (Dense.w d)),
            (nrows (Dense.b d), ncols (Dense.b d)))
  | InputLayer _ => None
  end.

(** ** Vocabulary for the parameter update and the chain of layers *)

(** One step of gradient descent on a parameter: entry [(i, j)] of [p]
    less [rate] times that of its gradient [dp], read with broadcasting. *)
Definition descended (rate : Q) (p dp : ndarray) : ndarray :=
  tabulate (nrows p) (ncols p)
    (fun i j => item p i j - rate * bitem dp i j)%Q.

(** A dense layer after one step on both of its parameters. *)
Definition stepped (rate : Q) (d : Dense.t) : Dense.t :=
  Dense.set_b (descended rate (Dense.b d) (Dense.db d))
    (Dense.set_w (descended rate (Dense.w d) (Dense.dw d)) d).

(** The gradient buffers of a layer can be subtracted in place from its
    parameters. *)
Definition gradients_fit (d : Dense.t) : Prop :=
  broadcasts_into (Dense.dw d) (nrows (Dense.w d)) (ncols (Dense.w d))
  /\ broadcasts_into (Dense.db d) (nrows (Dense.b d)) (ncols (Dense.b d)).

(** What a dense layer returns on an input, and the layer with the caches
    it then holds. *)
Definition output_of {E : Externals} (a_in : ndarray) (d : Dense.t) : ndarray :=
  call_activation (Dense.g d)
    (pre_activation (Dense.w d) (Dense.b d) a_in).

Definition forwarded {E : Externals} (a_in : ndarray) (d : Dense.t) : Dense.t :=
  Dense.set_a (output_of a_in d)
    (Dense.set_z (pre_activation (Dense.w d) (Dense.b d) a_in) d).

(** An input fits a chain of dense layers: each layer receives as many
    rows as its weights have columns, and its bias broadcasts over the
    batch. *)
Fixpoint feeds {E : Externals} (a_in : ndarray) (ds : list Dense.t) : Prop :=
  match ds with
  | [] => True
  | d :: ds' =>
      ncols (Dense.w d) = nrows a_in
      /\ broadcasts_into (Dense.b d) (nrows (Dense.w d)) (ncols a_in)
      /\ feeds (output_of a_in d) ds'
  end.

(** The output of a chain of dense layers, each fed the output of the one
    before it, and the layers with their caches. *)
Fixpoint chain_output {E : Externals} (a_in : ndarray) (ds : list Dense.t)
  : ndarray :=
  match ds with
  | [] => a_in
  | d :: ds' => chain_output (output_of a_in d) ds'
  end.

Fixpoint chain_layers {E : Externals} (a_in : ndarray) (ds : list Dense.t)
  : list Dense.t :=
  match ds with
  | [] => []
  | d :: ds' => forwarded a_in d :: chain_layers (output_of a_in d) ds'
  end.

(** The dense layers among a list of layers. *)
Definition dense_layers (ls : list layer) : list Dense.t :=
  omap (fun l => match l with
                 | DenseLayer d => Some d
                 | InputLayer _ => None
                 end) ls.

(** The sample network after one batch of training on the sample data. *)
Definition trained_network : Network.t :=
  (Network.train_on_batch (E := sample_externals) sample_x sample_y
     sample_network).2.

(** A key of [layers] that marks a batch-normalisation layer:
    [l.info == 'batch']. *)
Definition is_batch (k : key) : bool :=
  match key_info k with
  | Some info => String.eqb info "batch"
  | None => false
  end.

(** What a run adds to the count of completed epochs. *)
Definition completed {A} (r : result A) : Z :=
  match r with
  | Ok _ => 1%Z
  | Raise _ => 0%Z
  end.

(** A step that counts as one epoch when it returns, and as none when it
    raises. *)
Definition counts_epoch {A} (m : M Network.t A) : Prop :=
  forall s, Network.epoch (m s).2 = (Network.epoch s + completed (m s).1)%Z.

(** ** Vocabulary for the backward pass over the hidden layers *)

(** The backward pass over a block of dense layers [hidden], from its last
    layer to its first.  [before] is the layer that precedes the block;
    [w_after] and [error_after] are the weights and the error of the
    layer that follows it.  Each layer is stepped with the activation
    cached by the layer before it, the weights of the layer after it and
    the error the step on that layer returned.  The value is the error of
    the first layer of the block, or the first exception, with the layers
    as the pass leaves them. *)
Fixpoint backward_hidden {E : Externals} (before : layer)
    (hidden : list Dense.t) (w_after error_after : ndarray)
  : result ndarray * list Dense.t :=
  match hidden with
  | [] => (Ok error_after, [])
  | d :: rest =>
      let (r, rest') :=
        backward_hidden (DenseLayer d) rest w_after error_after in
      match r with
      | Raise e => (Raise e, d :: rest')
      | Ok error_prev =>
          match (layer_a before).1 with
          | Raise e => (Raise e, d :: rest')
          | Ok a_next =>
              let w_prev := match rest' with
                            | [] => w_after
                            | d_next :: _ => Dense.w d_next
                            end in
              let (r', d') :=
                Dense.backward_step a_next w_prev error_prev d in
              (r', d' :: rest')
          end
      end
  end.

(** The outcome of a method that returns nothing. *)
Definition outcome {A} (r : result A) : result unit :=
  match r with
  | Ok _ => Ok tt
  | Raise e => Raise e
  end.

(** The sample network after a forward pass over the sample inputs. *)
Definition forwarded_network : Network.t :=
  (Network.forward_step (E := sample_externals) sample_x sample_network).2.

(** ** Vocabulary for what the forward pass reads *)

(** What the forward pass reads of a layer: for a dense layer its
    activation function, weights and bias. *)
Definition forward_inputs (l : layer)
  : option (activation * ndarray * ndarray) :=
  match l with
  | DenseLayer d => Some (Dense.g d, Dense.w d, Dense.b d)
  | InputLayer _ => None
  end.

(** Two networks whose layers hold the same parameters and, when
    [with_loss] is set, that are compiled with the same loss. *)
Definition same_model (with_loss : bool) (s s' : Network.t) : Prop :=
  forward_inputs <$> Network.items s = forward_inputs <$> Network.items s'
  /\ (if with_loss then Network.loss_fct s = Network.loss_fct s' else True).

(** A method whose value depends on the model only, and that takes the
    same model to the same model. *)
Definition respects_model {A} (with_loss : bool) (m : M Network.t A) : Prop :=
  forall s s', same_model with_loss s s' ->
    (m s).1 = (m s').1 /\ same_model with_loss (m s).2 (m s').2.

(** The same for a method of a layer. *)
Definition respects_inputs {A} (m : M layer A) : Prop :=
  forall l l', forward_inputs l = forward_inputs l' ->
    (m l).1 = (m l').1 /\ forward_inputs (m l).2 = forward_inputs (m l').2.

(** The shapes of the parameters of a layer. *)
Definition parameter_shapes (l : layer)
  : option (nat * nat * (nat * nat)) :=
  match l with
  | DenseLayer d =>
      Some (nrows (Dense.w d), ncols (Dense.w d),
            (nrows (Dense.b d), ncols (Dense.b d)))
  | InputLayer _ => None
  end.

(** What the forward pass reads of a layer besides its weights. *)
Definition bias_and_activation (l : layer) : option (activation * ndarray) :=
  match l with
  | DenseLayer d => Some (Dense.g d, Dense.b d)
  | InputLayer _ => None
  end.

(** ** Vocabulary for the schedule of the training loop *)

(** The calls one epoch records under the learning rate [r]: for every
    minibatch a training step on its examples, then a weight update. *)
Definition epoch_schedule (r : option Q) (mbs : list (ndarray * ndarray))
  : list event :=
  flat_map (fun mb => [TrainOnBatch (ncols mb.1) r; UpdateWeights r]) mbs.

(** The calls of [epochs] epochs that start from the rate [rate]: the
    epoch [j] runs under [rate] decayed [j] times. *)
Definition schedule (rate : Q) (first epochs : nat)
    (mbs : list (ndarray * ndarray)) : list event :=
  flat_map (fun j => epoch_schedule (Some (decayed j rate)) mbs)
    (seq first epochs).

(** ** Vocabulary for what the caches do not influence *)

(** A layer with its caches forgotten. *)
Definition forget_layer (l : layer) : layer :=
  match l with
  | InputLayer _ => InputLayer None
  | DenseLayer d =>
      DenseLayer
        (Dense.mk (Dense.g d) (Dense.w d) (Dense.dw d) (Dense.b d)
           (Dense.db d) None None (Dense.kernel_regularizer d)
           (Dense.bias_regularizer d) (Dense.layer_id d))
  end.

(** A network with the caches of its layers forgotten. *)
Definition forget_caches (s : Network.t) : Network.t :=
  Network.set_items (forget_layer <$> Network.items s) s.

(** Two networks that differ in the caches of their layers at most: they
    have the same parameters, gradient buffers, learning rate, loss,
    epoch counter, random generator and record of calls. *)
Definition same_but_caches (s s' : Network.t) : Prop :=
  forget_caches s = forget_caches s'.

(** A network made of the input placeholder and [n] dense layers. *)
Definition plain (n : nat) (s : Network.t) : Prop :=
  layers_read is_dense (false :: replicate n true) s.

(** Whenever [m] returns on a plain network, [m'] returns the same value
    on any network that differs from it in caches only, and the two
    networks then still differ in caches only. *)
Definition simulates (n : nat) {A} (m m' : M Network.t A) : Prop :=
  forall s s', plain n s -> same_but_caches s s' ->
    forall v t, m s = (Ok v, t) ->
      exists t', m' s' = (Ok v, t') /\ same_but_caches t t'.

(** Whenever [m] returns on a plain network, it returns the same value
    and leaves the same network when started from any network that
    differs in caches only. *)
Definition synchronises (n : nat) {A} (m : M Network.t A) : Prop :=
  forall s s', plain n s -> same_but_caches s s' ->
    forall v t, m s = (Ok v, t) -> m s' = (Ok v, t).

(** The same for a method of a layer. *)
Definition layer_simulates {A} (m : M layer A) : Prop :=
  forall l l', forget_layer l = forget_layer l' ->
    forall v l1, m l = (Ok v, l1) ->
      exists l1', m l' = (Ok v, l1') /\ forget_layer l1 = forget_layer l1'.

(** ** Vocabulary for the order of the calls of the training loop *)

(** A recorded call without the learning rate it ran under and, for a
    gradient check, without the weight that was drawn for it. *)
Inductive step : Type :=
| Trains (examples : nat)
| Checks (eps : Q)
| Updates.

Definition step_of (e : event) : step :=
  match e with
  | TrainOnBatch examples _ => Trains examples
  | GradientCheck _ _ _ eps _ => Checks eps
  | UpdateWeights _ => Updates
  end.

Definition steps (s : Network.t) : list step := step_of <$> Network.trace s.

(** The calls on the minibatch of index [m] in its epoch: a training
    step on its examples; three gradient checks with [eps = 10**(-6)] when
    checks are made ([checking]) and [m] is 1; a weight update. *)
Definition batch_steps (checking : bool) (m : nat)
    (minibatch : ndarray * ndarray) : list step :=
  [Trains (ncols minibatch.1)]
  ++ (if checking && (m =? 1)%nat
      then replicate 3 (Checks (1 # 1000000)) else [])
  ++ [Updates].

(** The calls of one epoch over the minibatches [mbs], numbered from 0,
    and of [epochs] epochs. *)
Definition epoch_steps (checking : bool) (mbs : list (ndarray * ndarray))
  : list step :=
  flat_map (fun mb => batch_steps checking mb.1 mb.2) (enumerate mbs).

Definition fit_steps (checking : bool) (epochs : nat)
    (mbs : list (ndarray * ndarray)) : list step :=
  flat_map (fun _ => epoch_steps checking mbs) (seq 0 epochs).

(** A method that records no call. *)
Definition silent {A} (m : M Network.t A) : Prop :=
  forall s, Network.trace (m s).2 = Network.trace s.

(** A method that records the calls [expected], in that order, when it
    returns, and the first ones of them, in that order, when it raises. *)
Definition records {A} (expected : list step) (m : M Network.t A) : Prop :=
  forall s, exists done,
    done `prefix_of` expected
    /\ steps (m s).2 = steps s ++ done
    /\ (forall v, (m s).1 = Ok v -> done = expected).

(** The sample collaborators, with a [misc.minibatches] that makes
    minibatches of two examples whatever size it is asked for: the four
    sample examples then make two minibatches. *)
Definition paired_externals : Externals := {|
  softmax_value := normalise_columns;
  softmax_jacobian := normalise_jacobian;
  minibatches := fun x y _ => chunked_minibatches x y 2;
  norm := fun v => fold_right Qplus 0%Q (map Qabs v);
  random := fun k => k
|}.
(** * Properties *)

(** ** Arrays *)

Lemma nth_tabulated {A} (f : nat -> A) (n k : nat) (d : A) :
  (k < n)%nat -> nth k (map f (seq 0 n)) d = f k.
Proof.
  intros Hk.
  rewrite (nth_indep _ d (f 0%nat)) by (rewrite length_map, length_seq; lia).
  rewrite map_nth, seq_nth; auto.
Qed.

Lemma item_tabulate (r c : nat) (f : nat -> nat -> Q) (i j : nat) :
  (i < r)%nat -> (j < c)%nat -> item (tabulate r c f) i j = f i j.
Proof.
  intros Hi Hj. unfold item, tabulate; simpl.
  rewrite nth_tabulated by lia. now rewrite nth_tabulated by lia.
Qed.

Lemma well_shaped_tabulate (r c : nat) (f : nat -> nat -> Q) :
  well_shaped (tabulate r c f) = true.
Proof.
  unfold well_shaped, tabulate; simpl.
  rewrite length_map, length_seq, Nat.eqb_refl; simpl.
  apply forallb_forall. intros row Hrow.
  apply in_map_iff in Hrow as (i & <- & _).
  rewrite length_map, length_seq. apply Nat.eqb_refl.
Qed.

(** The sample arrays are rectangular, of the shape they declare. *)
Lemma samples_well_shaped :
  forallb well_shaped
    [sample_x; sample_y;
     Dense.w (sample_hidden None None); Dense.b (sample_hidden None None);
     Dense.w (sample_output None None); Dense.b (sample_output None None)]
  = true.
Proof. reflexivity. Qed.

Lemma broadcast_dim_same (m : nat) : broadcast_dim m m = Ok m.
Proof. unfold broadcast_dim. now rewrite Nat.eqb_refl. Qed.

Lemma broadcast_dim_one (m n : nat) :
  n = m \/ n = 1%nat -> broadcast_dim m n = Ok m.
Proof.
  unfold broadcast_dim. intros [-> | ->].
  - now rewrite Nat.eqb_refl.
  - destruct (m =? 1)%nat eqn:E; [now apply Nat.eqb_eq in E as ->|].
    reflexivity.
Qed.

Lemma bidx_same (dim i : nat) : (i < dim)%nat -> bidx dim i = i.
Proof.
  unfold bidx. destruct (dim =? 1)%nat eqn:E; [|reflexivity].
  apply Nat.eqb_eq in E. lia.
Qed.

(** The product of two arrays of one shape is entry by entry. *)
Lemma np_mul_same_shape (A B : ndarray) :
  nrows B = nrows A -> ncols B = ncols A ->
  np_mul A B = Ok (tabulate (nrows A) (ncols A)
                     (fun i j => bitem A i j * bitem B i j)%Q).
Proof.
  intros Hr Hc. unfold np_mul, elementwise.
  rewrite Hr, Hc, !broadcast_dim_same. reflexivity.
Qed.

(** An in-place operator succeeds on an operand that broadcasts
    into the shape of its target, which the result keeps. *)
Lemma inplace_broadcast (op : Q -> Q -> Q) (A B : ndarray) :
  (nrows B = nrows A \/ nrows B = 1%nat) ->
  (ncols B = ncols A \/ ncols B = 1%nat) ->
  inplace op A B = Ok (tabulate (nrows A) (ncols A)
                         (fun i j => op (bitem A i j) (bitem B i j))).
Proof.
  intros Hr Hc. unfold inplace, elementwise.
  rewrite (broadcast_dim_one _ _ Hr), (broadcast_dim_one _ _ Hc); simpl.
  now rewrite !Nat.eqb_refl.
Qed.

(** ** Invariants of monadic code *)

Section Invariant.
Context {S : Type} (I : S -> Prop).

Lemma invariant_ret {A} (a : A) : invariant I (ret a).
Proof. now intros s. Qed.

Lemma invariant_raise {A} (e : exn) : invariant I (@raise S A e).
Proof. now intros s. Qed.

Lemma invariant_lift {A} (r : result A) : invariant I (lift r).
Proof. now intros s. Qed.

Lemma invariant_get : invariant I get.
Proof. now intros s. Qed.

Lemma invariant_gets {A} (f : S -> A) : invariant I (gets f).
Proof. now intros s. Qed.

Lemma invariant_attr {A} (field : option A) : invariant I (attr field).
Proof. now destruct field; intros s. Qed.

Lemma invariant_modify (f : S -> S) :
  (forall s, I s -> I (f s)) -> invariant I (modify f).
Proof. intros Hf s Hs. now apply Hf. Qed.

Lemma invariant_bind {A B} (m : M S A) (k : A -> M S B) :
  invariant I m -> (forall a, invariant I (k a)) -> invariant I (bind m k).
Proof.
  intros Hm Hk s Hs. unfold bind.
  specialize (Hm s Hs). destruct (m s) as [[a|e] s']; simpl in *; auto.
  now apply Hk.
Qed.

Lemma invariant_for_each {A} (xs : list A) (body : A -> M S unit) :
  (forall x, invariant I (body x)) -> invariant I (for_each xs body).
Proof.
  intros Hbody. induction xs as [|x xs IH]; simpl.
  - apply invariant_ret.
  - apply invariant_bind; auto.
Qed.

Lemma invariant_for_loop {A L} (xs : list A) (body : A -> L -> M S L) :
  (forall x l, invariant I (body x l)) ->
  forall l, invariant I (for_loop xs body l).
Proof.
  intros Hbody. induction xs as [|x xs IH]; simpl; intros l.
  - apply invariant_ret.
  - apply invariant_bind; auto.
Qed.
Lemma invariant_for_loop_in {A L} (xs : list A) (body : A -> L -> M S L) :
  (forall x l, In x xs -> invariant I (body x l)) ->
  forall l, invariant I (for_loop xs body l).
Proof.
  induction xs as [|x xs IH]; simpl; intros Hbody l.
  - apply invariant_ret.
  - apply invariant_bind; auto.
Qed.
End Invariant.

Ltac invariant_step :=
  lazymatch goal with
  | |- invariant _ (bind _ _) => apply invariant_bind; [|intro]
  | |- invariant _ (ret _) => apply invariant_ret
  | |- invariant _ (raise _) => apply invariant_raise
  | |- invariant _ (lift _) => apply invariant_lift
  | |- invariant _ get => apply invariant_get
  | |- invariant _ (gets _) => apply invariant_gets
  | |- invariant _ (attr _) => apply invariant_attr
  | |- invariant _ (for_loop _ _ _) => apply invariant_for_loop; intros
  | |- invariant _ (for_each _ _) => apply invariant_for_each; intros
  | |- invariant _ (match ?x with _ => _ end) => destruct x
  end.

(** ** Running monadic code *)

Lemma bind_ok {S A B} (m : M S A) (k : A -> M S B) (s s' : S) (a : A) :
  m s = (Ok a, s') -> bind m k s = k a s'.
Proof. intros Hm. unfold bind. now rewrite Hm. Qed.

Lemma bind_ok_inv {S A B} (m : M S A) (k : A -> M S B) (s s' : S) (b : B) :
  bind m k s = (Ok b, s') ->
  exists a s1, m s = (Ok a, s1) /\ k a s1 = (Ok b, s').
Proof.
  unfold bind. destruct (m s) as [[a|e] s1]; [|discriminate].
  intros Hk. now exists a, s1.
Qed.

Lemma bind_modify {S B} (f : S -> S) (k : unit -> M S B) (s : S) :
  bind (modify f) k s = k tt (f s).
Proof. reflexivity. Qed.

Lemma bind_get {S B} (k : S -> M S B) (s : S) : bind get k s = k s s.
Proof. reflexivity. Qed.

Lemma bind_ret {S A B} (a : A) (k : A -> M S B) (s : S) :
  bind (ret a) k s = k a s.
Proof. reflexivity. Qed.

Lemma bind_lift_ok {S A B} (a : A) (k : A -> M S B) (s : S) :
  bind (lift (Ok a)) k s = k a s.
Proof. reflexivity. Qed.

Lemma sigma_ext (n : nat) (f g : nat -> Q) :
  (forall k, (k < n)%nat -> f k = g k) -> sigma n f = sigma n g.
Proof.
  intros Hfg. unfold sigma. f_equal.
  apply map_ext_in. intros k Hk. apply in_seq in Hk. apply Hfg. lia.
Qed.

Lemma py_inv_positive (n : nat) :
  n <> 0%nat -> py_inv n = Ok (reciprocal n).
Proof. now destruct n. Qed.

Lemma bitem_in_range (A : ndarray) (i j : nat) :
  (i < nrows A)%nat -> (j < ncols A)%nat -> bitem A i j = item A i j.
Proof. intros Hi Hj. unfold bitem. now rewrite !bidx_same. Qed.

Lemma bidx_broadcast (dim r i : nat) :
  dim = r \/ dim = 1%nat -> (i < r)%nat -> (bidx dim i < dim)%nat.
Proof.
  intros Hdim Hi. unfold bidx. destruct (dim =? 1)%nat eqn:E.
  - apply Nat.eqb_eq in E. lia.
  - apply Nat.eqb_neq in E. lia.
Qed.

Lemma bitem_scale (s : Q) (A : ndarray) (r c i j : nat) :
  broadcasts_into A r c -> (i < r)%nat -> (j < c)%nat ->
  bitem (scale s A) i j = (s * bitem A i j)%Q.
Proof.
  intros [Hr Hc] Hi Hj. unfold bitem, scale; simpl.
  rewrite item_tabulate; eauto using bidx_broadcast.
Qed.

Lemma tabulate_ext (r c : nat) (f g : nat -> nat -> Q) :
  (forall i j, (i < r)%nat -> (j < c)%nat -> f i j = g i j) ->
  tabulate r c f = tabulate r c g.
Proof.
  intros Hfg. unfold tabulate. f_equal.
  apply map_ext_in. intros i Hi. apply in_seq in Hi.
  apply map_ext_in. intros j Hj. apply in_seq in Hj.
  apply Hfg; lia.
Qed.

(** The two batch averages, as numpy computes them. *)
Lemma dot_transpose (error a_next : ndarray) :
  ncols error = ncols a_next ->
  np_dot error (transpose a_next)
  = Ok (tabulate (nrows error) (nrows a_next)
          (fun i j => sigma (ncols error)
                        (fun n => item error i n * item (transpose a_next) n j))%Q).
Proof.
  intros Hn. unfold np_dot; simpl. now rewrite Hn, Nat.eqb_refl.
Qed.

Lemma scale_dot_transpose (inv : Q) (error a_next : ndarray) :
  ncols error = ncols a_next ->
  scale inv (tabulate (nrows error) (nrows a_next)
               (fun i j => sigma (ncols error)
                  (fun n => item error i n * item (transpose a_next) n j))%Q)
  = averaged_dw inv error a_next.
Proof.
  intros Hn. unfold scale, averaged_dw; simpl.
  apply tabulate_ext. intros i j Hi Hj.
  rewrite item_tabulate by lia. f_equal.
  apply sigma_ext. intros n Hn'. unfold transpose.
  now rewrite item_tabulate by lia.
Qed.

Lemma scale_sum_axis1 (inv : Q) (error : ndarray) :
  scale inv (np_sum_axis1 error) = averaged_db inv error.
Proof.
  unfold scale, averaged_db; simpl.
  apply tabulate_ext. intros i j Hi Hj.
  unfold np_sum_axis1. now rewrite item_tabulate by lia.
Qed.

(** ** The backward step of a dense layer *)

Section DenseBackward.
Context {E : Externals}.
Variables (self : Dense.t) (a_next w_prev error_prev : ndarray).

Lemma backward_error_run (zc dz : ndarray) :
  Dense.z self = Some zc ->
  call_derivative (Dense.g self) zc = Matrix dz ->
  nrows w_prev = nrows error_prev ->
  nrows dz = ncols w_prev -> ncols dz = ncols error_prev ->
  Dense.backward_error w_prev error_prev self
  = (Ok (error_signal w_prev error_prev dz), self).
Proof.
  intros Hz Hd Hk Hr Hc.
  unfold Dense.backward_error, bind, get, attr, lift, ret.
  rewrite Hz, Hd. unfold np_dot; simpl.
  rewrite Hk, Nat.eqb_refl.
  rewrite np_mul_same_shape by (simpl; lia). simpl.
  do 2 f_equal. apply tabulate_ext. intros i n Hi Hn.
  rewrite !bitem_in_range by (simpl; lia).
  rewrite item_tabulate by lia. f_equal.
  rewrite Hk. apply sigma_ext. intros k Hk'. unfold transpose.
  now rewrite item_tabulate by lia.
Qed.

Lemma store_gradients_run (error : ndarray) :
  ncols error = ncols a_next -> ncols a_next <> 0%nat ->
  let inv := reciprocal (ncols a_next) in
  Dense.store_gradients a_next error self
  = (Ok inv, Dense.set_db (averaged_db inv error)
               (Dense.set_dw (averaged_dw inv error a_next) self)).
Proof.
  intros Hn HB inv.
  unfold Dense.store_gradients, bind, lift, modify, ret.
  rewrite (py_inv_positive _ HB). fold inv.
  rewrite (dot_transpose _ _ Hn). simpl.
  now rewrite scale_dot_transpose, scale_sum_axis1.
Qed.
End DenseBackward.

Lemma add_kernel_regularizer_run {E : Externals} (inv : Q) (self : Dense.t)
    (r : regularizer) :
  Dense.kernel_regularizer self = Some r ->
  broadcasts_into (reg_derivative r (Dense.w self))
    (nrows (Dense.dw self)) (ncols (Dense.dw self)) ->
  np_all_eq (reg_param r (Dense.w self)) (Dense.w self) = Ok true ->
  Dense.add_kernel_regularizer inv self
  = (Ok tt, Dense.set_dw
              (tabulate (nrows (Dense.dw self)) (ncols (Dense.dw self))
                 (fun i j => item (Dense.dw self) i j
                    + inv * bitem (reg_derivative r (Dense.w self)) i j)%Q)
              self).
Proof.
  intros Hr Hshape Hsame.
  unfold Dense.add_kernel_regularizer, bind, get, lift, modify, ret.
  rewrite Hr. unfold np_iadd.
  rewrite inplace_broadcast by apply Hshape. simpl.
  rewrite Hsame. do 2 f_equal.
  apply tabulate_ext. intros i j Hi Hj.
  rewrite bitem_in_range by lia. f_equal.
  eapply bitem_scale; eauto.
Qed.

Lemma add_bias_regularizer_run {E : Externals} (inv : Q) (self : Dense.t)
    (r : regularizer) :
  Dense.bias_regularizer self = Some r ->
  broadcasts_into (reg_derivative r (Dense.b self))
    (nrows (Dense.db self)) (ncols (Dense.db self)) ->
  Dense.add_bias_regularizer inv self
  = (Ok tt, Dense.set_db
              (tabulate (nrows (Dense.db self)) (ncols (Dense.db self))
                 (fun i j => item (Dense.db self) i j
                    + inv * bitem (reg_derivative r (Dense.b self)) i j)%Q)
              self).
Proof.
  intros Hr Hshape.
  unfold Dense.add_bias_regularizer, bind, get, lift, modify, ret.
  rewrite Hr. unfold np_iadd.
  rewrite inplace_broadcast by apply Hshape. simpl.
  do 2 f_equal.
  apply tabulate_ext. intros i j Hi Hj.
  rewrite bitem_in_range by lia. f_equal.
  eapply bitem_scale; eauto.
Qed.

(** C1.  [Dense.backward_step(a_next, w_prev, error_prev)] on a prepared
    layer with cached pre-activation [zc], elementwise derivative
    [dz = g'(zc)] and a batch of [B = a_next.shape[-1] > 0] examples, the
    shapes being those of a layer between its neighbours:
    - the error is [(w_prev^T . error_prev) * dz], entry by entry;
    - lines 57-61 set [dw] to [(1/B) . error . a_next^T] and [db] to
      [(1/B) . rowwise_sum(error)];
    - the call returns that error, and the gradients it leaves are these
      values, to which lines 63-69 have added the contribution of each
      regularizer that is bound (nothing when none is). *)
Theorem backward_step_error_and_gradients {E : Externals}
    (self : Dense.t) (a_next w_prev error_prev zc dz : ndarray) :
  Dense.z self = Some zc ->
  call_derivative (Dense.g self) zc = Matrix dz ->
  nrows w_prev = nrows error_prev ->
  nrows dz = ncols w_prev ->
  ncols dz = ncols a_next ->
  ncols error_prev = ncols a_next ->
  ncols a_next <> 0%nat ->
  (forall r, Dense.kernel_regularizer self = Some r ->
     broadcasts_into (reg_derivative r (Dense.w self))
       (ncols w_prev) (nrows a_next) /\
     np_all_eq (reg_param r (Dense.w self)) (Dense.w self) = Ok true) ->
  (forall r, Dense.bias_regularizer self = Some r ->
     broadcasts_into (reg_derivative r (Dense.b self)) (ncols w_prev) 1) ->
  exists (error : ndarray) (mid self' : Dense.t),
    nrows error = ncols w_prev /\ ncols error = ncols a_next /\
    (forall i n, (i < ncols w_prev)%nat -> (n < ncols a_next)%nat ->
       item error i n
       = (sigma (nrows w_prev) (fun k => item w_prev k i * item error_prev k n)
          * item dz i n)%Q) /\
    (let* e := Dense.backward_error w_prev error_prev in
     let* _ := Dense.store_gradients a_next e in
     ret e) self = (Ok error, mid) /\
    nrows (Dense.dw mid) = ncols w_prev /\
    ncols (Dense.dw mid) = nrows a_next /\
    nrows (Dense.db mid) = ncols w_prev /\
    ncols (Dense.db mid) = 1%nat /\
    (forall i j, (i < ncols w_prev)%nat -> (j < nrows a_next)%nat ->
       item (Dense.dw mid) i j
       = (reciprocal (ncols a_next)
          * sigma (ncols a_next) (fun n => item error i n * item a_next j n))%Q) /\
    (forall i, (i < ncols w_prev)%nat ->
       item (Dense.db mid) i 0
       = (reciprocal (ncols a_next)
          * sigma (ncols a_next) (fun n => item error i n))%Q) /\
    Dense.backward_step a_next w_prev error_prev self = (Ok error, self') /\
    (forall i j, (i < ncols w_prev)%nat -> (j < nrows a_next)%nat ->
       item (Dense.dw self') i j
       = regularized (Dense.kernel_regularizer self) (Dense.w self)
           (reciprocal (ncols a_next)) i j (item (Dense.dw mid) i j)) /\
    (forall i, (i < ncols w_prev)%nat ->
       item (Dense.db self') i 0
       = regularized (Dense.bias_regularizer self) (Dense.b self)
           (reciprocal (ncols a_next)) i 0 (item (Dense.db mid) i 0)).
Proof.
  intros Hz Hd Hk Hdr Hdc He HB Hkernel Hbias.
  set (inv := reciprocal (ncols a_next)).
  set (error := error_signal w_prev error_prev dz).
  assert (Herr : Dense.backward_error w_prev error_prev self = (Ok error, self))
    by (eapply backward_error_run; eauto; lia).
  assert (Hcols : ncols error = ncols a_next) by (simpl; lia).
  pose proof (store_gradients_run self a_next error Hcols HB) as Hstore.
  fold inv in Hstore.
  set (mid := Dense.set_db (averaged_db inv error)
                (Dense.set_dw (averaged_dw inv error a_next) self)) in *.
  (* lines 63-69 on the state the gradients were stored in *)
  assert (Hregs : exists self',
    (do Dense.add_kernel_regularizer inv in
     do Dense.add_bias_regularizer inv in ret error) mid = (Ok error, self') /\
    (forall i j, (i < ncols w_prev)%nat -> (j < nrows a_next)%nat ->
       item (Dense.dw self') i j
       = regularized (Dense.kernel_regularizer self) (Dense.w self) inv i j
           (item (Dense.dw mid) i j)) /\
    (forall i, (i < ncols w_prev)%nat ->
       item (Dense.db self') i 0
       = regularized (Dense.bias_regularizer self) (Dense.b self) inv i 0
           (item (Dense.db mid) i 0))).
  { destruct (Dense.kernel_regularizer self) as [rk|] eqn:Ek.
    - destruct (Hkernel rk eq_refl) as [Hshape Hsame].
      erewrite bind_ok
        by (apply (add_kernel_regularizer_run inv mid rk); auto).
      set (mid' := Dense.set_dw _ mid).
      destruct (Dense.bias_regularizer self) as [rb|] eqn:Eb.
      + erewrite bind_ok
          by (apply (add_bias_regularizer_run inv mid' rb); auto).
        eexists; split; [reflexivity|]. split; intros; simpl.
        * now rewrite item_tabulate by lia.
        * now rewrite item_tabulate by lia.
      + erewrite bind_ok
          by (unfold Dense.add_bias_regularizer, bind, get; simpl;
              rewrite Eb; reflexivity).
        eexists; split; [reflexivity|]. split; intros; simpl.
        * now rewrite item_tabulate by lia.
        * reflexivity.
    - erewrite bind_ok
        by (unfold Dense.add_kernel_regularizer, bind, get; simpl;
            rewrite Ek; reflexivity).
      destruct (Dense.bias_regularizer self) as [rb|] eqn:Eb.
      + erewrite bind_ok
          by (apply (add_bias_regularizer_run inv mid rb); auto).
        eexists; split; [reflexivity|]. split; intros; simpl.
        * reflexivity.
        * now rewrite item_tabulate by lia.
      + erewrite bind_ok
          by (unfold Dense.add_bias_regularizer, bind, get; simpl;
              rewrite Eb; reflexivity).
        eexists; split; [reflexivity|]. split; intros; reflexivity. }
  destruct Hregs as (self' & Hrun & Hdw & Hdb).
  exists error, mid, self'.
  split; [reflexivity|]. split; [exact Hcols|].
  split. { intros i n Hi Hn. unfold error, error_signal.
           now rewrite item_tabulate by lia. }
  split. { erewrite bind_ok by exact Herr. now erewrite bind_ok by exact Hstore. }
  split; [reflexivity|]. split; [reflexivity|].
  split; [reflexivity|]. split; [reflexivity|].
  split. { intros i j Hi Hj. simpl. unfold averaged_dw.
           rewrite item_tabulate by (simpl; lia). now rewrite Hcols. }
  split. { intros i Hi. simpl. unfold averaged_db.
           rewrite item_tabulate by (simpl; lia). now rewrite Hcols. }
  split; [|split; assumption].
  unfold Dense.backward_step.
  erewrite bind_ok by exact Herr. now erewrite bind_ok by exact Hstore.
Qed.

(** The sample hidden layer, with an L2 penalty on both parameters. *)
Lemma backward_step_error_and_gradients_witness :
  exists error self',
    Dense.backward_step (E := sample_externals) sample_x
      (matrix [[1; 1]]%Q) (matrix [[5; 6; 9; 18]]%Q)
      (sample_hidden (Some l2_regularizer) (Some l2_regularizer))
    = (Ok error, self')
    /\ item error 1 3 = 18%Q
    /\ item (Dense.dw self') 0 1
       = regularized (Some l2_regularizer) (matrix [[1; 2]; [3; 4]]%Q)
           (reciprocal 4) 0 1
           (reciprocal 4 * sigma 4 (fun n => item error 0 n * item sample_x 1 n))%Q.
Proof.
  destruct (backward_step_error_and_gradients (E := sample_externals)
              (sample_hidden (Some l2_regularizer) (Some l2_regularizer))
              sample_x (matrix [[1; 1]]%Q) (matrix [[5; 6; 9; 18]]%Q)
              (matrix [[2; 3; 4; 7]; [4; 5; 8; 15]]%Q)
              (tabulate 2 4 (fun _ _ => 1%Q)))
    as (error & mid & self' & _ & _ & Herror & _ & _ & _ & _ & _ & Hmid & _
        & Hrun & Hdw & _).
  - reflexivity.
  - reflexivity.
  - reflexivity.
  - reflexivity.
  - reflexivity.
  - reflexivity.
  - discriminate.
  - intros r [= <-]. split; [split; left; reflexivity | reflexivity].
  - intros r [= <-]. split; [left | right]; reflexivity.
  - exists error, self'. split; [exact Hrun|]. split.
    + rewrite (Herror 1%nat 3%nat) by (simpl; lia). reflexivity.
    + rewrite (Hdw 0%nat 1%nat) by (simpl; lia).
      rewrite (Hmid 0%nat 1%nat) by (simpl; lia). reflexivity.
Defined.

(** ** Invariants of the methods of a network *)

Create HintDb inv discriminated.

Ltac invariant_auto :=
  repeat (first [ invariant_step | solve [eauto with inv] ]).

Section NetworkInvariant.
Context {E : Externals}.
Variable I : Network.t -> Prop.
(** The loss-gradient checks the invariant tolerates, by their [eps]. *)
Variable allowed : Q -> Prop.

Hypothesis I_items : forall v s, I s -> I (Network.set_items v s).
Hypothesis I_draws : forall v s, I s -> I (Network.set_draws v s).
Hypothesis I_grads : forall v s, I s -> I (Network.set_grads_ v s).
Hypothesis I_n_d : forall vn vd s, I s -> I (Network.set_n_d vn vd s).
Hypothesis I_epoch : forall v s, I s -> I (Network.set_epoch v s).
Hypothesis I_batch_norm : forall v s, I s -> I (Network.set_batch_norm v s).
Hypothesis I_lr : forall v s, I s -> I (Network.set_lr v s).
Hypothesis I_loss_fct : forall v s, I s -> I (Network.set_loss_fct v s).
Hypothesis I_softmax_flag : forall v s,
  I s -> I (Network.set_softmax_flag v s).
Hypothesis I_train : forall k s,
  I s -> I (Network.set_trace
              (Network.trace s ++ [TrainOnBatch k (Network.lr s)]) s).
Hypothesis I_update : forall s,
  I s -> I (Network.set_trace
              (Network.trace s ++ [UpdateWeights (Network.lr s)]) s).
Hypothesis I_check : forall layer_id i j eps s,
  allowed eps ->
  I s -> I (Network.set_trace
              (Network.trace s ++ [GradientCheck layer_id i j eps (Network.lr s)])
              s).

Lemma at_layer_invariant {A} (i : Z) (m : M layer A) :
  invariant I (Network.at_layer i m).
Proof.
  intros s Hs. unfold Network.at_layer.
  destruct (py_index _ _) as [k|e]; [|exact Hs].
  destruct (Network.items s !! k) as [l|]; [|exact Hs].
  destruct (m l) as [r l']. now apply I_items.
Qed.
Hint Resolve at_layer_invariant : inv.

Lemma draw_invariant : invariant I Network.draw.
Proof. intros s Hs. now apply I_draws. Qed.
Hint Resolve draw_invariant : inv.

Lemma randint_invariant (low high : nat) :
  invariant I (Network.randint low high).
Proof. unfold Network.randint. invariant_auto. Qed.

Lemma choice_invariant (dim : nat) : invariant I (Network.choice dim).
Proof. unfold Network.choice. invariant_auto. Qed.
Hint Resolve randint_invariant choice_invariant : inv.

Lemma forward_step_invariant (a : ndarray) :
  invariant I (Network.forward_step a).
Proof. unfold Network.forward_step. invariant_auto. Qed.
Hint Resolve forward_step_invariant : inv.

Lemma output_error_invariant (y : ndarray) :
  invariant I (Network.output_error y).
Proof. unfold Network.output_error. invariant_auto. Qed.
Hint Resolve output_error_invariant : inv.

Lemma backprop_last_layer_invariant (x y : ndarray) :
  invariant I (Network._backprop_last_layer x y).
Proof. unfold Network._backprop_last_layer. invariant_auto. Qed.
Hint Resolve backprop_last_layer_invariant : inv.

Lemma backpropagation_invariant (x y : ndarray) :
  invariant I (Network.backpropagation x y).
Proof. unfold Network.backpropagation. invariant_auto. Qed.
Hint Resolve backpropagation_invariant : inv.

Lemma emit_train_invariant (k : nat) :
  invariant I (Network.emit (TrainOnBatch k)).
Proof. intros s Hs. now apply I_train. Qed.

Lemma emit_update_invariant : invariant I (Network.emit UpdateWeights).
Proof. intros s Hs. now apply I_update. Qed.

Lemma emit_check_invariant (layer_id i j : nat) (eps : Q) :
  allowed eps -> invariant I (Network.emit (GradientCheck layer_id i j eps)).
Proof. intros Heps s Hs. now apply I_check. Qed.
Hint Resolve emit_train_invariant emit_update_invariant
  emit_check_invariant : inv.

Lemma train_on_batch_invariant (x y : ndarray) :
  invariant I (Network.train_on_batch x y).
Proof. unfold Network.train_on_batch. invariant_auto. Qed.
Hint Resolve train_on_batch_invariant : inv.

Lemma update_weights_invariant : invariant I Network.update_weights.
Proof. unfold Network.update_weights. invariant_auto. Qed.
Hint Resolve update_weights_invariant : inv.

Lemma get_loss_invariant (x ytrue : ndarray) (average_examples : bool) :
  invariant I (Network.get_loss x ytrue average_examples).
Proof. unfold Network.get_loss. invariant_auto. Qed.
Hint Resolve get_loss_invariant : inv.

Lemma set_weight_invariant (layer_id i j : nat) (v : Q) :
  invariant I (Network.set_weight layer_id i j v).
Proof. unfold Network.set_weight. invariant_auto. Qed.

Lemma get_weight_invariant (layer_id i j : nat) :
  invariant I (Network.get_weight layer_id i j).
Proof. unfold Network.get_weight. invariant_auto. Qed.
Hint Resolve set_weight_invariant get_weight_invariant : inv.

Lemma gradient_check_invariant (x ytrue : ndarray) (eps : Q)
    (layer_id : nat) (weight_idx : nat * nat) :
  allowed eps ->
  invariant I (Network.gradient_check x ytrue eps layer_id weight_idx).
Proof. intros Heps. unfold Network.gradient_check. invariant_auto. Qed.
Hint Resolve gradient_check_invariant : inv.

(** A gradient check keeps what holds once it is recorded. *)
Lemma gradient_check_invariant_from (x ytrue : ndarray) (eps : Q)
    (layer_id : nat) (weight_idx : nat * nat) (s : Network.t) :
  I (Network.emit (GradientCheck layer_id weight_idx.1 weight_idx.2 eps) s).2 ->
  I (Network.gradient_check x ytrue eps layer_id weight_idx s).2.
Proof.
  destruct weight_idx as [i j]. unfold Network.gradient_check.
  unfold bind at 1.
  destruct (Network.emit _ s) as [[[]|e] s1]; simpl; [|auto].
  revert s1.
  match goal with |- forall s1, I s1 -> I (?k s1).2 =>
    change (invariant I k) end.
  invariant_auto.
Qed.

Lemma gradient_checks_invariant (x ytrue : ndarray) (checks : nat) (eps : Q) :
  allowed eps ->
  invariant I (Network.gradient_checks x ytrue checks eps).
Proof. intros Heps. unfold Network.gradient_checks. invariant_auto. Qed.
Hint Resolve gradient_checks_invariant : inv.

Lemma complete_gradient_check_invariant (x y : ndarray) (eps : Q) :
  allowed eps ->
  invariant I (Network.complete_gradient_check x y eps).
Proof.
  intros Heps.
  unfold Network.complete_gradient_check, Network.complete_check_layer.
  invariant_auto; apply invariant_modify; auto.
Qed.

Lemma fit_batch_invariant (checks : option Z) (m : nat)
    (minibatch : ndarray * ndarray) (grad_printout : bool) :
  allowed eps_default ->
  invariant I (Network.fit_batch checks m minibatch grad_printout).
Proof. intros Heps. unfold Network.fit_batch. invariant_auto. Qed.

(** An epoch keeps what holds once it has decayed the learning rate, if
    the step on each of its minibatches does. *)
Lemma fit_epoch_invariant_batches (x y : ndarray) (ytrain_labels : list nat)
    (validation : option (ndarray * ndarray * list nat))
    (checks : option Z) (epoch_ : Z) (grad_printout : bool) (s : Network.t) :
  (forall mb gp, In mb (enumerate (minibatches x y 1000)) ->
     invariant I (Network.fit_batch checks mb.1 mb.2 gp)) ->
  I (Network.decay_lr s).2 ->
  I (Network.fit_epoch x y ytrain_labels validation checks epoch_
       grad_printout s).2.
Proof.
  intros Hbatch. unfold Network.fit_epoch. unfold bind at 1.
  destruct (Network.decay_lr s) as [[[]|e] s1]; simpl; [|auto].
  revert s1.
  match goal with |- forall s1, I s1 -> I (?k s1).2 =>
    change (invariant I k) end.
  apply invariant_bind; [now apply invariant_for_loop_in|].
  intros gp. invariant_auto; apply invariant_modify; auto.
Qed.

Lemma fit_epoch_invariant_from (x y : ndarray) (ytrain_labels : list nat)
    (validation : option (ndarray * ndarray * list nat))
    (checks : option Z) (epoch_ : Z) (grad_printout : bool) (s : Network.t) :
  allowed eps_default ->
  I (Network.decay_lr s).2 ->
  I (Network.fit_epoch x y ytrain_labels validation checks epoch_
       grad_printout s).2.
Proof.
  intros Heps. apply fit_epoch_invariant_batches.
  intros mb gp _. now apply fit_batch_invariant.
Qed.

Lemma fit_epoch_invariant (x y : ndarray) (ytrain_labels : list nat)
    (validation : option (ndarray * ndarray * list nat))
    (checks : option Z) (epoch_ : Z) (grad_printout : bool) :
  allowed eps_default ->
  invariant I Network.decay_lr ->
  invariant I (Network.fit_epoch x y ytrain_labels validation checks epoch_
                 grad_printout).
Proof.
  intros Heps Hdecay s Hs. apply fit_epoch_invariant_from; auto.
Qed.

Lemma fit_invariant (x y : ndarray) (epochs batch_size : Z)
    (validation_data : option (ndarray * ndarray)) (checks : option Z) :
  allowed eps_default ->
  invariant I Network.decay_lr ->
  invariant I (Network.fit x y epochs batch_size validation_data checks).
Proof.
  intros Heps Hdecay. unfold Network.fit.
  pose proof fit_epoch_invariant.
  invariant_auto.
Qed.

Lemma decay_lr_invariant : invariant I Network.decay_lr.
Proof.
  unfold Network.decay_lr. invariant_auto; apply invariant_modify; auto.
Qed.

Lemma compile_invariant (loss_ : loss) (lr_ : Q) :
  invariant I (Network.compile loss_ lr_).
Proof.
  unfold Network.compile. invariant_auto; apply invariant_modify; auto.
Qed.

Lemma add_invariant (l : layer) : invariant I (Network.add l).
Proof. unfold Network.add. apply invariant_modify; auto. Qed.

Lemma run_call_invariant (c : Network.call) :
  (forall eps, allowed eps) -> invariant I (Network.run_call c).
Proof.
  intros Heps.
  pose proof decay_lr_invariant. pose proof compile_invariant.
  pose proof add_invariant. pose proof fit_invariant.
  pose proof complete_gradient_check_invariant.
  destruct c; unfold Network.run_call, Network.discard, Network.predict;
    invariant_auto.
Qed.

(** The calls that leave the learning rate alone need no assumption on
    what [compile] and the decay do to the invariant. *)
Lemma run_call_invariant_quiet (c : Network.call) :
  keeps_learning_rate c = true ->
  (forall eps, allowed eps) -> invariant I (Network.run_call c).
Proof.
  intros Hc Heps.
  pose proof add_invariant.
  pose proof complete_gradient_check_invariant.
  destruct c; try discriminate Hc;
    unfold Network.run_call, Network.discard, Network.predict;
    invariant_auto.
Qed.

Lemma session_invariant (verbose_ : bool) (calls : list Network.call) :
  (forall eps, allowed eps) ->
  I (Network.__init__ verbose_) -> I (Network.session verbose_ calls).
Proof.
  intros Heps. unfold Network.session.
  generalize (Network.__init__ verbose_).
  induction calls as [|c calls IH]; intros s Hs; simpl; [exact Hs|].
  apply IH. now apply run_call_invariant.
Qed.

End NetworkInvariant.

(** C9.  The dictionary [layers] is empty in every network, whatever
    methods were called on it since its construction ([add] only extends
    the list of layers), so the loop of [compile] over it runs no
    iteration, and [batch_norm] is [False] after every [compile]. *)
Theorem layers_never_populated {E : Externals}
    (verbose_ : bool) (calls : list Network.call) :
  Network.layers (Network.session verbose_ calls) = ∅
  /\ (forall l s, Network.layers (Network.add l s).2 = Network.layers s
                  /\ Network.items (Network.add l s).2 = Network.items s ++ [l])
  /\ (forall loss_ lr_,
        map fst (map_to_list (Network.layers (Network.session verbose_ calls)))
        = []
        /\ Network.batch_norm
             (Network.compile loss_ lr_ (Network.session verbose_ calls)).2
           = Some false).
Proof.
  assert (Hempty : Network.layers (Network.session verbose_ calls) = ∅).
  { apply (session_invariant (fun s => Network.layers s = ∅) (fun _ => True));
      auto. }
  split; [exact Hempty|]. split; [now intros l s|].
  intros loss_ lr_. rewrite Hempty, map_to_list_empty. split; [reflexivity|].
  set (s := Network.session verbose_ calls) in *.
  unfold Network.compile. rewrite bind_modify, bind_get. simpl Network.layers.
  rewrite Hempty, map_to_list_empty. simpl for_each.
  rewrite bind_ret, !bind_modify.
  apply (invariant_bind (fun s => Network.batch_norm s = Some false));
    [|intros g; destruct (is_softmax g)|]; try easy.
  apply at_layer_invariant. now intros v s0.
Qed.

(** ** The training loop *)

(** C7.  [fit] with [epochs = 1] runs its loop over [range(1, 1)], that is
    not at all: whatever its other arguments and whether or not it raises
    before the loop, it leaves the network exactly as it found it: no
    forward or backward pass, no weight update, no decay of the learning rate,
    and the epoch counter at its value. *)
Theorem fit_one_epoch_trains_nothing {E : Externals}
    (x y : ndarray) (batch_size : Z)
    (validation_data : option (ndarray * ndarray)) (checks : option Z)
    (self : Network.t) :
  Network.epoch_range 1 = []
  /\ (Network.fit x y 1 batch_size validation_data checks self).2 = self.
Proof.
  split; [reflexivity|].
  unfold Network.fit, bind, lift, ret, raise.
  destruct (np_argmax_axis0 y); [|reflexivity].
  destruct validation_data as [[xtest ytest]|]; [|reflexivity].
  destruct (ncols xtest =? ncols ytest)%nat; [|reflexivity].
  now destruct (np_argmax_axis0 ytest).
Qed.

(** C4, as the code has it.  [fit] never reads its argument [batch_size]:
    it slices the training set with the constant 1000.  On the sample
    network, asked for minibatches of 2 out of 4 examples, one epoch makes
    a single training step over all 4 examples, where the partition into
    minibatches of size 2 has two. *)
Theorem fit_ignores_batch_size :
  (forall (E : Externals) x y epochs batch_size batch_size' validation checks,
     Network.fit x y epochs batch_size validation checks
     = Network.fit x y epochs batch_size' validation checks)
  /\ map (fun mb => ncols mb.1) (chunked_minibatches sample_x sample_y 2)
     = [2; 2]%nat
  /\ Network.trace
       (Network.fit (E := sample_externals) sample_x sample_y 2 2 None None
          sample_network).2
     = [TrainOnBatch 4 (Some (993 # 10000)); UpdateWeights (Some (993 # 10000))].
Proof.
  split; [reflexivity|]. split; [reflexivity|]. vm_compute. reflexivity.
Qed.

(** *** The learning rate *)

Lemma decayed_succ (k : nat) (rate : Q) :
  decayed (S k) rate = (decayed k rate * decay_factor)%Q.
Proof. reflexivity. Qed.

Lemma decayed_nonneg (k : nat) (rate : Q) :
  (0 <= rate)%Q -> (0 <= decayed k rate)%Q.
Proof.
  intros Hrate. induction k as [|k IH]; [exact Hrate|].
  rewrite decayed_succ. unfold decay_factor.
  apply Qmult_le_0_compat; [exact IH | discriminate].
Qed.

Lemma decayed_step (k : nat) (rate : Q) :
  (0 <= rate)%Q -> (decayed (S k) rate <= decayed k rate)%Q.
Proof.
  intros Hrate. rewrite decayed_succ.
  pose proof (decayed_nonneg k rate Hrate) as Hk.
  unfold decay_factor. set (r := decayed k rate) in *. lra.
Qed.

Lemma decayed_abs_step (k : nat) (rate : Q) :
  (Qabs (decayed (S k) rate) <= Qabs (decayed k rate))%Q.
Proof.
  rewrite decayed_succ, Qabs_Qmult.
  pose proof (Qabs_nonneg (decayed k rate)) as Hk.
  change (Qabs decay_factor) with (993 # 1000)%Q.
  set (r := Qabs (decayed k rate)) in *. lra.
Qed.

Lemma decayed_abs_monotone (i j : nat) (rate : Q) :
  (i <= j)%nat -> (Qabs (decayed j rate) <= Qabs (decayed i rate))%Q.
Proof.
  intros Hij. induction Hij as [|j Hij IH]; [apply Qle_refl|].
  eapply Qle_trans; [apply decayed_abs_step | exact IH].
Qed.

Lemma decayed_monotone (i j : nat) (rate : Q) :
  (0 <= rate)%Q -> (i <= j)%nat -> (decayed j rate <= decayed i rate)%Q.
Proof.
  intros Hrate Hij. induction Hij as [|j Hij IH]; [apply Qle_refl|].
  eapply Qle_trans; [now apply decayed_step | exact IH].
Qed.

Lemma decay_lr_run (s : Network.t) (rate : Q) :
  Network.lr s = Some rate ->
  Network.decay_lr s = (Ok tt, Network.set_lr (rate * decay_factor) s).
Proof.
  intros Hlr. unfold Network.decay_lr, bind, get, attr, modify.
  now rewrite Hlr.
Qed.

(** One epoch: the rate is decayed once, and every call of the epoch runs
    under the decayed rate. *)
Lemma fit_epoch_runs_under {E : Externals} (old : event -> Prop)
    (x y : ndarray) (ytrain_labels : list nat)
    (validation : option (ndarray * ndarray * list nat))
    (checks : option Z) (epoch_ : Z) (grad_printout : bool)
    (s : Network.t) (rate : Q) :
  Network.lr s = Some rate ->
  Forall old (Network.trace s) ->
  runs_under old (rate * decay_factor)
    (Network.fit_epoch x y ytrain_labels validation checks epoch_
       grad_printout s).2.
Proof.
  intros Hlr Hold.
  apply (fit_epoch_invariant_from (runs_under old (rate * decay_factor))
           (fun _ => True)); try exact Logic.I;
    try (unfold runs_under; simpl; intros;
         repeat match goal with
                | H : _ /\ _ |- _ => destruct H
                end;
         split; [assumption|];
         try (apply Forall_app; split; [assumption|];
              apply List.Forall_cons;
              [right; assumption | apply List.Forall_nil]);
         try assumption).
  rewrite (decay_lr_run s rate Hlr). split; [reflexivity|]. simpl.
  eapply Forall_impl; [exact Hold|]. intros e He. now left.
Qed.

(** The loop over the epochs, entered after [done] decays of [rate]. *)
Lemma epochs_decay {E : Externals} (old : event -> Prop)
    (x y : ndarray) (ytrain_labels : list nat)
    (validation : option (ndarray * ndarray * list nat))
    (checks : option Z) (rate : Q) (epochs : list Z) :
  forall (grad_printout : bool) (s : Network.t) (done : nat),
    Network.lr s = Some (decayed done rate) ->
    Forall (fun e => old e \/ exists j, (1 <= j <= done)%nat
                       /\ event_lr e = Some (decayed j rate))
           (Network.trace s) ->
    exists k,
      (done <= k <= done + length epochs)%nat
      /\ (forall v, (for_loop epochs
                       (Network.fit_epoch x y ytrain_labels validation checks)
                       grad_printout s).1 = Ok v ->
                    k = (done + length epochs)%nat)
      /\ Network.lr
           (for_loop epochs
              (Network.fit_epoch x y ytrain_labels validation checks)
              grad_printout s).2 = Some (decayed k rate)
      /\ Forall (fun e => old e \/ exists j, (1 <= j <= k)%nat
                            /\ event_lr e = Some (decayed j rate))
           (Network.trace
              (for_loop epochs
                 (Network.fit_epoch x y ytrain_labels validation checks)
                 grad_printout s).2).
Proof.
  induction epochs as [|epoch_ epochs IH]; intros grad_printout s done Hlr Htrace.
  - exists done. simpl. repeat split; try lia; auto.
  - pose proof (fit_epoch_runs_under _ x y ytrain_labels validation checks
                  epoch_ grad_printout s _ Hlr Htrace) as [Hlr1 Htrace1].
    simpl for_loop. unfold bind.
    destruct (Network.fit_epoch x y ytrain_labels validation checks epoch_
                grad_printout s) as [[gp|e] s1]; simpl in *.
    + destruct (IH gp s1 (S done)) as (k & Hk & Hok & Hlrk & Htracek).
      * exact Hlr1.
      * eapply Forall_impl; [exact Htrace1|]. intros e [[He|(j & Hj & He)]|He].
        -- now left.
        -- right. exists j. split; [lia | exact He].
        -- right. exists (S done). split; [lia | exact He].
      * exists k. repeat split; try lia; auto.
        intros v Hv. rewrite (Hok v Hv). lia.
    + exists (S done). repeat split; try lia; try discriminate; auto.
      eapply Forall_impl; [exact Htrace1|]. intros e' [[He|(j & Hj & He)]|He].
      * now left.
      * right. exists j. split; [lia | exact He].
      * right. exists (S done). split; [lia | exact He].
Qed.

(** [fit] either raises before its loop, the network untouched, or runs
    the loop over the epochs. *)
Lemma fit_cases {E : Externals} (x y : ndarray) (epochs batch_size : Z)
    (validation_data : option (ndarray * ndarray)) (checks : option Z)
    (self : Network.t) :
  (exists e, Network.fit x y epochs batch_size validation_data checks self
             = (Raise e, self))
  \/ (exists ytrain_labels validation,
        Network.fit x y epochs batch_size validation_data checks self
        = bind (for_loop (Network.epoch_range epochs)
                  (Network.fit_epoch x y ytrain_labels validation checks)
                  (negb (truthy checks)))
               (fun _ => ret tt) self).
Proof.
  unfold Network.fit. unfold bind at 1, lift at 1.
  destruct (np_argmax_axis0 y) as [labels|e]; [|left; now exists e].
  destruct validation_data as [[xtest ytest]|].
  - destruct (ncols xtest =? ncols ytest)%nat.
    + unfold bind at 1. unfold bind at 1, lift at 1.
      destruct (np_argmax_axis0 ytest) as [test_labels|e];
        [|left; now exists e].
      right. now exists labels, (Some (xtest, ytest, test_labels)).
    + left. now exists AssertionError.
  - right. now exists labels, None.
Qed.

Lemma length_epoch_range (epochs : Z) :
  length (Network.epoch_range epochs) = Z.to_nat (epochs - 1).
Proof. unfold Network.epoch_range. now rewrite length_map, length_seq. Qed.

Lemma compile_keys_run (ks : list key) (s : Network.t) :
  for_each ks
    (fun l => match key_info l with
              | Some info => if String.eqb info "batch"
                             then modify (Network.set_batch_norm true)
                             else ret tt
              | None => ret tt
              end) s
  = (Ok tt, if existsb is_batch ks then Network.set_batch_norm true s else s).
Proof.
  revert s. induction ks as [|k ks IH]; intros s; [reflexivity|].
  simpl for_each. simpl existsb. unfold is_batch at 1.
  destruct (key_info k) as [info|].
  - destruct (String.eqb info "batch").
    + rewrite bind_modify, IH. simpl. now destruct (existsb is_batch ks).
    + rewrite bind_ret. apply IH.
  - rewrite bind_ret. apply IH.
Qed.

(** [scaled] with the factor of the training loop is [decayed]. *)
Lemma scaled_decayed (k : nat) (rate : Q) :
  scaled (993 # 1000) k rate = decayed k rate.
Proof. reflexivity. Qed.

(** [compile] binds the learning rate to its argument, however it ends. *)
Lemma compile_binds_lr (loss_ : loss) (lr_ : Q) (s : Network.t) :
  Network.lr (Network.compile loss_ lr_ s).2 = Some lr_.
Proof.
  unfold Network.compile. rewrite bind_modify, bind_get.
  erewrite bind_ok by apply compile_keys_run.
  rewrite !bind_modify.
  apply (invariant_bind (fun t => Network.lr t = Some lr_));
    [|intros g; destruct (is_softmax g)|]; try easy.
  apply at_layer_invariant. now intros v t.
Qed.

(** C8, as the code has it.  For a network whose learning rate is bound to
    [rate]:
    - an epoch of [fit] multiplies the rate by 0.993 once, and every
      training step, gradient check and weight update of that epoch runs
      under the product: the decay comes before any minibatch;
    - a call of [fit] that enters [k] epochs (all [epochs - 1] of them when
      it returns) leaves the rate at [rate * 0.993^k], and each call it
      records ran under [rate * 0.993^j] for an epoch [j] of these;
    - [compile] binds the rate to its argument whenever it is called, be
      it after training; a call of [fit] leaves it multiplied by 0.993
      once for each epoch it entered; no other method changes it;
    - so, from one epoch to a later one, the rate never grows in
      magnitude, and a rate that is not negative never increases. *)
Theorem fit_decays_learning_rate {E : Externals}
    (x y : ndarray) (epochs batch_size : Z)
    (validation_data : option (ndarray * ndarray)) (checks : option Z)
    (self : Network.t) (rate : Q) :
  Network.lr self = Some rate ->
  (forall ytrain_labels validation epoch_ grad_printout s r,
     Network.lr s = Some r ->
     runs_under (fun e => In e (Network.trace s)) (r * (993 # 1000))
       (Network.fit_epoch x y ytrain_labels validation checks epoch_
          grad_printout s).2)
  /\ (exists k : nat,
        (k <= Z.to_nat (epochs - 1))%nat
        /\ ((Network.fit x y epochs batch_size validation_data checks self).1
            = Ok tt -> k = Z.to_nat (epochs - 1))
        /\ Network.lr
             (Network.fit x y epochs batch_size validation_data checks self).2
           = Some (scaled (993 # 1000) k rate)
        /\ Forall (fun e => In e (Network.trace self)
                            \/ exists j, (1 <= j <= k)%nat
                                 /\ event_lr e
                                    = Some (scaled (993 # 1000) j rate))
             (Network.trace
                (Network.fit x y epochs batch_size validation_data checks
                   self).2))
  /\ (forall c s r,
        Network.lr s = Some r ->
        match c with
        | Network.call_compile _ lr_ =>
            Network.lr (Network.run_call c s).2 = Some lr_
        | Network.call_fit _ _ epochs' _ _ _ =>
            exists k : nat,
              (k <= Z.to_nat (epochs' - 1))%nat
              /\ Network.lr (Network.run_call c s).2
                 = Some (scaled (993 # 1000) k r)
        | _ => Network.lr (Network.run_call c s).2 = Some r
        end)
  /\ (forall i j, (i <= j)%nat ->
        (Qabs (scaled (993 # 1000) j rate)
         <= Qabs (scaled (993 # 1000) i rate))%Q)
  /\ ((0 <= rate)%Q ->
      forall i j, (i <= j)%nat ->
        (scaled (993 # 1000) j rate <= scaled (993 # 1000) i rate)%Q).
Proof.
  intros Hlr.
  assert (Hfit : forall x y epochs batch_size validation_data checks self rate,
             Network.lr self = Some rate ->
             exists k : nat,
               (k <= Z.to_nat (epochs - 1))%nat
               /\ ((Network.fit x y epochs batch_size validation_data checks
                      self).1 = Ok tt -> k = Z.to_nat (epochs - 1))
               /\ Network.lr
                    (Network.fit x y epochs batch_size validation_data checks
                       self).2
                  = Some (decayed k rate)
               /\ Forall (fun e => In e (Network.trace self)
                                   \/ exists j, (1 <= j <= k)%nat
                                        /\ event_lr e = Some (decayed j rate))
                    (Network.trace
                       (Network.fit x y epochs batch_size validation_data
                          checks self).2)).
  { clear. intros x y epochs batch_size validation_data checks self rate Hlr.
    assert (Hself : Forall (fun e => In e (Network.trace self))
                      (Network.trace self)) by (apply List.Forall_forall; auto).
    destruct (fit_cases x y epochs batch_size validation_data checks self)
      as [[e ->] | (labels & validation & ->)].
    + exists 0%nat. simpl. repeat split; try lia; try discriminate; auto.
      eapply Forall_impl; [exact Hself|]. intros e' He'. now left.
    + destruct (epochs_decay (fun e => In e (Network.trace self)) x y labels
                  validation checks rate (Network.epoch_range epochs)
                  (negb (truthy checks)) self 0)
        as (k & Hk & Hok & Hlrk & Htrace); [exact Hlr | |].
      { eapply Forall_impl; [exact Hself|]. intros e' He'. now left. }
      rewrite length_epoch_range in *. exists k. unfold bind.
      destruct (for_loop _ _ _ self) as [[gp|e] s'] eqn:Hloop; simpl in *.
      * repeat split; try lia; auto. intros _. now apply (Hok gp).
      * repeat split; try lia; try discriminate; auto. }
  split; [|split; [|split; [|split]]].
  - intros labels validation epoch_ gp s r Hs.
    apply (fit_epoch_runs_under _ x y labels validation checks epoch_ gp s r);
      [exact Hs | apply List.Forall_forall; auto].
  - exact (Hfit x y epochs batch_size validation_data checks self rate Hlr).
  - intros c s r Hs.
    assert (Hkeeps : keeps_learning_rate c = true ->
                     Network.lr (Network.run_call c s).2 = Some r).
    { intros Hc. rewrite <- Hs.
      apply (run_call_invariant_quiet
               (fun s' => Network.lr s' = Network.lr s) (fun _ => True));
        auto. }
    destruct c; try (apply Hkeeps; reflexivity).
    + apply compile_binds_lr.
    + destruct (Hfit x0 y0 epochs0 batch_size0 validation_data0
                  gradients_to_check_each_epoch s r Hs)
        as (k & Hk & _ & Hlrk & _).
      exists k. split; [exact Hk | exact Hlrk].
  - intros i j Hij. now apply decayed_abs_monotone.
  - intros Hrate i j Hij. now apply decayed_monotone.
Qed.

(** The sample network, compiled with a rate of 0.1: of three epochs
    asked two are run, and the rate is left at [0.1 * 0.993 * 0.993]. *)
Lemma fit_decays_learning_rate_witness :
  Network.lr sample_network = Some (1 # 10)%Q
  /\ Network.lr (Network.fit (E := sample_externals) sample_x sample_y
                   3 2 None None sample_network).2
     = Some ((1 # 10) * (993 # 1000) * (993 # 1000))%Q.
Proof.
  split; [reflexivity|].
  destruct (fit_decays_learning_rate (E := sample_externals) sample_x sample_y
              3 2 None None sample_network (1 # 10) eq_refl)
    as (_ & (k & _ & Hok & Hlr & _) & _).
  assert (Hreturns : (Network.fit (E := sample_externals) sample_x sample_y
                        3 2 None None sample_network).1 = Ok tt)
    by (vm_compute; reflexivity).
  rewrite Hlr, (Hok Hreturns). reflexivity.
Defined.

(** C8, as the claim has it, fails.  [compile] is the method that binds
    the learning rate, and it does so whenever it is called: after an
    epoch has taken the rate of the sample network from 0.1 to 0.0993,
    compiling again with 0.1 sets it back to 0.1, which is more.  And a
    rate below zero does not decrease: the same epoch takes -0.1 to
    -0.0993, which is more too. *)
Lemma compile_resets_learning_rate :
  Network.lr (Network.fit (E := sample_externals) sample_x sample_y
                2 2 None None sample_network).2
  = Some (993 # 10000)%Q
  /\ Network.lr
       (Network.compile squared_error (1 # 10)
          (Network.fit (E := sample_externals) sample_x sample_y
             2 2 None None sample_network).2).2
     = Some (1 # 10)%Q
  /\ (993 # 10000 < 1 # 10)%Q
  /\ Network.lr
       (Network.fit (E := sample_externals) sample_x sample_y 2 2 None None
          (Network.compile squared_error (-1 # 10) sample_network).2).2
     = Some (-993 # 10000)%Q
  /\ (-1 # 10 < -993 # 10000)%Q.
Proof.
  split; [vm_compute; reflexivity|].
  split; [vm_compute; reflexivity|].
  split; [reflexivity|].
  split; [vm_compute; reflexivity|].
  reflexivity.
Qed.

(** *** The gradient checks of the training loop *)

Lemma for_loop_ok_counts {S A L} (c : S -> nat) (body : A -> L -> M S L) :
  (forall x l s l' s', body x l s = (Ok l', s') -> c s' = Datatypes.S (c s)) ->
  forall xs l s l' s',
    for_loop xs body l s = (Ok l', s') -> (c s' = c s + length xs)%nat.
Proof.
  intros Hbody xs. induction xs as [|x xs IH]; simpl; intros l s l' s' Hrun.
  - injection Hrun as _ <-. lia.
  - unfold bind in Hrun.
    destruct (body x l s) as [[l1|e] s1] eqn:Hx; [|discriminate].
    rewrite (IH _ _ _ _ Hrun), (Hbody _ _ _ _ _ Hx). lia.
Qed.

Lemma bind_ext {S A B} (m : M S A) (k k' : A -> M S B) (s : S) :
  (forall a s', k a s' = k' a s') -> bind m k s = bind m k' s.
Proof.
  intros Hk. unfold bind. destruct (m s) as [[a|e] s']; [apply Hk | reflexivity].
Qed.

Lemma for_loop_ext {S A L} (body body' : A -> L -> M S L) :
  (forall x l s, body x l s = body' x l s) ->
  forall xs l s, for_loop xs body l s = for_loop xs body' l s.
Proof.
  intros Hbody xs. induction xs as [|x xs IH]; simpl; intros l s; [reflexivity|].
  unfold bind. rewrite Hbody. destruct (body' x l s) as [[l1|e] s1]; auto.
Qed.

Lemma count_after_event (e : event) (s : Network.t) :
  gradient_check_count
    (Network.set_trace (Network.trace s ++ [e]) s)
  = ((if is_gradient_check e then 1 else 0) + gradient_check_count s)%nat.
Proof.
  unfold gradient_check_count; simpl.
  rewrite List.filter_app, length_app; simpl.
  destruct (is_gradient_check e); simpl; lia.
Qed.

(** Recording a call that is not a gradient check keeps the count, and so
    does whatever leaves the record alone. *)
Lemma count_kept_after (e : option Q -> event) (n : nat) (s : Network.t) :
  is_gradient_check (e (Network.lr s)) = false ->
  gradient_check_count s = n ->
  gradient_check_count
    (Network.set_trace (Network.trace s ++ [e (Network.lr s)]) s) = n.
Proof. intros He Hs. now rewrite count_after_event, He. Qed.

(** Every call of [gradient_check] is recorded, however it ends. *)
Lemma gradient_check_counts {E : Externals} (x ytrue : ndarray) (eps : Q)
    (layer_id : nat) (weight_idx : nat * nat) (s : Network.t) :
  gradient_check_count
    (Network.gradient_check x ytrue eps layer_id weight_idx s).2
  = Datatypes.S (gradient_check_count s).
Proof.
  apply (gradient_check_invariant_from
           (fun s' => gradient_check_count s' = Datatypes.S (gradient_check_count s)));
    [now intros|].
  unfold Network.emit, modify; simpl. now rewrite count_after_event.
Qed.

Section CountKept.
Context {E : Externals}.
Variable s : Network.t.
Local Abbreviation kept := (fun s' => gradient_check_count s' = gradient_check_count s).

Lemma randint_keeps_count (low high : nat) :
  gradient_check_count (Network.randint low high s).2 = gradient_check_count s.
Proof. apply (randint_invariant kept); [now intros | reflexivity]. Qed.

Lemma choice_keeps_count (dim : nat) :
  gradient_check_count (Network.choice dim s).2 = gradient_check_count s.
Proof. apply (choice_invariant kept); [now intros | reflexivity]. Qed.

Lemma at_layer_keeps_count {A} (i : Z) (m : M layer A) :
  gradient_check_count (Network.at_layer i m s).2 = gradient_check_count s.
Proof. apply (at_layer_invariant kept); [now intros | reflexivity]. Qed.

Lemma train_on_batch_keeps_count (x y : ndarray) :
  gradient_check_count (Network.train_on_batch x y s).2
  = gradient_check_count s.
Proof.
  apply (train_on_batch_invariant kept); [now intros | | reflexivity].
  intros k s' Hs'. now apply (count_kept_after (TrainOnBatch k)).
Qed.

Lemma get_loss_keeps_count (x y : ndarray) (average_examples : bool) :
  gradient_check_count (Network.get_loss x y average_examples s).2
  = gradient_check_count s.
Proof. apply (get_loss_invariant kept); [now intros | reflexivity]. Qed.

Lemma update_weights_keeps_count :
  gradient_check_count (Network.update_weights s).2 = gradient_check_count s.
Proof.
  apply (update_weights_invariant kept); [now intros | | reflexivity].
  intros s' Hs'. now apply (count_kept_after UpdateWeights).
Qed.
End CountKept.

(** A run of [gradient_checks] that returns has made [checks] checks. *)
Lemma gradient_checks_counts {E : Externals} (x ytrue : ndarray)
    (checks : nat) (eps : Q) (s s' : Network.t) (v : option Q) :
  Network.gradient_checks x ytrue checks eps s = (Ok v, s') ->
  gradient_check_count s' = (gradient_check_count s + checks)%nat.
Proof.
  unfold Network.gradient_checks. unfold bind at 1.
  destruct (for_loop _ _ _ s) as [[gs|e] s1] eqn:Hloop; [|discriminate].
  intros [= _ <-].
  eapply (for_loop_ok_counts gradient_check_count) in Hloop;
    [now rewrite length_seq in Hloop|].
  clear. intros check gs s gs' s' Hbody.
  unfold bind at 1 in Hbody. unfold get at 1 in Hbody.
  unfold bind at 1 in Hbody.
  pose proof (randint_keeps_count s 1 (length (Network.items s))) as C1.
  destruct (Network.randint _ _ s) as [[layer_id|e] s1]; [|discriminate].
  unfold bind at 1 in Hbody.
  pose proof (at_layer_keeps_count s1 (Z.of_nat layer_id)
                (on_dense (gets Dense.w))) as C2.
  destruct (Network.at_layer _ _ s1) as [[w|e] s2]; [|discriminate].
  unfold bind at 1 in Hbody.
  pose proof (choice_keeps_count s2 (nrows w)) as C3.
  destruct (Network.choice _ s2) as [[i|e] s3]; [|discriminate].
  unfold bind at 1 in Hbody.
  pose proof (choice_keeps_count s3 (ncols w)) as C4.
  destruct (Network.choice _ s3) as [[j|e] s4]; [|discriminate].
  unfold bind at 1 in Hbody.
  pose proof (gradient_check_counts x ytrue eps layer_id (i, j) s4) as C5.
  destruct (Network.gradient_check _ _ _ _ _ s4) as [[g|e] s5]; [|discriminate].
  unfold bind at 1 in Hbody.
  match type of Hbody with
  | context [Network.at_layer ?k ?m s5] =>
      pose proof (at_layer_keeps_count s5 k m) as C6;
      destruct (Network.at_layer k m s5) as [[bp|e] s6]; [|discriminate]
  end.
  injection Hbody as _ <-. simpl in *. lia.
Qed.

(** The step on a minibatch that is not the one of index 1, or when no
    check was asked for, makes no gradient check. *)
Lemma fit_batch_without_check {E : Externals} (checks : option Z) (m : nat)
    (minibatch : ndarray * ndarray) (grad_printout : bool) (s : Network.t) :
  truthy checks && (m =? 1)%nat = false ->
  gradient_check_count
    (Network.fit_batch checks m minibatch grad_printout s).2
  = gradient_check_count s.
Proof.
  intros Hno. destruct minibatch as [xb yb]. unfold Network.fit_batch.
  rewrite Hno.
  unfold bind at 1.
  pose proof (train_on_batch_keeps_count s xb yb) as C1.
  destruct (Network.train_on_batch xb yb s) as [[[]|e] s1]; [|exact C1].
  unfold bind at 1.
  pose proof (get_loss_keeps_count s1 xb yb true) as C2.
  destruct (Network.get_loss xb yb true s1) as [[l|e] s2]; simpl in *; [|lia].
  rewrite bind_ret. unfold bind at 1.
  pose proof (update_weights_keeps_count s2) as C3.
  destruct (Network.update_weights s2) as [[[]|e] s3]; simpl in *; lia.
Qed.

(** The step on the minibatch of index 1, when checks were asked for and
    the step returns, makes three. *)
Lemma fit_batch_with_check {E : Externals} (checks : option Z)
    (minibatch : ndarray * ndarray) (grad_printout v : bool)
    (s s' : Network.t) :
  truthy checks = true ->
  Network.fit_batch checks 1 minibatch grad_printout s = (Ok v, s') ->
  gradient_check_count s' = (gradient_check_count s + 3)%nat.
Proof.
  intros Hyes. destruct minibatch as [xb yb]. unfold Network.fit_batch.
  rewrite Hyes. simpl andb. cbv iota.
  unfold bind at 1.
  pose proof (train_on_batch_keeps_count s xb yb) as C1.
  destruct (Network.train_on_batch xb yb s) as [[[]|e] s1]; [|discriminate].
  unfold bind at 1.
  pose proof (get_loss_keeps_count s1 xb yb true) as C2.
  destruct (Network.get_loss xb yb true s1) as [[l|e] s2]; [|discriminate].
  unfold bind at 1. unfold bind at 1.
  destruct (Network.gradient_checks xb yb 3 eps_default s2) as [[g|e] s3] eqn:C3;
    [|discriminate].
  apply gradient_checks_counts in C3.
  unfold ret at 1. unfold bind at 1.
  pose proof (update_weights_keeps_count s3) as C4.
  destruct (Network.update_weights s3) as [[[]|e] s4]; [|discriminate].
  intros [= _ <-]. simpl in *. lia.
Qed.

Lemma decay_lr_trace (s : Network.t) :
  Network.trace (Network.decay_lr s).2 = Network.trace s.
Proof.
  unfold Network.decay_lr, bind, get, attr.
  now destruct (Network.lr s).
Qed.

Lemma enumerate_short {A} (xs : list A) (mb : nat * A) :
  (length xs <= 1)%nat -> In mb (enumerate xs) -> mb.1 = 0%nat.
Proof.
  unfold enumerate.
  destruct xs as [|x [|x' xs]]; simpl; intros Hlen Hin;
    try lia; try contradiction.
  destruct Hin as [<-|[]]. reflexivity.
Qed.

(** [fit] reads [gradients_to_check_each_epoch] for its truth value only. *)
Lemma fit_batch_truthiness {E : Externals} (checks checks' : option Z)
    (m : nat) (minibatch : ndarray * ndarray) (grad_printout : bool) :
  truthy checks' = truthy checks ->
  Network.fit_batch checks' m minibatch grad_printout
  = Network.fit_batch checks m minibatch grad_printout.
Proof.
  intros Hsame. destruct minibatch as [xb yb]. unfold Network.fit_batch.
  now rewrite Hsame.
Qed.

Lemma fit_truthiness {E : Externals} (x y : ndarray) (epochs batch_size : Z)
    (validation_data : option (ndarray * ndarray)) (checks checks' : option Z)
    (self : Network.t) :
  truthy checks' = truthy checks ->
  Network.fit x y epochs batch_size validation_data checks' self
  = Network.fit x y epochs batch_size validation_data checks self.
Proof.
  intros Hsame. unfold Network.fit. rewrite Hsame.
  apply bind_ext. intros labels s0. apply bind_ext. intros validation s1.
  unfold bind. erewrite for_loop_ext; [reflexivity|].
  intros epoch_ gp s. unfold Network.fit_epoch.
  apply bind_ext. intros _ s2.
  unfold bind at 1 3. erewrite for_loop_ext; [reflexivity|].
  intros mb gp' s3. now rewrite (fit_batch_truthiness checks checks').
Qed.

(** An epoch makes no gradient check when none was asked for, and none
    when it has at most one minibatch. *)
Lemma fit_epoch_without_check {E : Externals} (x y : ndarray)
    (ytrain_labels : list nat)
    (validation : option (ndarray * ndarray * list nat))
    (checks : option Z) (epoch_ : Z) (grad_printout : bool) (s : Network.t) :
  truthy checks = false \/ (length (minibatches x y 1000) <= 1)%nat ->
  gradient_check_count
    (Network.fit_epoch x y ytrain_labels validation checks epoch_
       grad_printout s).2
  = gradient_check_count s.
Proof.
  intros Hnone.
  apply (fit_epoch_invariant_batches
           (fun s' => gradient_check_count s' = gradient_check_count s));
    try (now intros).
  - intros mb gp' Hin s' Hs'.
    rewrite fit_batch_without_check; [exact Hs'|].
    destruct Hnone as [-> | Hshort]; [reflexivity|].
    rewrite (enumerate_short _ _ Hshort Hin). apply andb_false_r.
  - unfold gradient_check_count. now rewrite decay_lr_trace.
Qed.

(** ** The gradient checker *)

Lemma set_item_same (A : ndarray) (i j : nat) (orig : Q) :
  get_item A i j = Ok orig -> set_item A i j orig = Ok A.
Proof.
  intros Hget. pose proof Hget as Hin. unfold get_item in Hin.
  destruct ((i <? nrows A)%nat && (j <? ncols A)%nat) eqn:Hrange; [|discriminate].
  injection Hin as <-.
  unfold set_item. rewrite Hrange. f_equal.
  destruct A as [r c rows]; simpl. f_equal.
  apply list_eq. intros k. destruct (decide (k = i)) as [->|Hne].
  - rewrite list_lookup_alter_eq. unfold item; simpl.
    destruct (rows !! i) as [row|] eqn:Hrow; simpl; [|reflexivity].
    f_equal. rewrite (nth_lookup_Some _ _ [] _ Hrow).
    destruct (row !! j) as [q|] eqn:Hq.
    + rewrite (nth_lookup_Some _ _ 0%Q _ Hq). now apply list_insert_id.
    + apply list_insert_ge. now apply lookup_ge_None.
  - now rewrite list_lookup_alter_ne.
Qed.

Lemma set_item_twice (A A1 : ndarray) (i j : nat) (v v' : Q) :
  set_item A i j v = Ok A1 -> set_item A1 i j v' = set_item A i j v'.
Proof.
  unfold set_item.
  destruct ((i <? nrows A)%nat && (j <? ncols A)%nat) eqn:Hrange; [|discriminate].
  intros [= <-]; simpl. rewrite Hrange. do 2 f_equal.
  apply list_eq. intros k. destruct (decide (k = i)) as [->|Hne].
  - rewrite !list_lookup_alter_eq.
    destruct (data A !! i) as [row|]; simpl; [|reflexivity].
    now rewrite list_insert_insert_eq.
  - now rewrite !list_lookup_alter_ne.
Qed.

Lemma py_index_nat (len k : nat) :
  py_index len (Z.of_nat k)
  = if (k <? len)%nat then Ok k else Raise IndexError.
Proof.
  unfold py_index.
  destruct (Z.of_nat k <? 0)%Z eqn:Hneg; [apply Z.ltb_lt in Hneg; lia|].
  destruct (k <? len)%nat eqn:Hk.
  - apply Nat.ltb_lt in Hk.
    replace (0 <=? Z.of_nat k)%Z with true by (symmetry; apply Z.leb_le; lia).
    replace (Z.of_nat k <? Z.of_nat len)%Z with true
      by (symmetry; apply Z.ltb_lt; lia).
    simpl. now rewrite Nat2Z.id.
  - apply Nat.ltb_ge in Hk.
    replace (Z.of_nat k <? Z.of_nat len)%Z with false
      by (symmetry; apply Z.ltb_ge; lia).
    now rewrite andb_false_r.
Qed.

(** A method of a layer that keeps its weights, run through the network. *)
Lemma at_layer_weights {A} (i : Z) (m : M layer A) (s : Network.t) :
  (forall l, layer_w (m l).2 = layer_w l) ->
  weights (Network.at_layer i m s).2 = weights s.
Proof.
  intros Hm. unfold Network.at_layer.
  destruct (py_index _ _) as [k|e]; [|reflexivity].
  destruct (Network.items s !! k) as [l|] eqn:Hl; [|reflexivity].
  specialize (Hm l). destruct (m l) as [r l']; simpl in *.
  unfold weights; simpl. rewrite list_fmap_insert, Hm.
  apply list_insert_id. now rewrite list_lookup_fmap, Hl.
Qed.

Lemma forward_keeps_w {E : Externals} (a : ndarray) (d : Dense.t) :
  Dense.w (Dense.forward a d).2 = Dense.w d.
Proof.
  unfold Dense.forward, bind, get, lift, modify, ret.
  destruct (np_dot (Dense.w d) a) as [wa|e]; [|reflexivity].
  now destruct (np_add wa (Dense.b d)).
Qed.

Lemma layer_call_keeps_w {E : Externals} (a : ndarray) (l : layer) :
  layer_w (layer_call a l).2 = layer_w l.
Proof.
  destruct l as [a0|d]; [reflexivity|]. unfold layer_call, on_dense.
  pose proof (forward_keeps_w a d) as Hw.
  destruct (Dense.forward a d) as [r d']; simpl in *. now rewrite Hw.
Qed.

Lemma layer_set_a_keeps_w (a : ndarray) (l : layer) :
  layer_w (layer_set_a a l).2 = layer_w l.
Proof. now destruct l. Qed.

Lemma forward_step_weights {E : Externals} (a : ndarray)
    (ws : list (option ndarray)) :
  invariant (fun s => weights s = ws) (Network.forward_step a).
Proof.
  unfold Network.forward_step.
  apply invariant_bind.
  - intros s Hs. rewrite at_layer_weights; auto using layer_set_a_keeps_w.
  - intros _. apply invariant_bind; [apply invariant_get|]. intros self.
    apply invariant_for_loop. intros k a' s Hs.
    rewrite at_layer_weights; auto using layer_call_keeps_w.
Qed.

Lemma get_loss_weights {E : Externals} (x ytrue : ndarray)
    (average_examples : bool) (s : Network.t) :
  weights (Network.get_loss x ytrue average_examples s).2 = weights s.
Proof.
  assert (Hinv : invariant (fun s' => weights s' = weights s)
                   (Network.get_loss x ytrue average_examples)).
  { unfold Network.get_loss.
    pose proof (forward_step_weights x (weights s)).
    invariant_auto. }
  now apply Hinv.
Qed.

Lemma get_weight_reads {E : Externals} (layer_id i j : nat) (s : Network.t) :
  (Network.get_weight layer_id i j s).1 = weight_at (weights s) layer_id i j
  /\ weights (Network.get_weight layer_id i j s).2 = weights s.
Proof.
  split.
  - unfold Network.get_weight, Network.at_layer, weight_at, weights.
    rewrite py_index_nat, list_lookup_fmap.
    destruct (layer_id <? length (Network.items s))%nat eqn:Hlen.
    + destruct (Network.items s !! layer_id) as [[a|d]|]; simpl; try reflexivity.
    + apply Nat.ltb_ge in Hlen.
      now rewrite (proj2 (lookup_ge_None _ _) Hlen).
  - apply at_layer_weights. intros [a|d]; [reflexivity|].
    unfold on_dense, bind, get, lift; simpl.
    now destruct (get_item (Dense.w d) i j).
Qed.

Lemma set_weight_run {E : Externals} (layer_id i j : nat) (v : Q)
    (s s' : Network.t) :
  Network.set_weight layer_id i j v s = (Ok tt, s') ->
  exists W W',
    weights s !! layer_id = Some (Some W)
    /\ set_item W i j v = Ok W'
    /\ weights s' = <[layer_id := Some W']> (weights s).
Proof.
  unfold Network.set_weight, Network.at_layer.
  rewrite py_index_nat.
  destruct (layer_id <? length (Network.items s))%nat; [|discriminate].
  destruct (Network.items s !! layer_id) as [[a|d]|] eqn:Hl; try discriminate.
  unfold on_dense, bind, get, lift, modify.
  destruct (set_item (Dense.w d) i j v) as [W'|e] eqn:Hset; [|discriminate].
  intros [= <-]. exists (Dense.w d), W'. split; [|split; [exact Hset|]].
  - unfold weights. now rewrite list_lookup_fmap, Hl.
  - unfold weights; simpl. now rewrite list_fmap_insert.
Qed.

Lemma set_weight_ok (layer_id i j : nat) (v : Q) (s : Network.t)
    (W W' : ndarray) :
  weights s !! layer_id = Some (Some W) ->
  set_item W i j v = Ok W' ->
  exists s', Network.set_weight layer_id i j v s = (Ok tt, s').
Proof.
  unfold weights. rewrite list_lookup_fmap. intros HW Hset.
  destruct (Network.items s !! layer_id) as [[a|d]|] eqn:Hl;
    try discriminate.
  injection HW as <-.
  unfold Network.set_weight, Network.at_layer. rewrite py_index_nat.
  replace (layer_id <? length (Network.items s))%nat with true
    by (symmetry; apply Nat.ltb_lt; eapply lookup_lt_Some; eauto).
  rewrite Hl. unfold on_dense, bind, get, lift, modify. rewrite Hset.
  now eexists.
Qed.

(** A call of [gradient_check] that returns has restored the weight it
    perturbed: the weight arrays of all layers are those of before the
    call, entry for entry, and so is the element read back at
    [weight_idx]. *)
Lemma gradient_check_restores_on_return {E : Externals}
    (x ytrue : ndarray) (eps : Q) (layer_id : nat) (weight_idx : nat * nat)
    (s s' : Network.t) (gradient : option Q) :
  Network.gradient_check x ytrue eps layer_id weight_idx s
  = (Ok gradient, s') ->
  weights s' = weights s
  /\ (Network.get_weight layer_id weight_idx.1 weight_idx.2 s').1
     = (Network.get_weight layer_id weight_idx.1 weight_idx.2 s).1
  /\ exists original,
       (Network.get_weight layer_id weight_idx.1 weight_idx.2 s').1
       = Ok original.
Proof.
  destruct weight_idx as [i j]. intros Hrun.
  assert (Hgoal : weights s' = weights s
                  /\ exists original,
                       weight_at (weights s) layer_id i j = Ok original).
  { unfold Network.gradient_check in Hrun.
    apply bind_ok_inv in Hrun as ([] & s0 & Hemit & Hrun).
    apply bind_ok_inv in Hrun as (original & s1 & Hget & Hrun).
    apply bind_ok_inv in Hrun as (cost & s5 & Hloop & Hrun).
    apply bind_ok_inv in Hrun as ([] & s6 & Hset3 & Hret).
    injection Hret as _ <-.
    simpl for_loop in Hloop.
    apply bind_ok_inv in Hloop as (cost1 & s3 & Hplus & Hloop).
    apply bind_ok_inv in Hloop as (cost2 & s5' & Hminus & Hret).
    injection Hret as _ <-.
    apply bind_ok_inv in Hplus as ([] & s2 & Hset1 & Hloss1).
    apply bind_ok_inv in Hloss1 as (l1 & s3' & Hloss1 & Hret).
    injection Hret as _ <-.
    apply bind_ok_inv in Hminus as ([] & s4 & Hset2 & Hloss2).
    apply bind_ok_inv in Hloss2 as (l2 & s5'' & Hloss2 & Hret).
    injection Hret as _ <-.
    (* the weights along the run *)
    assert (Hw0 : weights s0 = weights s) by (now injection Hemit as <-).
    destruct (get_weight_reads layer_id i j s0) as [Hread Hw1].
    rewrite Hget in Hread, Hw1. simpl in Hread, Hw1.
    rewrite Hw0 in Hread, Hw1. symmetry in Hread.
    pose proof Hread as HW. unfold weight_at in HW.
    destruct (weights s !! layer_id) as [[W|]|] eqn:Hlookup; try discriminate.
    apply set_weight_run in Hset1 as (W0 & W1 & HW0 & Hset1 & Hw2).
    rewrite Hw1, Hlookup in HW0. injection HW0 as <-.
    pose proof (get_loss_weights x ytrue true s2) as Hw3.
    rewrite Hloss1 in Hw3. simpl in Hw3.
    apply set_weight_run in Hset2 as (W1' & W2 & HW1 & Hset2 & Hw4).
    rewrite Hw3, Hw2, Hw1 in HW1.
    rewrite list_lookup_insert_eq in HW1
      by (apply lookup_lt_is_Some; eauto).
    injection HW1 as <-.
    pose proof (get_loss_weights x ytrue true s4) as Hw5.
    rewrite Hloss2 in Hw5. simpl in Hw5.
    apply set_weight_run in Hset3 as (W2' & W3 & HW2 & Hset3 & Hw6).
    rewrite Hw5, Hw4, Hw3, Hw2, Hw1 in HW2.
    rewrite list_insert_insert_eq in HW2.
    rewrite list_lookup_insert_eq in HW2
      by (apply lookup_lt_is_Some; eauto).
    injection HW2 as <-.
    (* writing the value read at first gives the first array back *)
    rewrite (set_item_twice _ _ _ _ _ _ Hset2) in Hset3.
    rewrite (set_item_twice _ _ _ _ _ _ Hset1) in Hset3.
    rewrite (set_item_same _ _ _ _ HW) in Hset3. injection Hset3 as <-.
    rewrite Hw6, Hw5, Hw4, Hw3, Hw2, Hw1.
    rewrite !list_insert_insert_eq. split; [|now exists original].
    now apply list_insert_id. }
  destruct Hgoal as [Hw (original & Horig)].
  split; [exact Hw|].
  rewrite !(proj1 (get_weight_reads _ _ _ _)), Hw; simpl.
  split; [reflexivity | now exists original].
Qed.

(** ** The output layer in the backward pass *)

Lemma set_items_same (s : Network.t) : Network.set_items (Network.items s) s = s.
Proof. now destruct s. Qed.

Lemma py_index_last (len : nat) :
  len <> 0%nat -> py_index len (-1) = Ok (len - 1)%nat.
Proof.
  intros Hlen. unfold py_index.
  rewrite (eq_refl : (-1 <? 0)%Z = true).
  replace (0 <=? -1 + Z.of_nat len)%Z with true by (symmetry; apply Z.leb_le; lia).
  replace (-1 + Z.of_nat len <? Z.of_nat len)%Z with true
    by (symmetry; apply Z.ltb_lt; lia).
  cbn [andb]. f_equal. lia.
Qed.

Lemma py_index_penultimate (len : nat) :
  (2 <= len)%nat -> py_index len (-2) = Ok (len - 2)%nat.
Proof.
  intros Hlen. unfold py_index.
  rewrite (eq_refl : (-2 <? 0)%Z = true).
  replace (0 <=? -2 + Z.of_nat len)%Z with true by (symmetry; apply Z.leb_le; lia).
  replace (-2 + Z.of_nat len <? Z.of_nat len)%Z with true
    by (symmetry; apply Z.ltb_lt; lia).
  cbn [andb]. f_equal. lia.
Qed.

Lemma at_layer_last {A} (m : M layer A) (s : Network.t)
    (front : list layer) (last : layer) :
  Network.items s = front ++ [last] ->
  Network.at_layer (-1) m s
  = ((m last).1, Network.set_items (front ++ [(m last).2]) s).
Proof.
  intros Hitems. unfold Network.at_layer.
  rewrite Hitems, py_index_last by (rewrite length_app; simpl; lia).
  replace (length (front ++ [last]) - 1)%nat with (length front + 0)%nat
    by (rewrite length_app; simpl; lia).
  rewrite lookup_app_r by lia.
  replace (length front + 0 - length front)%nat with 0%nat by lia. simpl.
  destruct (m last) as [r l']; simpl.
  now rewrite insert_app_r.
Qed.

Lemma at_layer_penultimate {A} (m : M layer A) (s : Network.t)
    (front : list layer) (prev last : layer) :
  Network.items s = front ++ [prev; last] ->
  Network.at_layer (-2) m s
  = ((m prev).1, Network.set_items (front ++ [(m prev).2; last]) s).
Proof.
  intros Hitems. unfold Network.at_layer.
  rewrite Hitems, py_index_penultimate by (rewrite length_app; simpl; lia).
  replace (length (front ++ [prev; last]) - 2)%nat with (length front + 0)%nat
    by (rewrite length_app; simpl; lia).
  rewrite lookup_app_r by lia.
  replace (length front + 0 - length front)%nat with 0%nat by lia. simpl.
  destruct (m prev) as [r l']; simpl.
  now rewrite insert_app_r.
Qed.

(** Reading an attribute of the last layers leaves the network as it is. *)
Lemma read_last {A} (m : M layer A) (s : Network.t)
    (front : list layer) (last : layer) (v : A) :
  Network.items s = front ++ [last] ->
  m last = (Ok v, last) ->
  Network.at_layer (-1) m s = (Ok v, s).
Proof.
  intros Hitems Hm. rewrite (at_layer_last m s front last Hitems), Hm; simpl.
  now rewrite <- Hitems, set_items_same.
Qed.

Lemma read_penultimate {A} (m : M layer A) (s : Network.t)
    (front : list layer) (prev last : layer) (v : A) :
  Network.items s = front ++ [prev; last] ->
  m prev = (Ok v, prev) ->
  Network.at_layer (-2) m s = (Ok v, s).
Proof.
  intros Hitems Hm.
  rewrite (at_layer_penultimate m s front prev last Hitems), Hm; simpl.
  now rewrite <- Hitems, set_items_same.
Qed.

Lemma layer_a_cached (l : layer) (a : ndarray) :
  cached_a l = Some a -> layer_a l = (Ok a, l).
Proof. destruct l as [a0|d]; simpl; now intros ->. Qed.

Section OutputLayer.
Context {E : Externals}.
Variables (s : Network.t) (front : list layer) (prev : layer) (dl : Dense.t).
Variables (x y ypred zc dLoss a_prev : ndarray) (L : loss).

Hypothesis Hloss : Network.loss_fct s = Some L.
Hypothesis Hitems : Network.items s = front ++ [prev; DenseLayer dl].
Hypothesis Hypred : Dense.a dl = Some ypred.
Hypothesis Hz : Dense.z dl = Some zc.
Hypothesis HdLoss : loss_derivative L ypred y false = Ok dLoss.

Lemma items_last : Network.items s = (front ++ [prev]) ++ [DenseLayer dl].
Proof. now rewrite <- app_assoc. Qed.

Lemma output_error_run :
  Network.output_error y s
  = (Network.output_delta (Dense.g dl) dLoss (call_derivative (Dense.g dl) zc), s).
Proof.
  unfold Network.output_error.
  rewrite bind_get, Hloss. unfold attr at 1. rewrite bind_ret.
  erewrite bind_ok
    by (eapply read_last; [exact items_last | simpl; rewrite Hypred; reflexivity]).
  rewrite HdLoss, bind_lift_ok.
  erewrite bind_ok by (eapply read_last; [exact items_last | reflexivity]).
  erewrite bind_ok
    by (eapply read_last;
        [exact items_last
        | unfold on_dense, bind, get, attr; rewrite Hz; reflexivity]).
  reflexivity.
Qed.

Lemma backprop_last_layer_run (deltaL : ndarray) :
  Network.output_delta (Dense.g dl) dLoss (call_derivative (Dense.g dl) zc) = Ok deltaL ->
  cached_a prev = Some a_prev ->
  ncols deltaL = ncols a_prev ->
  ncols x <> 0%nat ->
  Network._backprop_last_layer x y s
  = (Ok deltaL,
     Network.set_items
       (front ++ [prev;
                  DenseLayer
                    (Dense.set_db (averaged_db (reciprocal (ncols x)) deltaL)
                       (Dense.set_dw
                          (averaged_dw (reciprocal (ncols x)) deltaL a_prev)
                          dl))])
       s).
Proof.
  intros Hdelta Ha Hn HB. unfold Network._backprop_last_layer.
  erewrite bind_ok by (rewrite output_error_run, Hdelta; reflexivity).
  rewrite (py_inv_positive _ HB), bind_lift_ok.
  erewrite bind_ok
    by (eapply read_penultimate; [exact Hitems | apply layer_a_cached; exact Ha]).
  rewrite (dot_transpose _ _ Hn), bind_lift_ok.
  rewrite scale_dot_transpose, scale_sum_axis1 by exact Hn.
  unfold bind at 1. rewrite (at_layer_last _ _ _ _ items_last). simpl.
  unfold bind at 1.
  erewrite at_layer_last by reflexivity. simpl.
  now rewrite <- app_assoc.
Qed.

End OutputLayer.

(** C2.  In the backward pass of a network whose last layer is dense, with
    its forward caches and those of the layer before it in place and a
    batch that is not empty, [_backprop_last_layer] returns the error
    [deltaL] of the output layer:
    - when the activation of the last layer is [softmax], whose derivative
      is a Jacobian of shape (out, out, batch), [deltaL[j, n]] is the sum
      over [i] of [dLoss[i, n] * dAct[j, i, n]];
    - for any other activation, [deltaL] is the product, entry by entry, of
      the derivative of the activation and the derivative of the loss. *)
Theorem output_layer_error {E : Externals}
    (s : Network.t) (front : list layer) (prev : layer) (dl : Dense.t)
    (x y ypred zc dLoss a_prev : ndarray) (L : loss) :
  Network.loss_fct s = Some L ->
  Network.items s = front ++ [prev; DenseLayer dl] ->
  Dense.a dl = Some ypred ->
  Dense.z dl = Some zc ->
  loss_derivative L ypred y false = Ok dLoss ->
  cached_a prev = Some a_prev ->
  ncols dLoss = ncols a_prev ->
  ncols x <> 0%nat ->
  (Dense.g dl = softmax ->
   dim1 (softmax_jacobian zc) = nrows dLoss ->
   dim2 (softmax_jacobian zc) = ncols dLoss ->
   exists deltaL s',
     Network._backprop_last_layer x y s = (Ok deltaL, s')
     /\ nrows deltaL = dim0 (softmax_jacobian zc)
     /\ ncols deltaL = ncols dLoss
     /\ forall j n, (j < dim0 (softmax_jacobian zc))%nat ->
                    (n < ncols dLoss)%nat ->
          item deltaL j n
          = sigma (nrows dLoss)
              (fun i => item dLoss i n * item3 (softmax_jacobian zc) j i n)%Q)
  /\ (forall value derivative,
        Dense.g dl = Activation value derivative ->
        nrows (derivative zc) = nrows dLoss ->
        ncols (derivative zc) = ncols dLoss ->
        exists deltaL s',
          Network._backprop_last_layer x y s = (Ok deltaL, s')
          /\ nrows deltaL = nrows dLoss
          /\ ncols deltaL = ncols dLoss
          /\ forall i n, (i < nrows dLoss)%nat -> (n < ncols dLoss)%nat ->
               item deltaL i n = (item (derivative zc) i n * item dLoss i n)%Q).
Proof.
  intros Hloss Hitems Hypred Hz HdLoss Ha Hn HB. split.
  - intros Hg Hd1 Hd2.
    set (J := softmax_jacobian zc) in *.
    set (deltaL := tabulate (dim0 J) (ncols dLoss)
                     (fun j n => sigma (nrows dLoss)
                        (fun i => item dLoss i n * item3 J j i n))%Q).
    assert (Hdelta : Network.output_delta (Dense.g dl) dLoss
                       (call_derivative (Dense.g dl) zc) = Ok deltaL).
    { rewrite Hg. unfold Network.output_delta, call_derivative, is_softmax.
      fold J. unfold einsum_in_jin_jn.
      rewrite Hd1, Hd2, !broadcast_dim_same. unfold rbind. f_equal.
      apply tabulate_ext. intros j n Hj Hn'. apply sigma_ext. intros i Hi.
      now rewrite !bidx_same by lia. }
    eexists deltaL, _. split.
    + eapply backprop_last_layer_run; eauto.
    + split; [reflexivity|]. split; [reflexivity|].
      intros j n Hj Hn'. unfold deltaL. now rewrite item_tabulate.
  - intros value derivative Hg Hr Hc.
    set (deltaL := tabulate (nrows dLoss) (ncols dLoss)
                     (fun i n => item (derivative zc) i n * item dLoss i n)%Q).
    assert (Hdelta : Network.output_delta (Dense.g dl) dLoss
                       (call_derivative (Dense.g dl) zc) = Ok deltaL).
    { rewrite Hg. unfold Network.output_delta, call_derivative, is_softmax.
      rewrite np_mul_same_shape by congruence.
      rewrite Hr, Hc. f_equal.
      apply tabulate_ext. intros i n Hi Hn'.
      now rewrite !bitem_in_range by lia. }
    eexists deltaL, _. split.
    + eapply backprop_last_layer_run; eauto.
    + split; [reflexivity|]. split; [reflexivity|].
      intros i n Hi Hn'. unfold deltaL. now rewrite item_tabulate.
Qed.

(** The output layer of the sample network, under the squared error. *)
Lemma output_layer_error_witness :
  exists deltaL s',
    Network._backprop_last_layer (E := sample_externals) sample_x sample_y
      sample_network = (Ok deltaL, s')
    /\ item deltaL 0 3 = (1 * 19)%Q.
Proof.
  destruct (output_layer_error (E := sample_externals) sample_network
              [InputLayer None] (DenseLayer (sample_hidden None None))
              (sample_output None None) sample_x sample_y
              (matrix [[7; 9; 13; 23]]%Q) (matrix [[7; 9; 13; 23]]%Q)
              (mk_array 1 4 [[6; 7; 10; 19]]%Q)
              (matrix [[2; 3; 4; 7]; [4; 5; 8; 15]]%Q) squared_error)
    as [_ Helementwise]; try reflexivity; try discriminate.
  destruct (Helementwise (fun z => z)
              (fun z => tabulate (nrows z) (ncols z) (fun _ _ => 1%Q)))
    as (deltaL & s' & Hrun & _ & _ & Hitem); try reflexivity.
  exists deltaL, s'. split; [exact Hrun|].
  now rewrite (Hitem 0%nat 3%nat) by (simpl; lia).
Defined.

(** C5, as the code has it.  [_backprop_last_layer] stops at the batch
    averages: on a network whose output layer carries regularizers on its
    weights and its bias, the gradients it leaves in that layer are
    [(1/B) . deltaL . a^T] and [(1/B) . rowwise_sum(deltaL)] alone, where
    lines 60-69 of [Dense.backward_step], run on the same layer with the
    same error and activation, add the two contributions. *)
Theorem last_layer_gradients_skip_regularizers :
  exists deltaL s' dl' expected,
    Network._backprop_last_layer (E := sample_externals) sample_x sample_y
      regularized_network = (Ok deltaL, s')
    /\ Network.items s' !! 2%nat = Some (DenseLayer dl')
    /\ Dense.kernel_regularizer dl' = Some l2_regularizer
    /\ Dense.bias_regularizer dl' = Some l2_regularizer
    /\ Dense.dw dl'
       = averaged_dw (reciprocal 4) deltaL
           (matrix [[2; 3; 4; 7]; [4; 5; 8; 15]]%Q)
    /\ Dense.db dl' = averaged_db (reciprocal 4) deltaL
    /\ (let* inv := Dense.store_gradients
                      (matrix [[2; 3; 4; 7]; [4; 5; 8; 15]]%Q) deltaL in
        do Dense.add_kernel_regularizer inv in
        Dense.add_bias_regularizer inv)
         (sample_output (Some l2_regularizer) (Some l2_regularizer))
       = (Ok tt, expected)
    /\ ~ (item (Dense.dw dl') 0 0 == item (Dense.dw expected) 0 0)%Q
    /\ ~ (item (Dense.db dl') 0 0 == item (Dense.db expected) 0 0)%Q.
Proof.
  eexists _, _, _, _.
  split; [vm_compute; reflexivity|].
  split; [vm_compute; reflexivity|].
  split; [reflexivity|]. split; [reflexivity|].
  split; [vm_compute; reflexivity|]. split; [vm_compute; reflexivity|].
  split; [vm_compute; reflexivity|].
  split; intros Heq; vm_compute in Heq; discriminate Heq.
Qed.

(** ** The regularizers in the backward step *)

Lemma bind_raise_inv {S A B} (m : M S A) (k : A -> M S B) (s s' : S) (e : exn) :
  bind m k s = (Raise e, s') ->
  m s = (Raise e, s') \/ exists a s1, m s = (Ok a, s1) /\ k a s1 = (Raise e, s').
Proof.
  unfold bind. destruct (m s) as [[a|e0] s1]; intros Hk.
  - right. now exists a, s1.
  - left. now injection Hk as -> ->.
Qed.

(** What the numpy kernels raise is a [ValueError]. *)
Lemma broadcast_dim_raises (m n : nat) (e : exn) :
  broadcast_dim m n = Raise e -> e = ValueError.
Proof.
  unfold broadcast_dim.
  destruct (m =? n)%nat, (m =? 1)%nat, (n =? 1)%nat; congruence.
Qed.

Lemma np_dot_raises (A B : ndarray) (e : exn) :
  np_dot A B = Raise e -> e = ValueError.
Proof. unfold np_dot. destruct (ncols A =? nrows B)%nat; congruence. Qed.

Lemma elementwise_raises (op : Q -> Q -> Q) (A B : ndarray) (e : exn) :
  elementwise op A B = Raise e -> e = ValueError.
Proof.
  unfold elementwise, rbind.
  destruct (broadcast_dim (nrows A) (nrows B)) eqn:Hr;
    [|intros [= <-]; eauto using broadcast_dim_raises].
  destruct (broadcast_dim (ncols A) (ncols B)) eqn:Hc;
    [discriminate | intros [= <-]; eauto using broadcast_dim_raises].
Qed.

Lemma inplace_raises (op : Q -> Q -> Q) (A B : ndarray) (e : exn) :
  inplace op A B = Raise e -> e = ValueError.
Proof.
  unfold inplace, rbind.
  destruct (elementwise op A B) as [C|e0] eqn:HC.
  - destruct ((nrows C =? nrows A)%nat && (ncols C =? ncols A)%nat); congruence.
  - intros [= <-]. eauto using elementwise_raises.
Qed.

Lemma np_all_eq_raises (A B : ndarray) (e : exn) :
  np_all_eq A B = Raise e -> e = ValueError.
Proof.
  unfold np_all_eq, rbind.
  destruct (broadcast_dim (nrows A) (nrows B)) eqn:Hr;
    [|intros [= <-]; eauto using broadcast_dim_raises].
  destruct (broadcast_dim (ncols A) (ncols B)) eqn:Hc;
    [discriminate | intros [= <-]; eauto using broadcast_dim_raises].
Qed.

Lemma py_inv_raises (n : nat) (e : exn) :
  py_inv n = Raise e -> e = ZeroDivisionError.
Proof. destruct n; simpl; congruence. Qed.

Section Assertion.
Context {E : Externals}.

Lemma backward_error_outcome (w_prev error_prev : ndarray) (self self' : Dense.t)
    (r : result ndarray) :
  Dense.backward_error w_prev error_prev self = (r, self') ->
  self' = self /\ r <> Raise AssertionError.
Proof.
  unfold Dense.backward_error, bind, get, attr, lift, ret, raise.
  destruct (Dense.z self) as [zc|]; [|intros [= <- <-]; now split].
  destruct (np_dot (transpose w_prev) error_prev) as [back|e] eqn:Hdot.
  - destruct (call_derivative (Dense.g self) zc) as [d|t];
      [|intros [= <- <-]; now split].
    destruct (np_mul back d) as [v|e] eqn:Hmul; intros [= <- <-];
      (split; [reflexivity|]); [discriminate|].
    apply elementwise_raises in Hmul as ->. discriminate.
  - apply np_dot_raises in Hdot as ->. intros [= <- <-]. now split.
Qed.

Lemma store_gradients_outcome (a_next error : ndarray) (self self' : Dense.t)
    (r : result Q) :
  Dense.store_gradients a_next error self = (r, self') ->
  r <> Raise AssertionError
  /\ Dense.w self' = Dense.w self
  /\ Dense.kernel_regularizer self' = Dense.kernel_regularizer self.
Proof.
  unfold Dense.store_gradients, bind, lift, modify, ret.
  destruct (py_inv (ncols a_next)) as [inv|e] eqn:Hinv.
  - destruct (np_dot error (transpose a_next)) as [grad|e] eqn:Hdot;
      intros [= <- <-]; (split; [|now split]); [discriminate|].
    apply np_dot_raises in Hdot as ->. discriminate.
  - apply py_inv_raises in Hinv as ->. intros [= <- <-]. now repeat split.
Qed.

Lemma add_bias_regularizer_outcome (inv : Q) (self self' : Dense.t)
    (r : result unit) :
  Dense.add_bias_regularizer inv self = (r, self') ->
  r <> Raise AssertionError.
Proof.
  unfold Dense.add_bias_regularizer, bind, get, lift, modify, ret.
  destruct (Dense.bias_regularizer self) as [rg|]; [|intros [= <- <-]; discriminate].
  destruct (np_iadd _ _) as [db'|e] eqn:Hadd; intros [= <- <-]; [discriminate|].
  apply inplace_raises in Hadd as ->. discriminate.
Qed.

Lemma add_kernel_regularizer_outcome (inv : Q) (self self' : Dense.t)
    (r : result unit) :
  Dense.add_kernel_regularizer inv self = (r, self') ->
  (r = Ok tt -> forall rg, Dense.kernel_regularizer self = Some rg ->
     np_all_eq (reg_param rg (Dense.w self)) (Dense.w self) = Ok true)
  /\ (r = Raise AssertionError ->
      exists rg, Dense.kernel_regularizer self = Some rg
        /\ np_all_eq (reg_param rg (Dense.w self)) (Dense.w self) = Ok false).
Proof.
  unfold Dense.add_kernel_regularizer, bind, get, lift, modify, ret, raise.
  destruct (Dense.kernel_regularizer self) as [rg|];
    [|intros [= <- <-]; split; [intros _ rg' [=] | discriminate]].
  destruct (np_iadd _ _) as [dw'|e] eqn:Hadd.
  - destruct (np_all_eq _ _) as [[|]|e] eqn:Hsame; intros [= <- <-]; split;
      try discriminate.
    + intros _ rg' [= <-]. exact Hsame.
    + intros _. now exists rg.
    + apply np_all_eq_raises in Hsame as ->. discriminate.
  - apply inplace_raises in Hadd as ->. intros [= <- <-].
    split; discriminate.
Qed.

End Assertion.

(** The regularizers in [Dense.backward_step]:
    - a bound kernel regularizer adds [(1/batch_size) * derivative()] to
      [dw], and the layer then asserts that the array the regularizer
      refers to equals its current [w]: a call that returns has passed
      that assertion;
    - this is the only assertion of the step: it raises [AssertionError]
      only for a bound kernel regularizer whose array differs from [w];
    - a bound bias regularizer adds [(1/batch_size) * derivative()] to
      [db], whatever array it refers to: nothing is asserted about [b]. *)
Theorem regularizers_in_backward_step {E : Externals}
    (self : Dense.t) (a_next w_prev error_prev : ndarray) :
  (forall error self' r,
     Dense.backward_step a_next w_prev error_prev self = (Ok error, self') ->
     Dense.kernel_regularizer self = Some r ->
     np_all_eq (reg_param r (Dense.w self)) (Dense.w self) = Ok true)
  /\ (forall self',
        Dense.backward_step a_next w_prev error_prev self
        = (Raise AssertionError, self') ->
        exists r, Dense.kernel_regularizer self = Some r
          /\ np_all_eq (reg_param r (Dense.w self)) (Dense.w self) = Ok false)
  /\ (forall inv r,
        Dense.kernel_regularizer self = Some r ->
        broadcasts_into (reg_derivative r (Dense.w self))
          (nrows (Dense.dw self)) (ncols (Dense.dw self)) ->
        np_all_eq (reg_param r (Dense.w self)) (Dense.w self) = Ok true ->
        Dense.add_kernel_regularizer inv self
        = (Ok tt, Dense.set_dw
                    (tabulate (nrows (Dense.dw self)) (ncols (Dense.dw self))
                       (fun i j => item (Dense.dw self) i j
                          + inv * bitem (reg_derivative r (Dense.w self)) i j)%Q)
                    self))
  /\ (forall inv r,
        Dense.bias_regularizer self = Some r ->
        broadcasts_into (reg_derivative r (Dense.b self))
          (nrows (Dense.db self)) (ncols (Dense.db self)) ->
        Dense.add_bias_regularizer inv self
        = (Ok tt, Dense.set_db
                    (tabulate (nrows (Dense.db self)) (ncols (Dense.db self))
                       (fun i j => item (Dense.db self) i j
                          + inv * bitem (reg_derivative r (Dense.b self)) i j)%Q)
                    self)).
Proof.
  split; [|split; [|split]].
  - intros error self' r Hrun Hr. unfold Dense.backward_step in Hrun.
    apply bind_ok_inv in Hrun as (err & s1 & Herr & Hrun).
    apply bind_ok_inv in Hrun as (inv & s2 & Hstore & Hrun).
    apply bind_ok_inv in Hrun as ([] & s3 & Hkernel & _).
    apply backward_error_outcome in Herr as [-> _].
    apply store_gradients_outcome in Hstore as (_ & Hw & Hk).
    apply add_kernel_regularizer_outcome in Hkernel as [Hok _].
    rewrite <- Hw. apply Hok; [reflexivity | congruence].
  - intros self' Hrun. unfold Dense.backward_step in Hrun.
    apply bind_raise_inv in Hrun as [Herr | (err & s1 & Herr & Hrun)];
      [now apply backward_error_outcome in Herr as [_ []]|].
    apply backward_error_outcome in Herr as [-> _].
    apply bind_raise_inv in Hrun as [Hstore | (inv & s2 & Hstore & Hrun)];
      [now apply store_gradients_outcome in Hstore as ([] & _)|].
    apply store_gradients_outcome in Hstore as (_ & Hw & Hk).
    apply bind_raise_inv in Hrun as [Hkernel | ([] & s3 & _ & Hrun)].
    + apply add_kernel_regularizer_outcome in Hkernel as [_ Hfail].
      destruct (Hfail eq_refl) as (r & Hr & Hsame).
      exists r. rewrite <- Hw, <- Hk. now split.
    + apply bind_raise_inv in Hrun as [Hbias | (? & ? & _ & [=])].
      now apply add_bias_regularizer_outcome in Hbias.
  - intros inv r. now apply add_kernel_regularizer_run.
  - intros inv r. now apply add_bias_regularizer_run.
Qed.

(** The sample hidden layer, whose L2 penalty reads the live weights. *)
Lemma regularizers_in_backward_step_witness :
  np_all_eq (reg_param l2_regularizer (matrix [[1; 2]; [3; 4]]%Q))
            (matrix [[1; 2]; [3; 4]]%Q)
  = Ok true.
Proof.
  destruct (Dense.backward_step (E := sample_externals) sample_x
              (matrix [[1; 1]]%Q) (matrix [[5; 6; 9; 18]]%Q)
              (sample_hidden (Some l2_regularizer) (Some l2_regularizer)))
    as [[error|e] self'] eqn:Hrun.
  - exact (proj1 (regularizers_in_backward_step (E := sample_externals) _ _ _ _)
             error self' l2_regularizer Hrun eq_refl).
  - vm_compute in Hrun. discriminate Hrun.
Defined.

(** C6.  The bias regularizer is not handled as the kernel regularizer
    is.  A layer whose kernel regularizer refers to an array that is not
    its [w] fails the assertion of line 65; the same layer with that stale
    regularizer on its bias instead goes through lines 68-69 and returns,
    although the array it refers to is not the layer's [b]: the guard of
    the kernel branch is missing from the bias branch. *)
Lemma bias_regularizer_is_not_asserted :
  (Dense.backward_step (E := sample_externals) sample_x
     (matrix [[1; 1]]%Q) (matrix [[5; 6; 9; 18]]%Q)
     (sample_hidden (Some (stale_regularizer (matrix [[0; 0]; [0; 0]]%Q)))
        None)).1
  = Raise AssertionError
  /\ np_all_eq
       (reg_param (stale_regularizer (matrix [[0]; [0]]%Q))
          (Dense.b (sample_hidden None None)))
       (Dense.b (sample_hidden None None))
     = Ok false
  /\ (Dense.backward_step (E := sample_externals) sample_x
        (matrix [[1; 1]]%Q) (matrix [[5; 6; 9; 18]]%Q)
        (sample_hidden None (Some (stale_regularizer (matrix [[0]; [0]]%Q))))).1
     = Ok (mk_array 2 4 [[5; 6; 9; 18]; [5; 6; 9; 18]]%Q).
Proof.
  split; [vm_compute; reflexivity|].
  split; vm_compute; reflexivity.
Qed.

(** * Further properties of the code *)

(** ** The forward pass of a dense layer *)

Lemma forward_run {E : Externals} (a_in : ndarray) (self : Dense.t) :
  ncols (Dense.w self) = nrows a_in ->
  broadcasts_into (Dense.b self) (nrows (Dense.w self)) (ncols a_in) ->
  Dense.forward a_in self
  = (Ok (call_activation (Dense.g self)
           (pre_activation (Dense.w self) (Dense.b self) a_in)),
     Dense.set_a
       (call_activation (Dense.g self)
          (pre_activation (Dense.w self) (Dense.b self) a_in))
       (Dense.set_z (pre_activation (Dense.w self) (Dense.b self) a_in) self)).
Proof.
  intros Hk [Hr Hc]. unfold Dense.forward.
  rewrite bind_get. unfold np_dot. rewrite Hk, Nat.eqb_refl, bind_lift_ok.
  unfold np_add, elementwise; simpl nrows; simpl ncols.
  rewrite (broadcast_dim_one _ _ Hr), (broadcast_dim_one _ _ Hc).
  unfold rbind. rewrite bind_lift_ok, !bind_modify.
  match goal with
  | |- context [Dense.set_z ?T self] =>
      assert (HT : T = pre_activation (Dense.w self) (Dense.b self) a_in)
  end.
  { apply tabulate_ext. intros i n Hi Hn.
    rewrite bitem_in_range by (simpl; lia).
    rewrite item_tabulate by lia. now rewrite Hk. }
  now rewrite HT.
Qed.

(** X1.  [Dense.forward(a)] on an input whose rows match the columns of
    [w], with a bias that broadcasts over the batch: the cached
    pre-activation is [z[i, n] = sum_k w[i, k] * a[k, n] + b[i, n]] (the
    bias read with broadcasting), of shape (rows of [w], batch); the
    value returned, and cached as [a], is [g(z)]; nothing else of the
    layer changes. *)
Theorem forward_caches_affine_map {E : Externals}
    (a_in : ndarray) (self : Dense.t) :
  ncols (Dense.w self) = nrows a_in ->
  broadcasts_into (Dense.b self) (nrows (Dense.w self)) (ncols a_in) ->
  exists zc self',
    Dense.forward a_in self = (Ok (call_activation (Dense.g self) zc), self')
    /\ nrows zc = nrows (Dense.w self) /\ ncols zc = ncols a_in
    /\ (forall i n, (i < nrows (Dense.w self))%nat -> (n < ncols a_in)%nat ->
          item zc i n
          = (sigma (ncols (Dense.w self))
               (fun k => item (Dense.w self) i k * item a_in k n)
             + bitem (Dense.b self) i n)%Q)
    /\ Dense.z self' = Some zc
    /\ Dense.a self' = Some (call_activation (Dense.g self) zc)
    /\ frozen_by_forward self' = frozen_by_forward self.
Proof.
  intros Hk Hb.
  exists (pre_activation (Dense.w self) (Dense.b self) a_in). eexists.
  split; [now apply forward_run|].
  repeat split.
  intros i n Hi Hn. unfold pre_activation. now rewrite item_tabulate.
Qed.

(** The sample hidden layer on the sample inputs: its cached [z]. *)
Lemma forward_caches_affine_map_witness :
  exists zc self',
    Dense.forward (E := sample_externals) sample_x (sample_hidden None None)
    = (Ok zc, self')
    /\ item zc 1 3 = (3 * 2 + (4 * 2 + 0) + 1)%Q.
Proof.
  destruct (forward_caches_affine_map (E := sample_externals) sample_x
              (sample_hidden None None))
    as (zc & self' & Hrun & _ & _ & Hitem & _).
  - reflexivity.
  - split; [left | right]; reflexivity.
  - exists zc, self'. split; [exact Hrun|].
    now rewrite (Hitem 1%nat 3%nat) by (simpl; lia).
Defined.

(** X2.  [Dense.forward] fails only with the [ValueError] of numpy on
    shapes that do not fit, it does so whenever the rows of the input are
    not as many as the columns of [w], and a call that fails has changed
    nothing: the caches [z] and [a] are those of the last call that
    succeeded. *)
Theorem forward_fails_without_effect {E : Externals}
    (a_in : ndarray) (self : Dense.t) :
  (ncols (Dense.w self) <> nrows a_in ->
   Dense.forward a_in self = (Raise ValueError, self))
  /\ (forall e self',
        Dense.forward a_in self = (Raise e, self') ->
        e = ValueError /\ self' = self).
Proof.
  split.
  - intros Hk. unfold Dense.forward. rewrite bind_get. unfold np_dot.
    apply Nat.eqb_neq in Hk. now rewrite Hk.
  - intros e self'. unfold Dense.forward.
    rewrite bind_get. unfold bind at 1, lift at 1.
    destruct (np_dot (Dense.w self) a_in) as [wa|e0] eqn:Hdot.
    + unfold bind at 1, lift at 1.
      destruct (np_add wa (Dense.b self)) as [zc|e1] eqn:Hadd.
      * rewrite !bind_modify. discriminate.
      * intros [= <- <-]. split; [|reflexivity].
        eapply elementwise_raises. exact Hadd.
    + intros [= <- <-]. split; [|reflexivity].
      eapply np_dot_raises. exact Hdot.
Qed.

(** The sample hidden layer on an input of three rows. *)
Lemma forward_fails_without_effect_witness :
  Dense.forward (E := sample_externals) (matrix [[1]; [2]; [3]]%Q)
    (sample_hidden None None)
  = (Raise ValueError, sample_hidden None None).
Proof.
  apply (proj1 (forward_fails_without_effect (E := sample_externals)
                  (matrix [[1]; [2]; [3]]%Q) (sample_hidden None None))).
  discriminate.
Defined.

(** ** What the backward step of a dense layer leaves alone *)

(** X3.  Whatever its arguments and however it ends, [Dense.backward_step]
    writes the two gradient buffers only: the activation, the weights,
    the bias, the forward caches and the regularizers of the layer are
    those of before the call. *)
Theorem backward_step_writes_gradients_only {E : Externals}
    (a_next w_prev error_prev : ndarray) (self : Dense.t) :
  frozen_by_backward (Dense.backward_step a_next w_prev error_prev self).2
  = frozen_by_backward self.
Proof.
  assert (Hinv : invariant
                   (fun d => frozen_by_backward d = frozen_by_backward self)
                   (Dense.backward_step a_next w_prev error_prev)).
  { unfold Dense.backward_step, Dense.backward_error, Dense.store_gradients,
      Dense.add_kernel_regularizer, Dense.add_bias_regularizer.
    invariant_auto; apply invariant_modify; now intros d Hd. }
  now apply Hinv.
Qed.

(** X4.  On an empty batch ([a_next] without columns) [backward_step]
    does not return: it raises, [ZeroDivisionError] from [1 / batch_size]
    when the error signal itself could be computed, and the layer,
    gradient buffers included, is as before the call. *)
Theorem backward_step_on_empty_batch {E : Externals}
    (a_next w_prev error_prev : ndarray) (self : Dense.t) :
  ncols a_next = 0%nat ->
  (exists e,
     Dense.backward_step a_next w_prev error_prev self = (Raise e, self))
  /\ (forall error self1,
        Dense.backward_error w_prev error_prev self = (Ok error, self1) ->
        Dense.backward_step a_next w_prev error_prev self
        = (Raise ZeroDivisionError, self)).
Proof.
  intros HB.
  assert (Hstore : forall error,
             Dense.store_gradients a_next error self
             = (Raise ZeroDivisionError, self)).
  { intros error. unfold Dense.store_gradients. now rewrite HB. }
  assert (Hsecond : forall error self1,
             Dense.backward_error w_prev error_prev self = (Ok error, self1) ->
             Dense.backward_step a_next w_prev error_prev self
             = (Raise ZeroDivisionError, self)).
  { intros error self1 Herr. unfold Dense.backward_step.
    pose proof (backward_error_outcome _ _ _ _ _ Herr) as [-> _].
    erewrite bind_ok by exact Herr.
    unfold bind. now rewrite Hstore. }
  split; [|exact Hsecond].
  destruct (Dense.backward_error w_prev error_prev self) as [[error|e] self1]
    eqn:Herr.
  - exists ZeroDivisionError. now apply (Hsecond error self1).
  - exists e. unfold Dense.backward_step.
    pose proof (backward_error_outcome _ _ _ _ _ Herr) as [-> _].
    unfold bind. now rewrite Herr.
Qed.

(** The sample hidden layer, asked to go back over a batch of no example. *)
Lemma backward_step_on_empty_batch_witness :
  Dense.backward_step (E := sample_externals) (mk_array 2 0 [[]; []])
    (matrix [[1; 1]]%Q) (matrix [[5; 6; 9; 18]]%Q) (sample_hidden None None)
  = (Raise ZeroDivisionError, sample_hidden None None).
Proof.
  eapply (proj2 (backward_step_on_empty_batch (E := sample_externals)
                   (mk_array 2 0 [[]; []]) (matrix [[1; 1]]%Q)
                   (matrix [[5; 6; 9; 18]]%Q) (sample_hidden None None)
                   eq_refl)).
  vm_compute. reflexivity.
Defined.

(** ** What the methods of a network leave alone in its layers *)

Lemma inplace_shape (op : Q -> Q -> Q) (A B C : ndarray) :
  inplace op A B = Ok C -> nrows C = nrows A /\ ncols C = ncols A.
Proof.
  unfold inplace, rbind.
  destruct (elementwise op A B) as [C'|]; [|discriminate].
  destruct ((nrows C' =? nrows A)%nat && (ncols C' =? ncols A)%nat) eqn:Hshape;
    [|discriminate].
  intros [= <-]. apply andb_prop in Hshape as [Hr Hc].
  apply Nat.eqb_eq in Hr, Hc. now split.
Qed.

Lemma set_item_shape (A A' : ndarray) (i j : nat) (v : Q) :
  set_item A i j v = Ok A' -> nrows A' = nrows A /\ ncols A' = ncols A.
Proof.
  unfold set_item.
  destruct ((i <? nrows A)%nat && (j <? ncols A)%nat); [|discriminate].
  intros [= <-]. now split.
Qed.

Section LayerProjection.
Context {E : Externals} {X : Type} (f : layer -> X).

(** What [f] may ignore of a layer: the forward caches, the gradient
    buffers, the entries of the parameters. *)
Hypothesis f_input : forall a a', f (InputLayer a) = f (InputLayer a').
Hypothesis f_z : forall v d, f (DenseLayer (Dense.set_z v d)) = f (DenseLayer d).
Hypothesis f_a : forall v d, f (DenseLayer (Dense.set_a v d)) = f (DenseLayer d).
Hypothesis f_dw : forall v d, f (DenseLayer (Dense.set_dw v d)) = f (DenseLayer d).
Hypothesis f_db : forall v d, f (DenseLayer (Dense.set_db v d)) = f (DenseLayer d).
Hypothesis f_w : forall v d,
  nrows v = nrows (Dense.w d) -> ncols v = ncols (Dense.w d) ->
  f (DenseLayer (Dense.set_w v d)) = f (DenseLayer d).
Hypothesis f_b : forall v d,
  nrows v = nrows (Dense.b d) -> ncols v = ncols (Dense.b d) ->
  f (DenseLayer (Dense.set_b v d)) = f (DenseLayer d).

Lemma at_layer_read {A} (i : Z) (m : M layer A) (v : list X) :
  layer_keeps f m -> invariant (layers_read f v) (Network.at_layer i m).
Proof.
  intros Hm s Hs. unfold Network.at_layer.
  destruct (py_index _ _) as [k|e]; [|exact Hs].
  destruct (Network.items s !! k) as [l|] eqn:Hl; [|exact Hs].
  specialize (Hm l). destruct (m l) as [r l']; simpl in *.
  unfold layers_read in *; simpl. rewrite list_fmap_insert, Hm, <- Hs.
  apply list_insert_id. now rewrite list_lookup_fmap, Hl.
Qed.

Lemma on_dense_keeps {A} (m : M Dense.t A) :
  (forall x, invariant (fun d => f (DenseLayer d) = x) m) ->
  layer_keeps f (on_dense m).
Proof.
  intros Hm [a|d]; [reflexivity|]. unfold on_dense.
  specialize (Hm (f (DenseLayer d)) d eq_refl).
  now destruct (m d) as [r d'].
Qed.

Lemma layer_a_keeps : layer_keeps f layer_a.
Proof. intros [[a|]|d]; simpl; try reflexivity. now destruct (Dense.a d). Qed.

Lemma layer_set_a_keeps (v : ndarray) : layer_keeps f (layer_set_a v).
Proof. intros [a|d]; simpl; [apply f_input | apply f_a]. Qed.

Lemma forward_keeps (a_in : ndarray) (x : X) :
  invariant (fun d => f (DenseLayer d) = x) (Dense.forward a_in).
Proof.
  unfold Dense.forward. invariant_auto; apply invariant_modify; intros d Hd.
  - now rewrite f_z.
  - now rewrite f_a.
Qed.

Lemma layer_call_keeps (a_in : ndarray) : layer_keeps f (layer_call a_in).
Proof.
  intros [a|d]; [reflexivity|].
  apply (on_dense_keeps (Dense.forward a_in)). intros x. apply forward_keeps.
Qed.

Lemma backward_step_keeps (a_next w_prev error_prev : ndarray) (x : X) :
  invariant (fun d => f (DenseLayer d) = x)
    (Dense.backward_step a_next w_prev error_prev).
Proof.
  unfold Dense.backward_step, Dense.backward_error, Dense.store_gradients,
    Dense.add_kernel_regularizer, Dense.add_bias_regularizer.
  invariant_auto; apply invariant_modify; intros d Hd;
    first [now rewrite f_dw | now rewrite f_db].
Qed.

Lemma update_layer_keeps (rate : option Q) (x : X) :
  invariant (fun d => f (DenseLayer d) = x) (Network.update_layer rate).
Proof.
  intros d Hd. unfold Network.update_layer, bind, attr, get, lift, modify.
  destruct rate as [rate|]; simpl; [|exact Hd].
  destruct (np_isub (Dense.w d) _) as [w'|] eqn:Hw; simpl; [|exact Hd].
  apply inplace_shape in Hw as [Hwr Hwc].
  destruct (np_isub (Dense.b d) _) as [b'|] eqn:Hb; simpl.
  - apply inplace_shape in Hb as [Hbr Hbc].
    rewrite f_b by assumption. now rewrite f_w.
  - now rewrite f_w.
Qed.

(** A method of [Dense] that only reads. *)
Ltac dense_reader :=
  apply on_dense_keeps; intros; invariant_auto.

Variable v : list X.
Abbreviation kept := (layers_read f v).

Lemma emit_read (e : option Q -> event) : invariant kept (Network.emit e).
Proof. now intros s Hs. Qed.

Lemma draw_read : invariant kept Network.draw.
Proof. now intros s Hs. Qed.

Lemma randint_read (low high : nat) : invariant kept (Network.randint low high).
Proof. pose proof draw_read. unfold Network.randint. invariant_auto. Qed.

Lemma choice_read (dim : nat) : invariant kept (Network.choice dim).
Proof. pose proof draw_read. unfold Network.choice. invariant_auto. Qed.

Lemma forward_step_read (a : ndarray) : invariant kept (Network.forward_step a).
Proof.
  unfold Network.forward_step. invariant_auto; apply at_layer_read.
  - apply layer_set_a_keeps.
  - apply layer_call_keeps.
Qed.

Lemma get_loss_read (x ytrue : ndarray) (average_examples : bool) :
  invariant kept (Network.get_loss x ytrue average_examples).
Proof.
  pose proof forward_step_read. unfold Network.get_loss. invariant_auto.
Qed.

Lemma output_error_read (y : ndarray) : invariant kept (Network.output_error y).
Proof.
  unfold Network.output_error. invariant_auto; apply at_layer_read;
    first [apply layer_a_keeps | dense_reader].
Qed.

Lemma backprop_last_layer_read (x y : ndarray) :
  invariant kept (Network._backprop_last_layer x y).
Proof.
  pose proof output_error_read. unfold Network._backprop_last_layer.
  invariant_auto; apply at_layer_read; try apply layer_a_keeps;
    apply on_dense_keeps; intros x0; apply invariant_modify; intros d Hd;
    first [now rewrite f_dw | now rewrite f_db].
Qed.

Lemma backpropagation_read (x y : ndarray) :
  invariant kept (Network.backpropagation x y).
Proof.
  pose proof backprop_last_layer_read. unfold Network.backpropagation.
  invariant_auto; apply at_layer_read;
    first [apply layer_a_keeps
          | apply on_dense_keeps; intros; apply backward_step_keeps
          | dense_reader].
Qed.

Lemma train_on_batch_read (x y : ndarray) :
  invariant kept (Network.train_on_batch x y).
Proof.
  pose proof forward_step_read. pose proof backpropagation_read.
  pose proof emit_read.
  unfold Network.train_on_batch. invariant_auto.
Qed.

Lemma update_weights_read : invariant kept Network.update_weights.
Proof.
  pose proof emit_read. unfold Network.update_weights.
  invariant_auto. apply at_layer_read, on_dense_keeps.
  intros; apply update_layer_keeps.
Qed.

Lemma set_weight_read (layer_id i j : nat) (q : Q) :
  invariant kept (Network.set_weight layer_id i j q).
Proof.
  unfold Network.set_weight. apply at_layer_read, on_dense_keeps.
  intros x d Hd. unfold bind, get, lift, modify.
  destruct (set_item (Dense.w d) i j q) as [w'|] eqn:Hset; simpl; [|exact Hd].
  apply set_item_shape in Hset as [Hr Hc]. now rewrite f_w.
Qed.

Lemma get_weight_read (layer_id i j : nat) :
  invariant kept (Network.get_weight layer_id i j).
Proof. unfold Network.get_weight. apply at_layer_read. dense_reader. Qed.

Lemma gradient_check_read (x ytrue : ndarray) (eps : Q) (layer_id : nat)
    (weight_idx : nat * nat) :
  invariant kept (Network.gradient_check x ytrue eps layer_id weight_idx).
Proof.
  pose proof emit_read. pose proof get_weight_read. pose proof set_weight_read.
  pose proof get_loss_read.
  unfold Network.gradient_check. invariant_auto.
Qed.

Lemma gradient_checks_read (x ytrue : ndarray) (checks : nat) (eps : Q) :
  invariant kept (Network.gradient_checks x ytrue checks eps).
Proof.
  pose proof randint_read. pose proof choice_read.
  pose proof gradient_check_read.
  unfold Network.gradient_checks. invariant_auto; apply at_layer_read;
    dense_reader.
Qed.

Lemma complete_gradient_check_read (x y : ndarray) (eps : Q) :
  invariant kept (Network.complete_gradient_check x y eps).
Proof.
  pose proof gradient_check_read.
  unfold Network.complete_gradient_check, Network.complete_check_layer.
  invariant_auto;
    first [ apply at_layer_read; dense_reader
          | apply invariant_modify; now intros s Hs ].
Qed.

Lemma fit_read (x y : ndarray) (epochs batch_size : Z)
    (validation_data : option (ndarray * ndarray)) (checks : option Z) :
  invariant kept (Network.fit x y epochs batch_size validation_data checks).
Proof.
  pose proof train_on_batch_read. pose proof get_loss_read.
  pose proof gradient_checks_read. pose proof update_weights_read.
  pose proof forward_step_read.
  unfold Network.fit, Network.fit_epoch, Network.fit_batch, Network.decay_lr.
  invariant_auto; apply invariant_modify; now intros s Hs.
Qed.

Lemma compile_read (loss_ : loss) (lr_ : Q) :
  invariant kept (Network.compile loss_ lr_).
Proof.
  unfold Network.compile.
  invariant_auto;
    first [ apply at_layer_read; dense_reader
          | apply invariant_modify; now intros ? ? ].
Qed.

(** Every call but [add]. *)
Lemma run_call_read (c : Network.call) :
  added [c] = [] -> invariant kept (Network.run_call c).
Proof.
  pose proof compile_read. pose proof fit_read. pose proof forward_step_read.
  pose proof train_on_batch_read. pose proof backpropagation_read.
  pose proof update_weights_read. pose proof get_loss_read.
  pose proof complete_gradient_check_read. pose proof gradient_checks_read.
  pose proof gradient_check_read.
  destruct c; try discriminate; intros _;
    unfold Network.run_call, Network.discard, Network.predict; invariant_auto.
Qed.

End LayerProjection.

(** X5.  A forward pass writes caches only.  Whatever the input and
    however the call ends, [forward_step] (which [__call__] and [predict]
    are) and [get_loss] leave in every layer the activation function, the
    weights, the bias, both gradient buffers, the regularizers and the
    identifier as they were, and neither add nor remove a layer. *)
Theorem forward_pass_writes_caches_only {E : Externals}
    (x ytrue : ndarray) (average_examples : bool) (s : Network.t) :
  outside_forward <$> Network.items (Network.forward_step x s).2
  = outside_forward <$> Network.items s
  /\ outside_forward <$> Network.items (Network.predict x s).2
     = outside_forward <$> Network.items s
  /\ outside_forward
       <$> Network.items (Network.get_loss x ytrue average_examples s).2
     = outside_forward <$> Network.items s.
Proof.
  repeat split.
  - now apply (forward_step_read outside_forward).
  - now apply (forward_step_read outside_forward).
  - now apply (get_loss_read outside_forward).
Qed.

(** X6.  The backward pass writes gradient buffers only.  Whatever its
    arguments and however it ends, [backpropagation], its first half
    [_backprop_last_layer] included, leaves in every layer everything but
    [dw] and [db] as it was, the input held by the placeholder too; and
    [train_on_batch], a forward pass followed by a backward pass, changes
    no weight and no bias. *)
Theorem backward_pass_writes_gradients_only {E : Externals}
    (x y : ndarray) (s : Network.t) :
  outside_backward <$> Network.items (Network._backprop_last_layer x y s).2
  = outside_backward <$> Network.items s
  /\ outside_backward <$> Network.items (Network.backpropagation x y s).2
     = outside_backward <$> Network.items s
  /\ parameters <$> Network.items (Network.train_on_batch x y s).2
     = parameters <$> Network.items s.
Proof.
  repeat split.
  - now apply (backprop_last_layer_read outside_backward).
  - now apply (backpropagation_read outside_backward).
  - now apply (train_on_batch_read parameters).
Qed.

(** X7.  [update_weights] writes the entries of parameters only: whether
    it returns or raises, the gradient buffers it reads, the forward
    caches and everything else but [w] and [b] are in every layer as
    before; [w] and [b] keep their shapes, an in-place subtraction never
    reshaping its target; and the list of layers is as long as before. *)
Theorem update_weights_writes_parameters_only (s : Network.t) :
  outside_update <$> Network.items (Network.update_weights s).2
  = outside_update <$> Network.items s
  /\ parameter_shapes <$> Network.items (Network.update_weights s).2
     = parameter_shapes <$> Network.items s.
Proof.
  split.
  - now apply (update_weights_read outside_update).
  - apply (update_weights_read parameter_shapes); [| |reflexivity];
      intros v d Hr Hc; unfold parameter_shapes; simpl; congruence.
Qed.

(** X8.  The gradient checkers never write a gradient buffer or a bias.
    However [gradient_check], [gradient_checks] and
    [complete_gradient_check] end, with an exception too, every layer has
    the [dw], [db] and [b] of before the call: what they may leave
    changed in a layer are the weights they perturb and the caches of the
    forward passes they run. *)
Theorem gradient_checkers_keep_gradients {E : Externals}
    (x y : ndarray) (eps : Q) (layer_id : nat) (weight_idx : nat * nat)
    (checks : nat) (s : Network.t) :
  outside_check
    <$> Network.items (Network.gradient_check x y eps layer_id weight_idx s).2
  = outside_check <$> Network.items s
  /\ outside_check
       <$> Network.items (Network.gradient_checks x y checks eps s).2
     = outside_check <$> Network.items s
  /\ outside_check
       <$> Network.items (Network.complete_gradient_check x y eps s).2
     = outside_check <$> Network.items s.
Proof.
  repeat split.
  - now apply (gradient_check_read outside_check).
  - now apply (gradient_checks_read outside_check).
  - now apply (complete_gradient_check_read outside_check).
Qed.

(** ** The list of layers over the life of a network *)

Lemma session_from {E : Externals} {X} (f : layer -> X)
    (calls : list Network.call) (s : Network.t) :
  (forall a a', f (InputLayer a) = f (InputLayer a')) ->
  (forall v d, f (DenseLayer (Dense.set_z v d)) = f (DenseLayer d)) ->
  (forall v d, f (DenseLayer (Dense.set_a v d)) = f (DenseLayer d)) ->
  (forall v d, f (DenseLayer (Dense.set_dw v d)) = f (DenseLayer d)) ->
  (forall v d, f (DenseLayer (Dense.set_db v d)) = f (DenseLayer d)) ->
  (forall v d, nrows v = nrows (Dense.w d) -> ncols v = ncols (Dense.w d) ->
     f (DenseLayer (Dense.set_w v d)) = f (DenseLayer d)) ->
  (forall v d, nrows v = nrows (Dense.b d) -> ncols v = ncols (Dense.b d) ->
     f (DenseLayer (Dense.set_b v d)) = f (DenseLayer d)) ->
  f <$> Network.items
          (fold_left (fun self c => (Network.run_call c self).2) calls s)
  = (f <$> Network.items s) ++ (f <$> added calls).
Proof.
  intros Hi Hz Ha Hdw Hdb Hw Hb. revert s.
  induction calls as [|c calls IH]; intros s; simpl.
  - now rewrite app_nil_r.
  - rewrite IH. destruct (added [c]) as [|l ls] eqn:Hc.
    + rewrite (run_call_read f Hi Hz Ha Hdw Hdb Hw Hb _ c Hc s eq_refl).
      destruct c; try discriminate; reflexivity.
    + destruct c; try discriminate. simpl.
      now rewrite fmap_app, <- app_assoc.
Qed.

(** X9.  Over any sequence of calls, on a new network, of the methods
    that [network.py] defines ([add], [compile], [fit], [forward_step],
    which [__call__] is, [train_on_batch], [backpropagation],
    [update_weights], [get_loss], [predict] and the three gradient
    checkers), whatever each of them returns or raises: index 0 holds the
    input placeholder, and after it come the layers given to [add], one
    for each call of [add] and in that order, each with the activation
    function, the regularizers, the identifier and the shapes of weights
    and bias it was added with.  None of these methods removes, reorders,
    replaces or reshapes a layer.  The methods that [Network] inherits
    from [list] ([pop], [insert], [remove], [clear], [sort], [reverse],
    the assignment and the deletion of an item) are no part of such a
    sequence. *)
Theorem session_layers_are_the_added_ones {E : Externals}
    (verbose_ : bool) (calls : list Network.call) :
  architecture <$> Network.items (Network.session verbose_ calls)
  = None :: (architecture <$> added calls).
Proof.
  unfold Network.session.
  rewrite (session_from architecture); try reflexivity;
    intros v d Hr Hc; unfold architecture; simpl; congruence.
Qed.

(** ** Loops over the layers of a network *)

Lemma set_items_twice (u v : list layer) (s : Network.t) :
  Network.set_items u (Network.set_items v s) = Network.set_items u s.
Proof. reflexivity. Qed.

(** A method run on the layer at index [length pre]. *)
Lemma at_layer_middle {A} (m : M layer A) (pre post : list layer)
    (l l' : layer) (r : result A) (s : Network.t) :
  Network.items s = pre ++ l :: post ->
  m l = (r, l') ->
  Network.at_layer (Z.of_nat (length pre)) m s
  = (r, Network.set_items (pre ++ l' :: post) s).
Proof.
  intros Hitems Hm. unfold Network.at_layer.
  rewrite py_index_nat, Hitems.
  replace (length pre <? length (pre ++ l :: post))%nat with true
    by (symmetry; apply Nat.ltb_lt; rewrite length_app; simpl; lia).
  rewrite list_lookup_middle by reflexivity.
  rewrite Hm. f_equal. f_equal.
  now rewrite insert_app_r_alt, Nat.sub_diag by lia.
Qed.

Lemma at_layer_dense {A} (m : M Dense.t A) (pre post : list layer)
    (d d' : Dense.t) (r : result A) (s : Network.t) :
  Network.items s = pre ++ DenseLayer d :: post ->
  m d = (r, d') ->
  Network.at_layer (Z.of_nat (length pre)) (on_dense m) s
  = (r, Network.set_items (pre ++ DenseLayer d' :: post) s).
Proof.
  intros Hitems Hm. apply (at_layer_middle _ _ _ _ _ _ _ Hitems).
  unfold on_dense. now rewrite Hm.
Qed.

(** [for k in range(len(pre), len(self)): self[k].m()] on dense layers on
    which [m] returns. *)
Lemma for_each_layer (m : M Dense.t unit) (h : Dense.t -> Dense.t)
    (ds : list Dense.t) :
  Forall (fun d => m d = (Ok tt, h d)) ds ->
  forall (pre : list layer) (s : Network.t),
    Network.items s = pre ++ (DenseLayer <$> ds) ->
    for_each (seq (length pre) (length ds))
      (fun k => Network.at_layer (Z.of_nat k) (on_dense m)) s
    = (Ok tt, Network.set_items (pre ++ (DenseLayer <$> (h <$> ds))) s).
Proof.
  induction 1 as [|d ds Hd Hds IH]; intros pre s Hitems.
  - simpl in *. unfold ret. now rewrite <- Hitems, set_items_same.
  - simpl for_each. rewrite fmap_cons in Hitems.
    erewrite bind_ok by (eapply at_layer_dense; eauto).
    specialize (IH (pre ++ [DenseLayer (h d)])
                  (Network.set_items
                     (pre ++ DenseLayer (h d) :: (DenseLayer <$> ds)) s)).
    rewrite length_app in IH; simpl in IH.
    rewrite Nat.add_1_r in IH. rewrite IH.
    + rewrite set_items_twice, !fmap_cons. now rewrite <- app_assoc.
    + now rewrite <- app_assoc.
Qed.

Lemma update_layer_run (rate : Q) (d : Dense.t) :
  gradients_fit d ->
  Network.update_layer (Some rate) d = (Ok tt, stepped rate d).
Proof.
  intros [[Hwr Hwc] [Hbr Hbc]]. unfold Network.update_layer, stepped.
  simpl attr. rewrite bind_ret, bind_get.
  assert (Hsub : forall p dp,
             broadcasts_into dp (nrows p) (ncols p) ->
             np_isub p (scale rate dp) = Ok (descended rate p dp)).
  { intros p dp [Hr Hc]. unfold np_isub.
    rewrite inplace_broadcast by assumption. f_equal.
    apply tabulate_ext. intros i j Hi Hj.
    rewrite bitem_in_range by assumption.
    now rewrite (bitem_scale rate dp (nrows p) (ncols p)). }
  rewrite Hsub by (split; assumption). rewrite bind_lift_ok, bind_modify.
  rewrite Hsub by (split; assumption). now rewrite bind_lift_ok.
Qed.

(** X10.  [update_weights] is one step of gradient descent on every layer
    after the first.  On a compiled network whose layers from index 1 on
    are dense, with gradient buffers that broadcast into their
    parameters, it returns, and each of these layers then holds
    [w[i, j] - lr * dw[i, j]] and [b[i, j] - lr * db[i, j]] for the [w],
    [b], [dw], [db] it held; the layer at index 0, the learning rate and
    the gradient buffers are untouched. *)
Theorem update_weights_descends (s : Network.t) (input : layer)
    (ds : list Dense.t) (rate : Q) :
  Network.items s = input :: (DenseLayer <$> ds) ->
  Network.lr s = Some rate ->
  Forall gradients_fit ds ->
  exists s',
    Network.update_weights s = (Ok tt, s')
    /\ Network.items s' = input :: (DenseLayer <$> (stepped rate <$> ds))
    /\ Network.lr s' = Some rate
    /\ gradients <$> Network.items s' = gradients <$> Network.items s.
Proof.
  intros Hitems Hlr Hfit. eexists. split; [|split; [|split]].
  - unfold Network.update_weights, Network.emit.
    rewrite bind_modify, bind_get. simpl Network.lr. rewrite Hlr.
    simpl Network.items. rewrite Hitems.
    replace (length (input :: (DenseLayer <$> ds)) - 1)%nat with (length ds)
      by (rewrite length_cons, length_fmap; lia).
    apply (for_each_layer (Network.update_layer (Some rate)) (stepped rate)
             ds) with (pre := [input]).
    + eapply Forall_impl; [exact Hfit|]. intros d Hd.
      now apply update_layer_run.
    + exact Hitems.
  - reflexivity.
  - exact Hlr.
  - rewrite Hitems. simpl. f_equal.
    rewrite <- !list_fmap_compose. now apply list_fmap_ext.
Qed.

(** The trained sample network, one step further. *)
Lemma update_weights_descends_witness :
  exists s' q,
    Network.update_weights trained_network = (Ok tt, s')
    /\ (Network.get_weight 2 0 1 s').1 = Ok q
    /\ (q == 1 - (1 # 10) * 106)%Q.
Proof.
  destruct (update_weights_descends trained_network
              (InputLayer (Some sample_x))
              (dense_layers (Network.items trained_network)) (1 # 10))
    as (s' & Hrun & Hitems & _).
  - vm_compute. reflexivity.
  - vm_compute. reflexivity.
  - vm_compute. repeat constructor.
  - exists s'. eexists. split; [exact Hrun|].
    unfold Network.get_weight, Network.at_layer. rewrite Hitems.
    vm_compute. split; reflexivity.
Defined.

(** X11.  [update_weights] before [compile]: on a network to which a
    layer has been added and whose learning rate is not bound yet, it
    raises [AttributeError], and no layer has been written. *)
Theorem update_weights_before_compile (s : Network.t) :
  Network.lr s = None ->
  (1 < length (Network.items s))%nat ->
  (Network.update_weights s).1 = Raise AttributeError
  /\ Network.items (Network.update_weights s).2 = Network.items s.
Proof.
  intros Hlr Hlen.
  assert (Hrun : exists s',
             Network.update_weights s = (Raise AttributeError, s')
             /\ Network.items s' = Network.items s).
  { unfold Network.update_weights, Network.emit.
    rewrite bind_modify, bind_get. simpl Network.lr. rewrite Hlr.
    simpl Network.items.
    destruct (Network.items s) as [|l0 [|l1 rest]] eqn:Hitems;
      [simpl in Hlen; lia | simpl in Hlen; lia |].
    replace (length (l0 :: l1 :: rest) - 1)%nat with (S (length rest))
      by (simpl; lia).
    simpl for_each. unfold bind.
    assert (Hl1 : on_dense (Network.update_layer None) l1
                  = (Raise AttributeError, l1)) by now destruct l1.
    rewrite (at_layer_middle _ [l0] rest l1 l1 (Raise AttributeError)); auto.
    eexists. split; reflexivity. }
  destruct Hrun as (s' & -> & Hitems). now split.
Qed.

(** A network with one layer added and not compiled. *)
Lemma update_weights_before_compile_witness :
  (Network.update_weights
     (Network.add (DenseLayer (sample_hidden None None))
        (Network.__init__ false)).2).1
  = Raise AttributeError.
Proof.
  apply (update_weights_before_compile
           (Network.add (DenseLayer (sample_hidden None None))
              (Network.__init__ false)).2).
  - reflexivity.
  - simpl. lia.
Defined.

(** ** The forward pass through the chain of layers *)

Lemma forward_loop {E : Externals} (ds : list Dense.t) :
  forall (a : ndarray) (pre : list layer) (s : Network.t),
    Network.items s = pre ++ (DenseLayer <$> ds) ->
    feeds a ds ->
    for_loop (seq (length pre) (length ds))
      (fun k a' => Network.at_layer (Z.of_nat k) (layer_call a')) a s
    = (Ok (chain_output a ds),
       Network.set_items (pre ++ (DenseLayer <$> chain_layers a ds)) s).
Proof.
  induction ds as [|d ds IH]; intros a pre s Hitems Hfeeds.
  - simpl in *. unfold ret. now rewrite <- Hitems, set_items_same.
  - rewrite fmap_cons in Hitems. destruct Hfeeds as (Hk & Hb & Hfeeds).
    simpl for_loop.
    erewrite bind_ok.
    2: { eapply (at_layer_middle (layer_call a)); [exact Hitems|].
         unfold layer_call, on_dense. now rewrite (forward_run a d Hk Hb). }
    specialize (IH (output_of a d) (pre ++ [DenseLayer (forwarded a d)])
                  (Network.set_items
                     (pre ++ DenseLayer (forwarded a d) :: (DenseLayer <$> ds))
                     s)).
    rewrite length_app in IH; simpl in IH.
    rewrite Nat.add_1_r in IH.
    change (call_activation (Dense.g d)
              (pre_activation (Dense.w d) (Dense.b d) a))
      with (output_of a d).
    change (Dense.set_a (output_of a d)
              (Dense.set_z (pre_activation (Dense.w d) (Dense.b d) a) d))
      with (forwarded a d).
    rewrite IH.
    + rewrite set_items_twice. simpl chain_layers. rewrite fmap_cons.
      now rewrite <- app_assoc.
    + now rewrite <- app_assoc.
    + exact Hfeeds.
Qed.

(** X12.  [forward_step] composes the layers.  On a network made of the
    input placeholder and dense layers that the input fits, it returns
    the output of the last layer, each layer having been called on the
    output of the one before it and the first on the input; afterwards
    the placeholder holds the input and every dense layer the [z] and
    [a] of this pass.  On a network without a dense layer it returns its
    input. *)
Theorem forward_step_composes {E : Externals} (a : ndarray) (s : Network.t)
    (a0 : option ndarray) (ds : list Dense.t) :
  Network.items s = InputLayer a0 :: (DenseLayer <$> ds) ->
  feeds a ds ->
  Network.forward_step a s
  = (Ok (chain_output a ds),
     Network.set_items
       (InputLayer (Some a) :: (DenseLayer <$> chain_layers a ds)) s).
Proof.
  intros Hitems Hfeeds. unfold Network.forward_step.
  erewrite bind_ok
    by (eapply (at_layer_middle (layer_set_a a) []); [exact Hitems|];
        reflexivity).
  rewrite bind_get. simpl Network.items. simpl length. rewrite length_fmap.
  simpl for_loop.
  erewrite bind_ok
    by (eapply (at_layer_middle (layer_call a) []
                  (DenseLayer <$> ds) (InputLayer (Some a))); reflexivity).
  rewrite set_items_twice.
  rewrite (forward_loop ds a [InputLayer (Some a)]); auto.
Qed.

(** The sample network on the sample inputs. *)
Lemma forward_step_composes_witness :
  exists out,
    (Network.forward_step (E := sample_externals) sample_x sample_network).1
    = Ok out
    /\ out = matrix [[7; 9; 13; 23]]%Q.
Proof.
  eexists. split.
  - rewrite (forward_step_composes (E := sample_externals) sample_x
               sample_network None
               [sample_hidden None None; sample_output None None]).
    + reflexivity.
    + reflexivity.
    + vm_compute. repeat split; auto.
  - vm_compute. reflexivity.
Defined.

(** ** The gradient checker on a weight that does not exist *)

(** Reading a weight leaves the network as it is. *)
Lemma get_weight_run (layer_id i j : nat) (s : Network.t) :
  Network.get_weight layer_id i j s
  = (weight_at (weights s) layer_id i j, s).
Proof.
  unfold Network.get_weight, Network.at_layer, weight_at, weights.
  rewrite py_index_nat, list_lookup_fmap.
  destruct (layer_id <? length (Network.items s))%nat eqn:Hlen.
  - destruct (Network.items s !! layer_id) as [[a|d]|] eqn:Hl; simpl;
      try reflexivity.
    + now rewrite list_insert_id, set_items_same.
    + unfold bind, get, lift.
      destruct (get_item (Dense.w d) i j);
        now rewrite list_insert_id, set_items_same.
  - apply Nat.ltb_ge in Hlen.
    now rewrite (proj2 (lookup_ge_None _ _) Hlen).
Qed.

(** X13.  [gradient_check] on a weight that does not exist, because the
    network has no layer of index [layer_id], or because [weight_idx]
    lies outside the shape of the weights of that layer, raises
    [IndexError] at its first statement: no weight has been written and
    no forward pass has run, every layer is as before the call. *)
Theorem gradient_check_out_of_bounds {E : Externals}
    (x ytrue : ndarray) (eps : Q) (layer_id i j : nat) (s : Network.t) :
  (length (Network.items s) <= layer_id)%nat
  \/ (exists d, Network.items s !! layer_id = Some (DenseLayer d)
                /\ ((nrows (Dense.w d) <= i)%nat
                    \/ (ncols (Dense.w d) <= j)%nat)) ->
  (Network.gradient_check x ytrue eps layer_id (i, j) s).1 = Raise IndexError
  /\ Network.items (Network.gradient_check x ytrue eps layer_id (i, j) s).2
     = Network.items s.
Proof.
  intros Hout.
  assert (Hread : forall s0, weights s0 = weights s ->
                    weight_at (weights s0) layer_id i j = Raise IndexError).
  { intros s0 ->. unfold weight_at, weights. rewrite list_lookup_fmap.
    destruct Hout as [Hlen | (d & Hd & Hidx)].
    - now rewrite (proj2 (lookup_ge_None _ _) Hlen).
    - rewrite Hd; simpl. unfold get_item.
      destruct Hidx as [Hi | Hj].
      + apply Nat.ltb_ge in Hi. now rewrite Hi.
      + apply Nat.ltb_ge in Hj. rewrite Hj. now rewrite andb_false_r. }
  assert (Hrun : Network.gradient_check x ytrue eps layer_id (i, j) s
                 = (Raise IndexError,
                    (Network.emit (GradientCheck layer_id i j eps) s).2)).
  { unfold Network.gradient_check, Network.emit.
    rewrite bind_modify. unfold bind at 1.
    now rewrite get_weight_run, Hread. }
  rewrite Hrun. split; reflexivity.
Qed.

(** The sample network has no weight [(2, 0)] in its hidden layer. *)
Lemma gradient_check_out_of_bounds_witness :
  (Network.gradient_check (E := sample_externals) sample_x sample_y
     (1 # 100) 1 (2, 0)%nat sample_network).1
  = Raise IndexError.
Proof.
  apply (gradient_check_out_of_bounds (E := sample_externals) sample_x
           sample_y (1 # 100) 1 2 0 sample_network).
  right. exists (sample_hidden None None). split; [reflexivity|].
  left. simpl. lia.
Defined.

(** ** Compiling a network *)

(** X14.  [compile] on a network whose last layer is dense returns, with
    the learning rate and the loss bound to its arguments, and
    [batch_norm] telling whether some key of [layers] has [info] equal to
    ['batch'].  The flag [softmax] is raised when the activation of the
    last layer is [softmax] and is never lowered: compiling again, after
    a layer with another activation has been added, leaves it as it was.
    The layers and the epoch counter are untouched. *)
Theorem compile_binds_and_flags (loss_ : loss) (lr_ : Q) (s : Network.t)
    (front : list layer) (d : Dense.t) :
  Network.items s = front ++ [DenseLayer d] ->
  exists s',
    Network.compile loss_ lr_ s = (Ok tt, s')
    /\ Network.lr s' = Some lr_
    /\ Network.loss_fct s' = Some loss_
    /\ Network.batch_norm s'
       = Some (existsb is_batch (map fst (map_to_list (Network.layers s))))
    /\ Network.softmax_flag s'
       = (if is_softmax (Dense.g d) then Some true else Network.softmax_flag s)
    /\ Network.items s' = Network.items s
    /\ Network.epoch s' = Network.epoch s.
Proof.
  intros Hitems. unfold Network.compile.
  rewrite bind_modify, bind_get.
  erewrite bind_ok by apply compile_keys_run.
  simpl Network.layers.
  destruct (existsb is_batch (map fst (map_to_list (Network.layers s))));
    rewrite !bind_modify;
    (erewrite bind_ok
       by (eapply (read_last _ _ front (DenseLayer d)); [exact Hitems|];
           reflexivity));
    destruct (is_softmax (Dense.g d)); eexists; repeat split.
Qed.

(** The sample network, compiled again after a softmax layer was its
    last: the flag stays. *)
Lemma compile_binds_and_flags_witness :
  exists s',
    Network.compile squared_error (1 # 2)
      (Network.set_softmax_flag true sample_network) = (Ok tt, s')
    /\ Network.lr s' = Some (1 # 2)
    /\ Network.softmax_flag s' = Some true.
Proof.
  destruct (compile_binds_and_flags squared_error (1 # 2)
              (Network.set_softmax_flag true sample_network)
              [InputLayer None; DenseLayer (sample_hidden None None)]
              (sample_output None None) eq_refl)
    as (s' & Hrun & Hlr & _ & _ & Hflag & _).
  exists s'. split; [exact Hrun|]. split; [exact Hlr|exact Hflag].
Defined.

(** ** The epoch counter and the early exits of the training loop *)

Section EpochCounter.
Context {E : Externals}.

Lemma counts_epoch_bind {A B} (m : M Network.t A) (k : A -> M Network.t B) :
  (forall c, invariant (fun s => Network.epoch s = c) m) ->
  (forall a, counts_epoch (k a)) ->
  counts_epoch (bind m k).
Proof.
  intros Hm Hk s. unfold bind.
  pose proof (Hm (Network.epoch s) s eq_refl) as Hs.
  destruct (m s) as [[a|e] s1]; simpl in *.
  - now rewrite Hk, Hs.
  - rewrite Hs. lia.
Qed.

Lemma forward_step_keeps_epoch (a : ndarray) (c : Z) :
  invariant (fun s => Network.epoch s = c) (Network.forward_step a).
Proof. now apply forward_step_invariant. Qed.

Lemma get_loss_keeps_epoch (x y : ndarray) (average_examples : bool) (c : Z) :
  invariant (fun s => Network.epoch s = c)
    (Network.get_loss x y average_examples).
Proof. now apply get_loss_invariant. Qed.

Lemma fit_batch_keeps_epoch (checks : option Z) (m : nat)
    (minibatch : ndarray * ndarray) (grad_printout : bool) (c : Z) :
  invariant (fun s => Network.epoch s = c)
    (Network.fit_batch checks m minibatch grad_printout).
Proof.
  apply (fit_batch_invariant (fun s => Network.epoch s = c) (fun _ => True));
    now intros.
Qed.

Lemma decay_lr_keeps_epoch (c : Z) :
  invariant (fun s => Network.epoch s = c) Network.decay_lr.
Proof. now apply decay_lr_invariant. Qed.

Lemma fit_epoch_counts (x y : ndarray) (ytrain_labels : list nat)
    (validation : option (ndarray * ndarray * list nat))
    (checks : option Z) (epoch_ : Z) (grad_printout : bool) :
  counts_epoch
    (Network.fit_epoch x y ytrain_labels validation checks epoch_
       grad_printout).
Proof.
  pose proof forward_step_keeps_epoch. pose proof get_loss_keeps_epoch.
  pose proof fit_batch_keeps_epoch. pose proof decay_lr_keeps_epoch.
  unfold Network.fit_epoch.
  repeat (lazymatch goal with
          | |- counts_epoch (bind (modify _) _) => fail
          | |- _ => apply counts_epoch_bind;
                    [intros c; solve [invariant_auto] | intros ?]
          end).
  now intros s.
Qed.

Lemma epochs_counted (x y : ndarray) (ytrain_labels : list nat)
    (validation : option (ndarray * ndarray * list nat))
    (checks : option Z) (epochs : list Z) :
  forall (grad_printout : bool) (s : Network.t),
    (Network.epoch s
     <= Network.epoch
          (for_loop epochs
             (Network.fit_epoch x y ytrain_labels validation checks)
             grad_printout s).2
     <= Network.epoch s + Z.of_nat (length epochs))%Z
    /\ (forall v,
          (for_loop epochs
             (Network.fit_epoch x y ytrain_labels validation checks)
             grad_printout s).1 = Ok v ->
          Network.epoch
            (for_loop epochs
               (Network.fit_epoch x y ytrain_labels validation checks)
               grad_printout s).2
          = (Network.epoch s + Z.of_nat (length epochs))%Z).
Proof.
  induction epochs as [|epoch_ epochs IH]; intros gp s.
  - simpl. split; [lia|]. intros _ _. lia.
  - simpl for_loop. unfold bind.
    pose proof (fit_epoch_counts x y ytrain_labels validation checks epoch_
                  gp s) as Hone.
    destruct (Network.fit_epoch x y ytrain_labels validation checks epoch_
                gp s) as [[gp1|e] s1]; simpl in Hone.
    + destruct (IH gp1 s1) as [Hle Hok]. simpl length.
      split; [lia|]. intros v Hv. rewrite (Hok v Hv). lia.
    + simpl. split; [lia | discriminate].
Qed.

Lemma epoch_range_cons (epochs : Z) :
  (2 <= epochs)%Z ->
  Network.epoch_range epochs
  = 1%Z :: map (fun k => (1 + Z.of_nat k)%Z)
             (seq 1 (Z.to_nat (epochs - 1) - 1)).
Proof.
  intros Hepochs. unfold Network.epoch_range.
  destruct (Z.to_nat (epochs - 1)) as [|n] eqn:Hn; [lia|].
  simpl. now rewrite Nat.sub_0_r.
Qed.

(** A step on a minibatch that makes no gradient check leaves the local
    [grad_printout] as it is. *)
Lemma fit_batch_keeps_printout (checks : option Z) (m : nat)
    (minibatch : ndarray * ndarray) (grad_printout v : bool)
    (s s' : Network.t) :
  truthy checks && (m =? 1)%nat = false ->
  Network.fit_batch checks m minibatch grad_printout s = (Ok v, s') ->
  v = grad_printout.
Proof.
  intros Hno. destruct minibatch as [xb yb]. unfold Network.fit_batch.
  rewrite Hno. intros Hrun.
  apply bind_ok_inv in Hrun as ([] & s1 & _ & Hrun).
  apply bind_ok_inv in Hrun as (l & s2 & _ & Hrun).
  rewrite bind_ret in Hrun.
  apply bind_ok_inv in Hrun as ([] & s3 & _ & Hrun).
  now injection Hrun as <- _.
Qed.

(** An epoch that starts without [grad_printout] and has at most one
    minibatch does not return. *)
Lemma fit_epoch_unbound (x y : ndarray) (ytrain_labels : list nat)
    (validation : option (ndarray * ndarray * list nat))
    (checks : option Z) (epoch_ : Z) (s : Network.t) :
  (length (minibatches x y 1000) <= 1)%nat ->
  exists e,
    (Network.fit_epoch x y ytrain_labels validation checks epoch_ false s).1
    = Raise e.
Proof.
  intros Hshort.
  destruct (Network.fit_epoch x y ytrain_labels validation checks epoch_
              false s) as [[v|e] s'] eqn:Hrun; [exfalso | now exists e].
  unfold Network.fit_epoch in Hrun.
  apply bind_ok_inv in Hrun as ([] & s1 & _ & Hrun).
  apply bind_ok_inv in Hrun as (gp & s2 & Hloop & Hrun).
  assert (Hgp : gp = false).
  { clear Hrun. unfold enumerate in Hloop.
    destruct (minibatches x y 1000) as [|mb [|mb' mbs]];
      [| |simpl in Hshort; lia].
    - now injection Hloop as <- _.
    - simpl in Hloop.
      apply bind_ok_inv in Hloop as (gp1 & s1' & Hbatch & Hret).
      injection Hret as <- _.
      apply fit_batch_keeps_printout in Hbatch; [exact Hbatch|].
      apply andb_false_r. }
  subst gp.
  apply bind_ok_inv in Hrun as (a_train & s3 & _ & Hrun).
  apply bind_ok_inv in Hrun as (pred & s4 & _ & Hrun).
  apply bind_ok_inv in Hrun as (correct & s5 & _ & Hrun).
  apply bind_ok_inv in Hrun as ([] & s6 & _ & Hrun).
  apply bind_ok_inv in Hrun as ([] & s7 & Hprint & _).
  discriminate Hprint.
Qed.

End EpochCounter.

(** X15.  [fit] counts the epochs it completes.  A call that returns has
    added [epochs - 1] to the counter [epoch] (nothing for [epochs] of 1
    or less): the loop runs over [range(1, epochs)].  A call that raises
    has added the number of epochs completed before, between 0 and that
    same bound; the counter never goes back. *)
Theorem fit_counts_epochs {E : Externals}
    (x y : ndarray) (epochs batch_size : Z)
    (validation_data : option (ndarray * ndarray)) (checks : option Z)
    (self : Network.t) :
  (Network.epoch self
   <= Network.epoch
        (Network.fit x y epochs batch_size validation_data checks self).2
   <= Network.epoch self + Z.max 0 (epochs - 1))%Z
  /\ ((Network.fit x y epochs batch_size validation_data checks self).1
      = Ok tt ->
      Network.epoch
        (Network.fit x y epochs batch_size validation_data checks self).2
      = (Network.epoch self + Z.max 0 (epochs - 1))%Z).
Proof.
  destruct (fit_cases x y epochs batch_size validation_data checks self)
    as [[e ->] | (labels & validation & ->)].
  - simpl. split; [lia | discriminate].
  - destruct (epochs_counted x y labels validation checks
                (Network.epoch_range epochs) (negb (truthy checks)) self)
      as [Hle Hok].
    rewrite length_epoch_range in *. unfold bind.
    destruct (for_loop _ _ _ self) as [[gp|e] s'] eqn:Hloop; simpl in *.
    + split; [lia|]. intros _. rewrite (Hok gp eq_refl). lia.
    + split; [lia | discriminate].
Qed.

(** X16.  With [gradients_to_check_each_epoch] set, [fit] for two epochs
    or more on data that [misc.minibatches] cuts into at most one
    minibatch does not return: the local [grad_printout] is bound on the
    minibatch of index 1 only, and the [print] that ends the first epoch
    reads it.  The call raises, after the first epoch has trained, and no
    epoch is counted. *)
Theorem fit_checks_need_second_minibatch {E : Externals}
    (x y : ndarray) (epochs batch_size : Z)
    (validation_data : option (ndarray * ndarray)) (checks : option Z)
    (self : Network.t) :
  truthy checks = true ->
  (2 <= epochs)%Z ->
  (length (minibatches x y 1000) <= 1)%nat ->
  exists e,
    (Network.fit x y epochs batch_size validation_data checks self).1
    = Raise e
    /\ Network.epoch
         (Network.fit x y epochs batch_size validation_data checks self).2
       = Network.epoch self.
Proof.
  intros Hchecks Hepochs Hshort.
  destruct (fit_cases x y epochs batch_size validation_data checks self)
    as [[e ->] | (labels & validation & ->)].
  - now exists e.
  - rewrite (epoch_range_cons epochs Hepochs), Hchecks. simpl negb.
    simpl for_loop. unfold bind.
    destruct (fit_epoch_unbound x y labels validation checks 1 self Hshort)
      as (e & He).
    pose proof (fit_epoch_counts x y labels validation checks 1 false self)
      as Hcount.
    destruct (Network.fit_epoch x y labels validation checks 1 false self)
      as [[gp|e'] s1]; [discriminate He|].
    simpl in *. exists e'. split; [reflexivity | lia].
Qed.

(** The sample network on the four sample examples, one minibatch: the
    exception is [UnboundLocalError]. *)
Lemma fit_checks_need_second_minibatch_witness :
  (Network.fit (E := sample_externals) sample_x sample_y 2 2 None (Some 3%Z)
     sample_network).1
  = Raise UnboundLocalError.
Proof.
  destruct (fit_checks_need_second_minibatch (E := sample_externals)
              sample_x sample_y 2 2 None (Some 3%Z) sample_network)
    as (e & He & _).
  - reflexivity.
  - lia.
  - vm_compute. lia.
  - pose proof He as He'. vm_compute in He'. injection He' as <-. exact He.
Defined.

(** X17.  [fit] before [compile]: on a network whose learning rate is not
    bound, a call for two epochs or more raises before anything is
    trained and leaves the network exactly as it was; with targets that
    have a row and no validation data the exception is the
    [AttributeError] of [self.lr *= 0.993]. *)
Theorem fit_before_compile {E : Externals}
    (x y : ndarray) (epochs batch_size : Z)
    (validation_data : option (ndarray * ndarray)) (checks : option Z)
    (self : Network.t) :
  Network.lr self = None ->
  (2 <= epochs)%Z ->
  (exists e,
     Network.fit x y epochs batch_size validation_data checks self
     = (Raise e, self))
  /\ (validation_data = None -> nrows y <> 0%nat ->
      Network.fit x y epochs batch_size validation_data checks self
      = (Raise AttributeError, self)).
Proof.
  intros Hlr Hepochs.
  assert (Hloop : forall labels validation,
             bind (for_loop (Network.epoch_range epochs)
                     (Network.fit_epoch x y labels validation checks)
                     (negb (truthy checks)))
                  (fun _ => ret tt) self
             = (Raise AttributeError, self)).
  { intros labels validation. rewrite (epoch_range_cons epochs Hepochs).
    simpl for_loop. unfold Network.fit_epoch, Network.decay_lr.
    unfold bind, get, attr. now rewrite Hlr. }
  split.
  - destruct (fit_cases x y epochs batch_size validation_data checks self)
      as [[e ->] | (labels & validation & ->)].
    + now exists e.
    + exists AttributeError. apply Hloop.
  - intros -> Hy. unfold Network.fit. unfold np_argmax_axis0.
    destruct (nrows y) as [|r]; [contradiction|].
    rewrite bind_lift_ok, bind_ret. apply Hloop.
Qed.

(** The sample layers in a network that was not compiled. *)
Lemma fit_before_compile_witness :
  Network.fit (E := sample_externals) sample_x sample_y 3 2 None None
    (Network.add (DenseLayer (sample_hidden None None))
       (Network.__init__ false)).2
  = (Raise AttributeError,
     (Network.add (DenseLayer (sample_hidden None None))
        (Network.__init__ false)).2).
Proof.
  apply (fit_before_compile (E := sample_externals) sample_x sample_y 3 2
           None None
           (Network.add (DenseLayer (sample_hidden None None))
              (Network.__init__ false)).2).
  - reflexivity.
  - lia.
  - reflexivity.
  - discriminate.
Defined.

(** ** What the gradient checkers leave behind when they return *)

Lemma invariant_ok {S A} (I : S -> Prop) (m : M S A) (s s' : S)
    (r : result A) :
  invariant I m -> I s -> m s = (r, s') -> I s'.
Proof. intros Hm Hs Hrun. specialize (Hm s Hs). now rewrite Hrun in Hm. Qed.

Lemma for_loop_ok_keeps {S A L X} (f : S -> X) (body : A -> L -> M S L) :
  (forall x l s l' s', body x l s = (Ok l', s') -> f s' = f s) ->
  forall xs l s l' s', for_loop xs body l s = (Ok l', s') -> f s' = f s.
Proof.
  intros Hbody xs. induction xs as [|x xs IH]; simpl; intros l s l' s' Hrun.
  - now injection Hrun as _ <-.
  - apply bind_ok_inv in Hrun as (l1 & s1 & Hx & Hrun).
    rewrite (IH _ _ _ _ Hrun). eapply Hbody; eauto.
Qed.

Lemma for_each_ok_keeps {S A X} (f : S -> X) (body : A -> M S unit) :
  (forall x s s', body x s = (Ok tt, s') -> f s' = f s) ->
  forall xs s s', for_each xs body s = (Ok tt, s') -> f s' = f s.
Proof.
  intros Hbody xs. induction xs as [|x xs IH]; simpl; intros s s' Hrun.
  - now injection Hrun as <-.
  - apply bind_ok_inv in Hrun as ([] & s1 & Hx & Hrun).
    rewrite (IH _ _ Hrun). eapply Hbody; eauto.
Qed.

(** A run of [gradient_check] that returns, statement by statement. *)
Lemma gradient_check_run {E : Externals}
    (x ytrue : ndarray) (eps : Q) (layer_id i j : nat)
    (s s' : Network.t) (gradient : option Q) :
  Network.gradient_check x ytrue eps layer_id (i, j) s = (Ok gradient, s') ->
  exists (w0 : Q) (W W1 W2 : ndarray) (s2 s3 s4 s5 : Network.t) (l1 l2 : Q),
    weights s !! layer_id = Some (Some W)
    /\ get_item W i j = Ok w0
    /\ set_item W i j (w0 + 1 * eps) = Ok W1
    /\ set_item W i j (w0 + -1 * eps) = Ok W2
    /\ Network.set_weight layer_id i j (w0 + 1 * eps)
         (Network.emit (GradientCheck layer_id i j eps) s).2 = (Ok tt, s2)
    /\ weights s2 = <[layer_id := Some W1]> (weights s)
    /\ Network.get_loss x ytrue true s2 = (Ok l1, s3)
    /\ Network.set_weight layer_id i j (w0 + -1 * eps) s3 = (Ok tt, s4)
    /\ weights s4 = <[layer_id := Some W2]> (weights s)
    /\ Network.get_loss x ytrue true s4 = (Ok l2, s5)
    /\ weights s' = weights s
    /\ gradient = (if Qeq_bool (2 * eps) 0 then None
                   else Some ((0 + 1 * l1 + -1 * l2) / (2 * eps))%Q).
Proof.
  intros Hrun. unfold Network.gradient_check in Hrun.
  apply bind_ok_inv in Hrun as ([] & s0 & Hemit & Hrun).
  apply bind_ok_inv in Hrun as (original & s1 & Hget & Hrun).
  apply bind_ok_inv in Hrun as (cost & s5o & Hloop & Hrun).
  apply bind_ok_inv in Hrun as ([] & s6 & Hset3 & Hret).
  injection Hret as <- <-.
  simpl for_loop in Hloop.
  apply bind_ok_inv in Hloop as (cost1 & s3o & Hplus & Hloop).
  apply bind_ok_inv in Hloop as (cost2 & s5p & Hminus & Hret).
  injection Hret as <- <-.
  apply bind_ok_inv in Hplus as ([] & s2 & Hset1 & Hloss1).
  apply bind_ok_inv in Hloss1 as (l1 & s3 & Hloss1 & Hret).
  injection Hret as <- <-.
  apply bind_ok_inv in Hminus as ([] & s4 & Hset2 & Hloss2).
  apply bind_ok_inv in Hloss2 as (l2 & s5 & Hloss2 & Hret).
  injection Hret as <- <-.
  assert (Hw0 : weights s0 = weights s) by (now injection Hemit as <-).
  assert (Hs0 : s0 = (Network.emit (GradientCheck layer_id i j eps) s).2)
    by (now rewrite Hemit).
  rewrite get_weight_run in Hget. injection Hget as Hread <-.
  rewrite Hw0 in Hread.
  pose proof Hread as HW. unfold weight_at in HW.
  destruct (weights s !! layer_id) as [[W|]|] eqn:Hlookup; try discriminate.
  pose proof Hset1 as Hrun1. pose proof Hset2 as Hrun2.
  apply set_weight_run in Hset1 as (W0 & W1 & HW0 & Hset1 & Hw2).
  rewrite Hw0, Hlookup in HW0. injection HW0 as <-.
  pose proof (get_loss_weights x ytrue true s2) as Hw3.
  rewrite Hloss1 in Hw3. simpl in Hw3.
  apply set_weight_run in Hset2 as (W1' & W2 & HW1 & Hset2 & Hw4).
  rewrite Hw3, Hw2, Hw0 in HW1.
  rewrite list_lookup_insert_eq in HW1
    by (apply lookup_lt_is_Some; eauto).
  injection HW1 as <-.
  pose proof (get_loss_weights x ytrue true s4) as Hw5.
  rewrite Hloss2 in Hw5. simpl in Hw5.
  apply set_weight_run in Hset3 as (W2' & W3 & HW2 & Hset3 & Hw6).
  rewrite Hw5, Hw4, Hw3, Hw2, Hw0 in HW2.
  rewrite list_insert_insert_eq in HW2.
  rewrite list_lookup_insert_eq in HW2
    by (apply lookup_lt_is_Some; eauto).
  injection HW2 as <-.
  rewrite (set_item_twice _ _ _ _ _ _ Hset1) in Hset2.
  rewrite (set_item_twice _ _ _ _ _ _ Hset2) in Hset3.
  rewrite (set_item_same _ _ _ _ HW) in Hset3. injection Hset3 as <-.
  exists original, W, W1, W2, s2, s3, s4, s5, l1, l2.
  subst s0.
  repeat match goal with |- _ /\ _ => split end;
    try reflexivity; try assumption.
  - rewrite Hw4, Hw3, Hw2, Hw0. now rewrite list_insert_insert_eq.
  - rewrite Hw6, Hw5, Hw4, Hw3, Hw2, Hw0.
    rewrite !list_insert_insert_eq. now apply list_insert_id.
Qed.

(** A check of one weight that returns has put the weight back. *)
Lemma gradient_check_weights {E : Externals}
    (x ytrue : ndarray) (eps : Q) (layer_id : nat) (weight_idx : nat * nat)
    (s s' : Network.t) (gradient : option Q) :
  Network.gradient_check x ytrue eps layer_id weight_idx s
  = (Ok gradient, s') ->
  weights s' = weights s.
Proof.
  destruct weight_idx as [i j]. intros Hrun.
  destruct (gradient_check_run x ytrue eps layer_id i j s s' gradient Hrun)
    as (w0 & W & W1 & W2 & s2 & s3 & s4 & s5 & l1 & l2 & H).
  tauto.
Qed.

(** ** The gradient checker, when the loss raises *)

Lemma set_item_in_range (A : ndarray) (i j : nat) (q v : Q) :
  get_item A i j = Ok q -> exists A', set_item A i j v = Ok A'.
Proof.
  unfold get_item, set_item.
  destruct ((i <? nrows A)%nat && (j <? ncols A)%nat); [|discriminate].
  intros _. now eexists.
Qed.

(** Reading back the element just written. *)
Lemma get_item_set_item (A A' : ndarray) (i j : nat) (v : Q) :
  well_shaped A = true ->
  set_item A i j v = Ok A' -> get_item A' i j = Ok v.
Proof.
  unfold well_shaped, set_item, get_item. intros Hshape.
  apply andb_prop in Hshape as [Hrows Hcols].
  apply Nat.eqb_eq in Hrows.
  destruct ((i <? nrows A)%nat && (j <? ncols A)%nat) eqn:Hrange;
    [|discriminate].
  intros [= <-]. cbn [nrows ncols]. rewrite Hrange. f_equal.
  apply andb_prop in Hrange as [Hi Hj].
  apply Nat.ltb_lt in Hi, Hj.
  destruct (data A !! i) as [row|] eqn:Hrow;
    [|apply lookup_ge_None in Hrow; lia].
  assert (Hlen : length row = ncols A).
  { rewrite forallb_forall in Hcols. apply Nat.eqb_eq, Hcols.
    apply list_elem_of_In. eapply list_elem_of_lookup_2; eauto. }
  unfold item; cbn [data].
  rewrite (nth_lookup_Some _ _ [] (<[j := v]> row))
    by (now rewrite list_lookup_alter_eq, Hrow).
  apply nth_lookup_Some. apply list_lookup_insert_eq. lia.
Qed.

(** C3, as the code has it.  [gradient_check] puts the weight back in the
    statement that follows its loop, and nowhere else.
    - A call that returns has restored the weight it perturbed: the weight
      arrays of all layers are those of before the call, entry for entry,
      and so is the element read back at [weight_idx].
    - A call that raises on an element it could read has been left by an
      evaluation of the loss: the exception is the one [get_loss] raised,
      at the weight perturbed by [sign * eps] for [sign] one of [+1] and
      [-1]; nothing is restored on the way out: the weight array is the
      one of before the call with [original + sign * eps] assigned at
      [weight_idx], which is what reading the element gives, and that
      differs from [original] unless [eps] is zero.  The other weight
      arrays are untouched. *)
Theorem gradient_check_restores_only_on_return {E : Externals}
    (x ytrue : ndarray) (eps : Q) (layer_id i j : nat)
    (s s' : Network.t) (r : result (option Q)) :
  Network.gradient_check x ytrue eps layer_id (i, j) s = (r, s') ->
  match r with
  | Ok _ =>
      weights s' = weights s
      /\ (Network.get_weight layer_id i j s').1
         = (Network.get_weight layer_id i j s).1
      /\ exists original,
           (Network.get_weight layer_id i j s').1 = Ok original
  | Raise e =>
      forall original,
        (Network.get_weight layer_id i j s).1 = Ok original ->
        exists (sign : Q) (s1 : Network.t) (W W' : ndarray),
          (sign = 1 \/ sign = -1)%Q
          /\ Network.get_loss x ytrue true s1 = (Raise e, s')
          /\ weights s !! layer_id = Some (Some W)
          /\ set_item W i j (original + sign * eps)%Q = Ok W'
          /\ weights s1 = <[layer_id := Some W']> (weights s)
          /\ weights s' = <[layer_id := Some W']> (weights s)
          /\ (well_shaped W = true ->
              (Network.get_weight layer_id i j s').1
              = Ok (original + sign * eps)%Q)
          /\ (~ (eps == 0)%Q -> ~ (original + sign * eps == original)%Q)
  end.
Proof.
  intros Hrun. destruct r as [gradient|e].
  - exact (gradient_check_restores_on_return x ytrue eps layer_id (i, j)
             s s' gradient Hrun).
  - intros original Horig.
    rewrite get_weight_run in Horig. cbn [fst] in Horig.
    pose proof Horig as HW. unfold weight_at in HW.
    destruct (weights s !! layer_id) as [[W|]|] eqn:Hlookup; try discriminate.
    destruct (set_item_in_range W i j original (original + 1 * eps)%Q HW)
      as [W1 Hset1].
    destruct (set_item_in_range W i j original (original + -1 * eps)%Q HW)
      as [W2 Hset2].
    assert (Hlen : (layer_id < length (weights s))%nat)
      by (eapply lookup_lt_Some; eauto).
    (* what the perturbed array reads as *)
    assert (Hread : forall (sign : Q) (W' : ndarray) (t : Network.t),
               set_item W i j (original + sign * eps)%Q = Ok W' ->
               weights t = <[layer_id := Some W']> (weights s) ->
               well_shaped W = true ->
               (Network.get_weight layer_id i j t).1
               = Ok (original + sign * eps)%Q).
    { intros sign W' t Hset Ht Hshape.
      rewrite get_weight_run. cbn [fst]. unfold weight_at.
      rewrite Ht, list_lookup_insert_eq by exact Hlen.
      now apply (get_item_set_item W). }
    unfold Network.gradient_check, Network.emit in Hrun.
    rewrite bind_modify in Hrun.
    set (s0 := Network.set_trace _ s) in Hrun.
    assert (Hw0 : weights s0 = weights s) by reflexivity.
    assert (Hget : Network.get_weight layer_id i j s0 = (Ok original, s0)).
    { rewrite get_weight_run, Hw0. unfold weight_at. now rewrite Hlookup, HW. }
    rewrite (bind_ok _ _ _ _ _ Hget) in Hrun.
    assert (HW0 : weights s0 !! layer_id = Some (Some W))
      by (now rewrite Hw0).
    destruct (set_weight_ok layer_id i j _ s0 W W1 HW0 Hset1) as [s1 Hsw1].
    pose proof (set_weight_run _ _ _ _ _ _ Hsw1) as (Wa & Wb & Ha & Hb & Hw1).
    rewrite HW0 in Ha. injection Ha as <-.
    rewrite Hset1 in Hb. injection Hb as <-. rewrite Hw0 in Hw1.
    simpl for_loop in Hrun. unfold bind, ret in Hrun.
    rewrite Hsw1 in Hrun. cbv beta iota in Hrun.
    pose proof (get_loss_weights x ytrue true s1) as Hw2.
    destruct (Network.get_loss x ytrue true s1) as [[l1|e1] s2] eqn:Hl1;
      cbn [snd] in Hw2; cbv beta iota in Hrun.
    + assert (HW1 : weights s2 !! layer_id = Some (Some W1))
        by (rewrite Hw2, Hw1; now apply list_lookup_insert_eq).
      assert (Hset2' : set_item W1 i j (original + -1 * eps)%Q = Ok W2)
        by (rewrite (set_item_twice _ _ _ _ _ _ Hset1); exact Hset2).
      destruct (set_weight_ok layer_id i j _ s2 W1 W2 HW1 Hset2')
        as [s3 Hsw2].
      pose proof (set_weight_run _ _ _ _ _ _ Hsw2)
        as (Wa & Wb & Ha & Hb & Hw3).
      rewrite HW1 in Ha. injection Ha as <-.
      rewrite Hset2' in Hb. injection Hb as <-.
      rewrite Hw2, Hw1, list_insert_insert_eq in Hw3.
      rewrite Hsw2 in Hrun. cbv beta iota in Hrun.
      pose proof (get_loss_weights x ytrue true s3) as Hw4.
      destruct (Network.get_loss x ytrue true s3) as [[l2|e2] s4] eqn:Hl2;
        cbn [snd] in Hw4; cbv beta iota in Hrun.
      * assert (HW2 : weights s4 !! layer_id = Some (Some W2))
          by (rewrite Hw4, Hw3; now apply list_lookup_insert_eq).
        assert (Hset3 : set_item W2 i j original = Ok W).
        { rewrite (set_item_twice _ _ _ _ _ _ Hset2).
          now apply set_item_same. }
        destruct (set_weight_ok layer_id i j _ s4 W2 W HW2 Hset3)
          as [s5 Hsw3].
        rewrite Hsw3 in Hrun. discriminate Hrun.
      * injection Hrun as <- <-.
        exists (-1)%Q, s3, W, W2.
        split; [now right|]. split; [exact Hl2|].
        split; [reflexivity|]. split; [exact Hset2|].
        split; [exact Hw3|]. split; [now rewrite Hw4|].
        split; [intros Hshape; apply (Hread _ W2); auto; now rewrite Hw4|].
        intros Hne Heq. apply Hne. lra.
    + injection Hrun as <- <-.
      exists 1%Q, s1, W, W1.
      split; [now left|]. split; [exact Hl1|].
      split; [reflexivity|]. split; [exact Hset1|].
      split; [exact Hw1|]. split; [now rewrite Hw2|].
      split; [intros Hshape; apply (Hread _ W1); auto; now rewrite Hw2|].
      intros Hne Heq. apply Hne. lra.
Qed.

(** A check of the first weight of the sample hidden layer: against the
    sample targets it returns, and the weights are those of before;
    against targets of three examples for inputs of four the loss raises
    at its first evaluation, and the weight reads [1 + eps]. *)
Lemma gradient_check_restores_only_on_return_witness :
  weights (Network.gradient_check (E := sample_externals) sample_x sample_y
             (1 # 100) 1 (0, 0)%nat sample_network).2
  = weights sample_network
  /\ exists sign : Q,
       (sign = 1 \/ sign = -1)%Q
       /\ (Network.get_weight 1 0 0
             (Network.gradient_check (E := sample_externals) sample_x
                (matrix [[1; 2; 3]]%Q) (1 # 100) 1 (0, 0)%nat
                sample_network).2).1
          = Ok (1 + sign * (1 # 100))%Q.
Proof.
  split.
  - destruct (Network.gradient_check (E := sample_externals) sample_x
                sample_y (1 # 100) 1 (0, 0)%nat sample_network)
      as [r s'] eqn:Hrun.
    assert (Hok : exists gradient, r = Ok gradient).
    { replace r with (r, s').1 by reflexivity. rewrite <- Hrun.
      vm_compute. now eexists. }
    destruct Hok as [gradient ->].
    exact (proj1 (gradient_check_restores_only_on_return _ _ _ _ _ _ _ _ _
                    Hrun)).
  - destruct (Network.gradient_check (E := sample_externals) sample_x
                (matrix [[1; 2; 3]]%Q) (1 # 100) 1 (0, 0)%nat sample_network)
      as [r s'] eqn:Hrun.
    assert (Hraise : r = Raise ValueError).
    { replace r with (r, s').1 by reflexivity. rewrite <- Hrun.
      vm_compute. reflexivity. }
    subst r.
    destruct (gradient_check_restores_only_on_return _ _ _ _ _ _ _ _ _
                Hrun 1%Q ltac:(vm_compute; reflexivity))
      as (sign & s1 & W & W' & Hsign & _ & HW & _ & _ & _ & Hread & _).
    exists sign. split; [exact Hsign|]. cbn [snd]. apply Hread.
    vm_compute in HW. injection HW as <-. reflexivity.
Defined.

(** C3, as the claim has it, fails.  On the sample network, with targets
    of three examples for inputs of four, the loss raises at its first
    evaluation; [gradient_check] raises with it, and the weight it had
    perturbed from 1 to 1.01 stays at 1.01. *)
Lemma gradient_check_leaves_weight_on_raise :
  (Network.gradient_check (E := sample_externals) sample_x
     (matrix [[1; 2; 3]]%Q) (1 # 100) 1 (0, 0)%nat sample_network).1
  = Raise ValueError
  /\ (Network.get_weight 1 0 0 sample_network).1 = Ok 1%Q
  /\ (Network.get_weight 1 0 0
        (Network.gradient_check (E := sample_externals) sample_x
           (matrix [[1; 2; 3]]%Q) (1 # 100) 1 (0, 0)%nat sample_network).2).1
     = Ok (101 # 100)%Q
  /\ (Network.get_weight 1 0 0
        (Network.gradient_check (E := sample_externals) sample_x
           (matrix [[1; 2; 3]]%Q) (1 # 100) 1 (0, 0)%nat sample_network).2).1
     <> (Network.get_weight 1 0 0 sample_network).1.
Proof.
  split; [vm_compute; reflexivity|].
  split; [vm_compute; reflexivity|].
  split; [vm_compute; reflexivity|].
  vm_compute. discriminate.
Qed.

(** What a step that writes no weight leaves of the weights. *)
Ltac weights_kept H :=
  match type of H with
  | ?m ?s = (_, ?s1) =>
      let Hw := fresh "Hw" in
      assert (Hw : weights s1 = weights s)
        by (eapply (invariant_ok (layers_read layer_w (weights s)) m s s1);
            [ first [ apply randint_read
                    | apply choice_read
                    | apply at_layer_read; apply on_dense_keeps; intros;
                      invariant_auto
                    | apply invariant_modify; now intros ]
            | reflexivity
            | exact H ])
  end.

Lemma gradient_checks_weights {E : Externals}
    (x ytrue : ndarray) (checks : nat) (eps : Q) (s s' : Network.t)
    (v : option Q) :
  Network.gradient_checks x ytrue checks eps s = (Ok v, s') ->
  weights s' = weights s.
Proof.
  unfold Network.gradient_checks. intros Hrun.
  apply bind_ok_inv in Hrun as (gs & s1 & Hloop & Hret).
  injection Hret as _ <-.
  eapply (for_loop_ok_keeps weights) in Hloop; [exact Hloop|].
  clear. intros check gs s gs' s' Hbody.
  rewrite bind_get in Hbody.
  apply bind_ok_inv in Hbody as (layer_id & s1 & H1 & Hbody).
  apply bind_ok_inv in Hbody as (w & s2 & H2 & Hbody).
  apply bind_ok_inv in Hbody as (i & s3 & H3 & Hbody).
  apply bind_ok_inv in Hbody as (j & s4 & H4 & Hbody).
  apply bind_ok_inv in Hbody as (g & s5 & H5 & Hbody).
  apply bind_ok_inv in Hbody as (bp & s6 & H6 & Hret).
  injection Hret as _ <-.
  weights_kept H1. weights_kept H2. weights_kept H3. weights_kept H4.
  apply gradient_check_weights in H5. weights_kept H6.
  congruence.
Qed.

Lemma complete_check_layer_weights {E : Externals}
    (x y : ndarray) (eps : Q) (k : nat) (s s' : Network.t) :
  Network.complete_check_layer x y eps k s = (Ok tt, s') ->
  weights s' = weights s.
Proof.
  intros Hbody. unfold Network.complete_check_layer in Hbody.
  apply bind_ok_inv in Hbody as (w & s1 & H1 & Hbody).
  apply bind_ok_inv in Hbody as (gm & s2 & Hloop & Hbody).
  apply bind_ok_inv in Hbody as (dw & s3 & H3 & Hbody).
  apply bind_ok_inv in Hbody as (diff & s4 & H4 & Hbody).
  apply bind_ok_inv in Hbody as (dw' & s5 & H5 & Hbody).
  rewrite bind_modify, bind_get in Hbody.
  apply bind_ok_inv in Hbody as (grads & s6 & H6 & Hret).
  injection Hret as <-.
  weights_kept H1. weights_kept H3. weights_kept H5.
  assert (Hw2 : weights s2 = weights s1).
  { eapply (for_loop_ok_keeps weights) in Hloop; [exact Hloop|].
    clear. intros idx gm s gm' s' Hbody.
    apply bind_ok_inv in Hbody as (layer_id & s1 & H1 & Hbody).
    apply bind_ok_inv in Hbody as (g & s2 & H2 & Hbody).
    weights_kept H1. apply gradient_check_weights in H2.
    destruct g as [v|]; [|discriminate].
    unfold lift in Hbody. injection Hbody as _ <-. congruence. }
  injection H4 as _ <-.
  destruct (Network.grads_ _) in H6; [|discriminate].
  injection H6 as _ <-. change (weights s5 = weights s). congruence.
Qed.

Lemma complete_gradient_check_weights {E : Externals}
    (x y : ndarray) (eps : Q) (s s' : Network.t) :
  Network.complete_gradient_check x y eps s = (Ok tt, s') ->
  weights s' = weights s.
Proof.
  unfold Network.complete_gradient_check. intros Hrun.
  rewrite bind_modify, bind_get in Hrun.
  eapply (for_each_ok_keeps weights) in Hrun; [exact Hrun|].
  intros k t t'. apply complete_check_layer_weights.
Qed.

(** A layer apart from its caches: its weights, and the rest. *)
Lemma outside_forward_parts (ls ls' : list layer) :
  layer_w <$> ls' = layer_w <$> ls ->
  outside_check <$> ls' = outside_check <$> ls ->
  outside_forward <$> ls' = outside_forward <$> ls.
Proof.
  revert ls'. induction ls as [|l ls IH]; intros [|l' ls'];
    rewrite ?fmap_cons, ?fmap_nil; try discriminate; [reflexivity|].
  intros [= Hw Hws] [= Hc Hcs]. f_equal; [|now apply IH].
  destruct l as [a|d], l' as [a'|d']; try discriminate; [reflexivity|].
  simpl in *. unfold frozen_by_forward. congruence.
Qed.

(** X18.  The gradient checkers that return have restored the network.
    After a call of [gradient_checks] or of [complete_gradient_check]
    that returns, every layer holds the weights, the bias, the gradient
    buffers, the activation function and the regularizers of before the
    call: the caches [z] and [a] of the forward passes are all that
    changed in the layers. *)
Theorem gradient_checkers_restore_on_return {E : Externals}
    (x y : ndarray) (eps : Q) (checks : nat) (s : Network.t) :
  (forall v s',
     Network.gradient_checks x y checks eps s = (Ok v, s') ->
     outside_forward <$> Network.items s'
     = outside_forward <$> Network.items s)
  /\ (forall s',
        Network.complete_gradient_check x y eps s = (Ok tt, s') ->
        outside_forward <$> Network.items s'
        = outside_forward <$> Network.items s).
Proof.
  split.
  - intros v s' Hrun. apply outside_forward_parts.
    + exact (gradient_checks_weights _ _ _ _ _ _ _ Hrun).
    + apply (invariant_ok
               (layers_read outside_check (outside_check <$> Network.items s))
               (Network.gradient_checks x y checks eps) s s' (Ok v));
        [|reflexivity | exact Hrun].
      now apply (gradient_checks_read outside_check).
  - intros s' Hrun. apply outside_forward_parts.
    + exact (complete_gradient_check_weights _ _ _ _ _ Hrun).
    + apply (invariant_ok
               (layers_read outside_check (outside_check <$> Network.items s))
               (Network.complete_gradient_check x y eps) s s' (Ok tt));
        [|reflexivity | exact Hrun].
      now apply (complete_gradient_check_read outside_check).
Qed.

(** Three random checks on the sample network. *)
Lemma gradient_checkers_restore_on_return_witness :
  outside_forward
    <$> Network.items
          (Network.gradient_checks (E := sample_externals) sample_x sample_y
             3 (1 # 100) trained_network).2
  = outside_forward <$> Network.items trained_network.
Proof.
  destruct (Network.gradient_checks (E := sample_externals) sample_x sample_y
              3 (1 # 100) trained_network) as [[v|e] s'] eqn:Hrun.
  - exact (proj1 (gradient_checkers_restore_on_return sample_x sample_y
                    (1 # 100) 3 trained_network) v s' Hrun).
  - vm_compute in Hrun. discriminate Hrun.
Defined.

(** X19.  [gradient_checks] on a network without a layer after the input
    placeholder: asked for one check or more, it raises the [ValueError]
    of [np.random.randint(1, 1)] before anything else, and the network,
    its random generator included, is untouched. *)
Theorem gradient_checks_without_layers {E : Externals}
    (x y : ndarray) (checks : nat) (eps : Q) (s : Network.t) :
  (length (Network.items s) <= 1)%nat ->
  checks <> 0%nat ->
  Network.gradient_checks x y checks eps s = (Raise ValueError, s).
Proof.
  intros Hlen Hchecks. destruct checks as [|n]; [contradiction|].
  unfold Network.gradient_checks. simpl for_loop.
  unfold bind at 1. unfold bind at 1. rewrite bind_get.
  unfold Network.randint.
  replace (1 <? length (Network.items s))%nat with false
    by (symmetry; apply Nat.ltb_ge; lia).
  reflexivity.
Qed.

(** A new network, asked for three checks. *)
Lemma gradient_checks_without_layers_witness :
  Network.gradient_checks (E := sample_externals) sample_x sample_y 3
    eps_default (Network.__init__ false)
  = (Raise ValueError, Network.__init__ false).
Proof.
  apply (gradient_checks_without_layers (E := sample_externals)).
  - simpl. lia.
  - discriminate.
Defined.

(** ** The backward pass over the hidden layers *)

Lemma bind_assoc {S A B C} (m : M S A) (k : A -> M S B) (k' : B -> M S C)
    (s : S) :
  bind (bind m k) k' s = bind m (fun a => bind (k a) k') s.
Proof. unfold bind. now destruct (m s) as [[a|e] s1]. Qed.

Lemma for_loop_app {S A L} (xs ys : list A) (body : A -> L -> M S L)
    (l : L) (s : S) :
  for_loop (xs ++ ys) body l s
  = bind (for_loop xs body l) (fun l' => for_loop ys body l') s.
Proof.
  revert l s. induction xs as [|x xs IH]; intros l s; simpl.
  - reflexivity.
  - rewrite bind_assoc. apply bind_ext. intros l1 s1. apply IH.
Qed.

(** Reading an attribute of a layer leaves the network as it is. *)
Lemma at_layer_pure {A} (i : Z) (m : M layer A) (s0 : Network.t) :
  (forall l, (m l).2 = l) ->
  invariant (fun s => s = s0) (Network.at_layer i m).
Proof.
  intros Hm s ->. unfold Network.at_layer.
  destruct (py_index _ _) as [k|e]; [|reflexivity].
  destruct (Network.items s0 !! k) as [l|] eqn:Hl; [|reflexivity].
  specialize (Hm l). destruct (m l) as [r l']; simpl in *. subst l'.
  now rewrite list_insert_id, set_items_same.
Qed.

Lemma layer_a_pure (l : layer) : (layer_a l).2 = l.
Proof. destruct l as [[a|]|d]; try reflexivity. simpl. now destruct (Dense.a d). Qed.

Lemma output_error_pure {E : Externals} (y : ndarray) (s0 : Network.t) :
  invariant (fun s => s = s0) (Network.output_error y).
Proof.
  unfold Network.output_error. invariant_auto; apply at_layer_pure.
  - apply layer_a_pure.
  - now intros [?|?].
  - intros [?|d0]; [reflexivity|]. simpl. unfold bind, get, attr.
    now destruct (Dense.z d0).
Qed.

(** The last layer after a backward pass over it that returns. *)
Lemma backprop_last_layer_ok {E : Externals} (x y : ndarray)
    (s s1 : Network.t) (front : list layer) (d_out : Dense.t)
    (deltaL : ndarray) :
  Network.items s = front ++ [DenseLayer d_out] ->
  Network._backprop_last_layer x y s = (Ok deltaL, s1) ->
  exists d_out',
    s1 = Network.set_items (front ++ [DenseLayer d_out']) s
    /\ frozen_by_backward d_out' = frozen_by_backward d_out.
Proof.
  intros Hitems Hrun. unfold Network._backprop_last_layer in Hrun.
  apply bind_ok_inv in Hrun as (delta & s2 & Herr & Hrun).
  pose proof (invariant_ok _ _ _ _ _ (output_error_pure y s) eq_refl Herr)
    as Hs2.
  simpl in Hs2. subst s2.
  apply bind_ok_inv in Hrun as (inv & s3 & Hinv & Hrun).
  injection Hinv as _ <-.
  apply bind_ok_inv in Hrun as (a_prev & s4 & Ha & Hrun).
  pose proof (invariant_ok _ _ _ _ _
                (at_layer_pure (-2) layer_a s layer_a_pure) eq_refl Ha)
    as Hs4.
  simpl in Hs4. subst s4.
  apply bind_ok_inv in Hrun as (grad & s5 & Hgrad & Hrun).
  injection Hgrad as _ <-.
  apply bind_ok_inv in Hrun as ([] & s6 & Hdw & Hrun).
  rewrite (at_layer_last _ _ _ _ Hitems) in Hdw. simpl in Hdw.
  injection Hdw as <-.
  apply bind_ok_inv in Hrun as ([] & s7 & Hdb & Hret).
  erewrite at_layer_last in Hdb by reflexivity. simpl in Hdb.
  injection Hdb as <-. injection Hret as _ <-.
  eexists. split; reflexivity.
Qed.

Lemma backward_step_keeps_w {E : Externals}
    (a_next w_prev error_prev : ndarray) (d : Dense.t) :
  Dense.w (Dense.backward_step a_next w_prev error_prev d).2 = Dense.w d.
Proof.
  pose proof (backward_step_keeps
                (fun l => layer_w l) (fun _ _ => eq_refl) (fun _ _ => eq_refl)
                a_next w_prev error_prev (Some (Dense.w d)) d eq_refl) as Hw.
  simpl in Hw. now injection Hw.
Qed.

Lemma bind_ret_r {S A} (m : M S A) (s : S) :
  bind m (fun a => ret a) s = m s.
Proof. unfold bind, ret. now destruct (m s) as [[a|e] s1]. Qed.

(** A method that leaves the layer as it is, run on the layer at index
    [length pre]. *)
Lemma at_layer_read_middle {A} (m : M layer A) (pre post : list layer)
    (l : layer) (s : Network.t) :
  Network.items s = pre ++ l :: post ->
  (m l).2 = l ->
  Network.at_layer (Z.of_nat (length pre)) m s = ((m l).1, s).
Proof.
  intros Hitems Hm.
  rewrite (at_layer_middle m pre post l l (m l).1 s Hitems).
  - now rewrite <- Hitems, set_items_same.
  - destruct (m l) as [r l']. simpl in *. now subst l'.
Qed.

(** The loop of [backpropagation] over a block of hidden layers. *)
Lemma hidden_loop {E : Externals} (w_after : ndarray) (post : list layer)
    (d_after : Dense.t) (hidden : list Dense.t) :
  Dense.w d_after = w_after ->
  forall (pre : list layer) (before : layer) (error : ndarray)
         (s : Network.t),
    Network.items s
    = pre ++ before :: (DenseLayer <$> hidden) ++ DenseLayer d_after :: post ->
    for_loop (rev (seq (S (length pre)) (length hidden)))
      (fun l error_prev =>
         let* a_next := Network.at_layer (Z.of_nat l - 1) layer_a in
         let* w_prev :=
           Network.at_layer (Z.of_nat l + 1) (on_dense (gets Dense.w)) in
         Network.at_layer (Z.of_nat l)
           (on_dense (Dense.backward_step a_next w_prev error_prev)))
      error s
    = ((backward_hidden before hidden w_after error).1,
       Network.set_items
         (pre ++ before
              :: (DenseLayer <$> (backward_hidden before hidden w_after error).2)
              ++ DenseLayer d_after :: post) s).
Proof.
  intros Hafter.
  induction hidden as [|d rest IH]; intros pre before error s Hitems.
  - simpl in *. unfold ret. now rewrite <- Hitems, set_items_same.
  - rewrite fmap_cons in Hitems. cbn [length seq rev].
    rewrite for_loop_app.
    specialize (IH (pre ++ [before]) (DenseLayer d) error s).
    rewrite length_app in IH. cbn [length] in IH.
    rewrite Nat.add_1_r, <- !app_assoc in IH. cbn [app] in IH.
    specialize (IH Hitems).
    unfold bind at 1. rewrite IH. clear IH.
    cbn [backward_hidden].
    destruct (backward_hidden (DenseLayer d) rest w_after error)
      as [[err'|e] rest'] eqn:Hrest; cbn [fst snd].
    2: { now rewrite fmap_cons. }
    set (s_mid := Network.set_items _ s).
    assert (Hmid : Network.items s_mid
                   = pre ++ before :: DenseLayer d
                         :: (DenseLayer <$> rest') ++ DenseLayer d_after :: post)
      by reflexivity.
    cbn [for_loop]. rewrite bind_ret_r.
    replace (Z.of_nat (S (length pre)) - 1)%Z with (Z.of_nat (length pre))
      by lia.
    replace (Z.of_nat (S (length pre)) + 1)%Z
      with (Z.of_nat (length (pre ++ [before; DenseLayer d])))
      by (rewrite length_app; simpl; lia).
    replace (Z.of_nat (S (length pre)))
      with (Z.of_nat (length (pre ++ [before])))
      by (rewrite length_app; simpl; lia).
    unfold bind at 1.
    rewrite (at_layer_read_middle layer_a pre _ before s_mid Hmid
               (layer_a_pure before)).
    destruct (layer_a before).1 as [a_next|e];
      [|cbn [fst snd]; subst s_mid; now rewrite fmap_cons].
    assert (Hw : Network.at_layer
                   (Z.of_nat (length (pre ++ [before; DenseLayer d])))
                   (on_dense (gets Dense.w)) s_mid
                 = (Ok match rest' with
                       | [] => w_after
                       | d_next :: _ => Dense.w d_next
                       end, s_mid)).
    { destruct rest' as [|d_next rest''].
      - rewrite (at_layer_read_middle _ (pre ++ [before; DenseLayer d]) post
                   (DenseLayer d_after) s_mid); [|now rewrite <- app_assoc|];
          [now rewrite <- Hafter | reflexivity].
      - rewrite (at_layer_read_middle _ (pre ++ [before; DenseLayer d])
                   ((DenseLayer <$> rest'') ++ DenseLayer d_after :: post)
                   (DenseLayer d_next) s_mid);
          [reflexivity | now rewrite <- app_assoc | reflexivity]. }
    unfold bind at 1. rewrite Hw. clear Hw.
    destruct (Dense.backward_step a_next _ err' d) as [r' d'] eqn:Hstep.
    rewrite (at_layer_dense _ (pre ++ [before])
               ((DenseLayer <$> rest') ++ DenseLayer d_after :: post)
               d d' r' s_mid); [| now rewrite <- app_assoc | exact Hstep].
    cbn [fst snd]. subst s_mid. rewrite set_items_twice, fmap_cons.
    now rewrite <- app_assoc.
Qed.

(** X20.  [backpropagation] steps the hidden layers from the last to the
    first.  On a network of dense layers after a first layer, once the
    error [deltaL] of the output layer is computed and its gradients
    stored, the loop calls [backward_step] on every layer between the
    first and the last, in decreasing order of index; the layer of index
    [l] is given the activation cached by the layer [l - 1] (the input
    held by the placeholder for [l = 1]), the weights of the layer
    [l + 1] and the error returned by the step on the layer [l + 1]
    ([deltaL] for the last hidden layer).  The first exception ends the
    pass, the layers before it not stepped; the first layer is never
    stepped, and the output layer is not touched again. *)
Theorem backpropagation_unrolls {E : Externals} (x y : ndarray)
    (s s1 : Network.t) (before : layer) (hidden : list Dense.t)
    (d_out : Dense.t) (deltaL : ndarray) :
  Network.items s = before :: (DenseLayer <$> hidden) ++ [DenseLayer d_out] ->
  Network._backprop_last_layer x y s = (Ok deltaL, s1) ->
  exists d_out',
    Network.items s1
    = before :: (DenseLayer <$> hidden) ++ [DenseLayer d_out']
    /\ frozen_by_backward d_out' = frozen_by_backward d_out
    /\ (Network.backpropagation x y s).1
       = outcome (backward_hidden before hidden (Dense.w d_out) deltaL).1
    /\ Network.items (Network.backpropagation x y s).2
       = before
           :: (DenseLayer
                 <$> (backward_hidden before hidden (Dense.w d_out) deltaL).2)
           ++ [DenseLayer d_out'].
Proof.
  intros Hitems Hlast.
  destruct (backprop_last_layer_ok x y s s1
              (before :: (DenseLayer <$> hidden)) d_out deltaL Hitems Hlast)
    as (d_out' & -> & Hfrozen).
  exists d_out'. split; [reflexivity|]. split; [exact Hfrozen|].
  assert (Hw : Dense.w d_out' = Dense.w d_out)
    by (unfold frozen_by_backward in Hfrozen; congruence).
  assert (Hrun : Network.backpropagation x y s
                 = (outcome
                      (backward_hidden before hidden (Dense.w d_out) deltaL).1,
                    Network.set_items
                      (before
                         :: (DenseLayer
                               <$> (backward_hidden before hidden
                                      (Dense.w d_out) deltaL).2)
                         ++ [DenseLayer d_out'])
                      s)).
  { unfold Network.backpropagation.
    erewrite bind_ok by exact Hlast. rewrite bind_get.
    cbn [Network.items Network.set_items].
    replace (length ((before :: (DenseLayer <$> hidden))
                     ++ [DenseLayer d_out']) - 2)%nat
      with (length hidden)
      by (rewrite length_app, length_cons, length_fmap; simpl; lia).
    unfold bind at 1.
    rewrite (hidden_loop (Dense.w d_out) [] d_out' hidden Hw [] before
               deltaL); [|reflexivity].
    cbn [fst snd app].
    now destruct (backward_hidden before hidden (Dense.w d_out) deltaL).1. }
  rewrite Hrun. split; reflexivity.
Qed.

(** The backward pass of the sample network after a forward pass. *)
Lemma backpropagation_unrolls_witness :
  (Network.backpropagation (E := sample_externals) sample_x sample_y
     forwarded_network).1
  = Ok tt.
Proof.
  destruct (Network._backprop_last_layer (E := sample_externals) sample_x
              sample_y forwarded_network) as [[deltaL|e] s1] eqn:Hlast;
    [|vm_compute in Hlast; discriminate Hlast].
  destruct (backpropagation_unrolls (E := sample_externals) sample_x sample_y
              forwarded_network s1 (InputLayer (Some sample_x))
              (removelast (dense_layers (Network.items forwarded_network)))
              (List.last (dense_layers (Network.items forwarded_network))
                 (sample_output None None))
              deltaL)
    as (d_out' & _ & _ & Hres & _).
  - vm_compute. reflexivity.
  - exact Hlast.
  - rewrite Hres. vm_compute in Hlast. injection Hlast as <- _.
    vm_compute. reflexivity.
Defined.

(** ** What the forward pass reads *)

Section Model.
Context {E : Externals}.
Variable with_loss : bool.

Lemma respects_ret {A} (a : A) : respects_model with_loss (ret a).
Proof. now intros s s' Hs. Qed.

Lemma respects_lift {A} (r : result A) : respects_model with_loss (lift r).
Proof. now intros s s' Hs. Qed.

Lemma respects_bind {A B} (m : M Network.t A) (k : A -> M Network.t B) :
  respects_model with_loss m -> (forall a, respects_model with_loss (k a)) ->
  respects_model with_loss (bind m k).
Proof.
  intros Hm Hk s s' Hs. unfold bind.
  destruct (Hm s s' Hs) as [Hr Hs1].
  destruct (m s) as [[a|e] s1], (m s') as [[a'|e'] s1']; simpl in *;
    try discriminate.
  - injection Hr as <-. now apply Hk.
  - injection Hr as <-. now split.
Qed.

Lemma respects_for_loop {A L} (xs : list A) (body : A -> L -> M Network.t L) :
  (forall x l, respects_model with_loss (body x l)) ->
  forall l, respects_model with_loss (for_loop xs body l).
Proof.
  intros Hbody. induction xs as [|x xs IH]; intros l; simpl.
  - apply respects_ret.
  - apply respects_bind; auto.
Qed.

Lemma same_model_length (s s' : Network.t) :
  same_model with_loss s s' ->
  length (Network.items s) = length (Network.items s').
Proof.
  intros [Hitems _].
  rewrite <- (length_fmap forward_inputs), Hitems. apply length_fmap.
Qed.

Lemma respects_at_layer {A} (i : Z) (m : M layer A) :
  respects_inputs m -> respects_model with_loss (Network.at_layer i m).
Proof.
  intros Hm s s' Hs. pose proof (same_model_length s s' Hs) as Hlen.
  destruct Hs as [Hitems Hloss]. unfold Network.at_layer.
  rewrite Hlen.
  destruct (py_index _ _) as [k|e]; [|now repeat split].
  pose proof (f_equal (fun ls => ls !! k) Hitems) as Hk. simpl in Hk.
  rewrite !list_lookup_fmap in Hk.
  destruct (Network.items s !! k) as [l|], (Network.items s' !! k) as [l'|];
    try discriminate; [|now repeat split].
  injection Hk as Hk. destruct (Hm l l' Hk) as [Hr Hl].
  destruct (m l) as [r l1], (m l') as [r' l1']; simpl in *.
  split; [exact Hr|]. split; [|exact Hloss]. simpl.
  now rewrite !list_fmap_insert, Hl, Hitems.
Qed.

Lemma layer_set_a_respects (a : ndarray) : respects_inputs (layer_set_a a).
Proof. now intros [a0|d] [a0'|d'] Hl. Qed.

Lemma layer_call_respects (a : ndarray) : respects_inputs (layer_call a).
Proof.
  intros [a0|d] [a0'|d'] Hl; try discriminate; [now split|].
  injection Hl as Hg Hw Hb.
  unfold layer_call, on_dense, Dense.forward, bind, get, lift, modify, ret.
  rewrite Hg, Hw, Hb.
  destruct (np_dot (Dense.w d') a) as [wa|e]; simpl;
    [|split; [reflexivity | congruence]].
  destruct (np_add wa (Dense.b d')) as [zc|e]; simpl;
    split; first [reflexivity | congruence].
Qed.

Lemma forward_step_respects (a : ndarray) :
  respects_model with_loss (Network.forward_step a).
Proof.
  unfold Network.forward_step. apply respects_bind.
  - apply respects_at_layer, layer_set_a_respects.
  - intros _ s s' Hs. rewrite !bind_get.
    rewrite <- (same_model_length s s' Hs).
    apply respects_for_loop; [|exact Hs].
    intros k a'. apply respects_at_layer, layer_call_respects.
Qed.

End Model.

Lemma get_loss_respects {E : Externals} (x ytrue : ndarray)
    (average_examples : bool) :
  respects_model true (Network.get_loss x ytrue average_examples).
Proof.
  unfold Network.get_loss. apply respects_bind.
  - apply forward_step_respects.
  - intros ypred s s' Hs. rewrite !bind_get.
    pose proof Hs as [Hitems Hloss]. simpl in Hloss. rewrite Hloss.
    destruct (Network.loss_fct s') as [L|]; (split; [reflexivity | exact Hs]).
Qed.

(** X21.  The forward pass reads parameters only.  On two networks whose
    layers agree on activation function, weights and bias, whatever
    their caches and gradient buffers hold, [forward_step] and [predict]
    give the same value on the same input, or raise the same exception;
    compiled with the same loss, so does [get_loss].  The caches [z] and
    [a] of a layer are written by a pass and never read by the next. *)
Theorem forward_pass_reads_parameters_only {E : Externals}
    (x ytrue : ndarray) (average_examples : bool) (s s' : Network.t) :
  forward_inputs <$> Network.items s = forward_inputs <$> Network.items s' ->
  (Network.forward_step x s).1 = (Network.forward_step x s').1
  /\ (Network.predict x s).1 = (Network.predict x s').1
  /\ (Network.loss_fct s = Network.loss_fct s' ->
      (Network.get_loss x ytrue average_examples s).1
      = (Network.get_loss x ytrue average_examples s').1).
Proof.
  intros Hitems.
  assert (Hforward : (Network.forward_step x s).1
                     = (Network.forward_step x s').1)
    by (apply (forward_step_respects false x s s'); now split).
  split; [exact Hforward|]. split; [exact Hforward|].
  intros Hloss. apply (get_loss_respects x ytrue average_examples s s').
  now split.
Qed.

(** The sample network before and after a batch of training: other caches
    and gradients, the same prediction. *)
Lemma forward_pass_reads_parameters_only_witness :
  (Network.predict (E := sample_externals) sample_x sample_network).1
  = (Network.predict (E := sample_externals) sample_x trained_network).1.
Proof.
  assert (Hsame : forward_inputs <$> Network.items sample_network
                  = forward_inputs <$> Network.items trained_network)
    by (vm_compute; reflexivity).
  exact (proj1 (proj2 (forward_pass_reads_parameters_only
                         (E := sample_externals) sample_x sample_y true
                         sample_network trained_network Hsame))).
Defined.

(** ** The value of a gradient check *)

Lemma forward_inputs_parts (ls ls' : list layer) :
  layer_w <$> ls = layer_w <$> ls' ->
  bias_and_activation <$> ls = bias_and_activation <$> ls' ->
  forward_inputs <$> ls = forward_inputs <$> ls'.
Proof.
  revert ls'. induction ls as [|l ls IH]; intros [|l' ls'];
    rewrite ?fmap_cons, ?fmap_nil; try discriminate; [reflexivity|].
  intros [= Hw Hws] [= Hc Hcs]. f_equal; [|now apply IH].
  destruct l as [a|d], l' as [a'|d']; try discriminate; [reflexivity|].
  simpl in *. congruence.
Qed.

Lemma set_weight_keeps_rest (layer_id i j : nat) (v : Q) (s : Network.t) :
  bias_and_activation
    <$> Network.items (Network.set_weight layer_id i j v s).2
  = bias_and_activation <$> Network.items s
  /\ Network.loss_fct (Network.set_weight layer_id i j v s).2
     = Network.loss_fct s.
Proof.
  split.
  - now apply (set_weight_read bias_and_activation).
  - now apply (set_weight_invariant
                 (fun t => Network.loss_fct t = Network.loss_fct s)).
Qed.

Lemma get_loss_keeps_rest {E : Externals} (x ytrue : ndarray)
    (average_examples : bool) (s : Network.t) :
  bias_and_activation
    <$> Network.items (Network.get_loss x ytrue average_examples s).2
  = bias_and_activation <$> Network.items s
  /\ Network.loss_fct (Network.get_loss x ytrue average_examples s).2
     = Network.loss_fct s.
Proof.
  split.
  - now apply (get_loss_read bias_and_activation).
  - now apply (get_loss_invariant
                 (fun t => Network.loss_fct t = Network.loss_fct s)).
Qed.

(** X22.  [gradient_check] returns the central difference quotient of the
    loss in one weight.  When a call on the weight [w[i, j]] of the
    layer [layer_id] returns, its value is
    [(L(w0 + eps) - L(w0 - eps)) / (2 * eps)], where [w0] is the weight
    before the call and [L(v)] is the loss [get_loss(x, ytrue)] of the
    network as it was before the call with that one weight set to [v]:
    the second evaluation is not affected by the first, and neither
    depends on the caches or gradient buffers. *)
Theorem gradient_check_is_central_difference {E : Externals}
    (x ytrue : ndarray) (eps : Q) (layer_id i j : nat)
    (s s' : Network.t) (gradient : option Q) :
  Network.gradient_check x ytrue eps layer_id (i, j) s = (Ok gradient, s') ->
  exists (w0 : Q) (s_plus s_minus : Network.t) (l_plus l_minus : Q),
    (Network.get_weight layer_id i j s).1 = Ok w0
    /\ Network.set_weight layer_id i j (w0 + 1 * eps) s = (Ok tt, s_plus)
    /\ (Network.get_loss x ytrue true s_plus).1 = Ok l_plus
    /\ Network.set_weight layer_id i j (w0 + -1 * eps) s = (Ok tt, s_minus)
    /\ (Network.get_loss x ytrue true s_minus).1 = Ok l_minus
    /\ gradient
       = (if Qeq_bool (2 * eps) 0 then None
          else Some ((0 + 1 * l_plus + -1 * l_minus) / (2 * eps))%Q)
    /\ (forall v, gradient = Some v ->
          (v == (l_plus - l_minus) / (2 * eps))%Q).
Proof.
  intros Hrun.
  destruct (gradient_check_run x ytrue eps layer_id i j s s' gradient Hrun)
    as (w0 & W & W1 & W2 & s2 & s3 & s4 & s5 & l1 & l2 & Hlookup & Hget
        & Hset1 & Hset2 & Hrun1 & Hw2 & Hloss1 & Hrun2 & Hw4 & Hloss2
        & _ & Hg).
  destruct (set_weight_ok layer_id i j _ s W W1 Hlookup Hset1) as (sp & Hsp).
  destruct (set_weight_ok layer_id i j _ s W W2 Hlookup Hset2) as (sm & Hsm).
  (* the weights of the two networks the loss is evaluated on *)
  assert (Hwp : weights sp = weights s2).
  { pose proof Hsp as Hp.
    apply set_weight_run in Hp as (W0 & W1' & HW0 & Hset & ->).
    rewrite Hlookup in HW0. injection HW0 as <-. congruence. }
  assert (Hwm : weights sm = weights s4).
  { pose proof Hsm as Hm.
    apply set_weight_run in Hm as (W0 & W2' & HW0 & Hset & ->).
    rewrite Hlookup in HW0. injection HW0 as <-. congruence. }
  (* and what else the forward pass and the loss read of them *)
  destruct (set_weight_keeps_rest layer_id i j (w0 + 1 * eps) s)
    as [Hbp Hlp]. rewrite Hsp in Hbp, Hlp. simpl in Hbp, Hlp.
  destruct (set_weight_keeps_rest layer_id i j (w0 + -1 * eps) s)
    as [Hbm Hlm]. rewrite Hsm in Hbm, Hlm. simpl in Hbm, Hlm.
  destruct (set_weight_keeps_rest layer_id i j (w0 + 1 * eps)
              (Network.emit (GradientCheck layer_id i j eps) s).2)
    as [Hb2 Hl2]. rewrite Hrun1 in Hb2, Hl2. simpl in Hb2, Hl2.
  destruct (get_loss_keeps_rest x ytrue true s2) as [Hb3 Hl3].
  rewrite Hloss1 in Hb3, Hl3. simpl in Hb3, Hl3.
  destruct (set_weight_keeps_rest layer_id i j (w0 + -1 * eps) s3)
    as [Hb4 Hl4]. rewrite Hrun2 in Hb4, Hl4. simpl in Hb4, Hl4.
  assert (Hplus : same_model true sp s2).
  { split; [apply forward_inputs_parts|]; [exact Hwp | | ]; congruence. }
  assert (Hminus : same_model true sm s4).
  { split; [apply forward_inputs_parts|]; [exact Hwm | | ]; congruence. }
  exists w0, sp, sm, l1, l2.
  split; [rewrite get_weight_run; unfold weight_at; now rewrite Hlookup|].
  split; [exact Hsp|].
  split.
  { rewrite (proj1 (get_loss_respects x ytrue true sp s2 Hplus)).
    now rewrite Hloss1. }
  split; [exact Hsm|].
  split.
  { rewrite (proj1 (get_loss_respects x ytrue true sm s4 Hminus)).
    now rewrite Hloss2. }
  split; [exact Hg|].
  intros v Hv. rewrite Hg in Hv.
  destruct (Qeq_bool (2 * eps) 0); [discriminate|]. injection Hv as <-.
  unfold Qdiv. ring.
Qed.

(** A check of the first weight of the sample hidden layer. *)
Lemma gradient_check_is_central_difference_witness :
  exists (l_plus l_minus v : Q),
    (Network.gradient_check (E := sample_externals) sample_x sample_y
       (1 # 100) 1 (0, 0)%nat sample_network).1 = Ok (Some v)
    /\ (v == (l_plus - l_minus) / (2 * (1 # 100)))%Q.
Proof.
  destruct (Network.gradient_check (E := sample_externals) sample_x sample_y
              (1 # 100) 1 (0, 0)%nat sample_network)
    as [[gradient|e] s'] eqn:Hrun;
    [|vm_compute in Hrun; discriminate Hrun].
  destruct (gradient_check_is_central_difference (E := sample_externals)
              sample_x sample_y (1 # 100) 1 0 0 sample_network s' gradient
              Hrun)
    as (w0 & sp & sm & lp & lm & _ & _ & _ & _ & _ & Hg & Hq).
  change (Qeq_bool (2 * (1 # 100)) 0) with false in Hg. cbv iota in Hg.
  exists lp, lm. eexists. split.
  - simpl. rewrite Hg. reflexivity.
  - apply Hq. exact Hg.
Defined.

(** ** The record a complete gradient check leaves *)

Lemma for_each_ok_acc {S A} (Inv : list A -> S -> Prop)
    (body : A -> M S unit) :
  (forall x acc s s', Inv acc s -> body x s = (Ok tt, s') ->
                      Inv (acc ++ [x]) s') ->
  forall xs acc s s',
    Inv acc s -> for_each xs body s = (Ok tt, s') -> Inv (acc ++ xs) s'.
Proof.
  intros Hbody xs. induction xs as [|x xs IH]; simpl; intros acc s s' Hs Hrun.
  - injection Hrun as <-. now rewrite app_nil_r.
  - apply bind_ok_inv in Hrun as ([] & s1 & Hx & Hrun).
    replace (acc ++ x :: xs) with ((acc ++ [x]) ++ xs)
      by now rewrite <- app_assoc.
    eapply IH; [|exact Hrun]. eapply Hbody; eauto.
Qed.

Lemma for_loop_ok_acc {S A L} (P : L -> Prop) (body : A -> L -> M S L) :
  (forall x l s l' s', body x l s = (Ok l', s') -> P l -> P l') ->
  forall xs l s l' s',
    for_loop xs body l s = (Ok l', s') -> P l -> P l'.
Proof.
  intros Hbody xs. induction xs as [|x xs IH]; simpl; intros l s l' s' Hrun Hl.
  - now injection Hrun as <- _.
  - apply bind_ok_inv in Hrun as (l1 & s1 & Hx & Hrun).
    eapply IH; [exact Hrun|]. eapply Hbody; eauto.
Qed.

(** Reading the weights of the layer of index [k]. *)
Lemma read_w_ok (k : nat) (s s' : Network.t) (w : ndarray) :
  Network.at_layer (Z.of_nat k) (on_dense (gets Dense.w)) s = (Ok w, s') ->
  weights s !! k = Some (Some w) /\ s' = s.
Proof.
  unfold Network.at_layer, weights. rewrite py_index_nat, list_lookup_fmap.
  destruct (k <? length (Network.items s))%nat; [|discriminate].
  destruct (Network.items s !! k) as [[a|d]|] eqn:Hl; try discriminate.
  simpl. intros [= <- <-]. split; [reflexivity|].
  now rewrite list_insert_id, set_items_same.
Qed.

Section Grads.
Context {E : Externals}.
Variable c : option (list ndarray).

Lemma at_layer_keeps_grads {A} (i : Z) (m : M layer A) :
  invariant (fun t => Network.grads_ t = c) (Network.at_layer i m).
Proof. now apply at_layer_invariant. Qed.

Lemma gradient_check_keeps_grads (x ytrue : ndarray) (eps : Q)
    (layer_id : nat) (weight_idx : nat * nat) :
  invariant (fun t => Network.grads_ t = c)
    (Network.gradient_check x ytrue eps layer_id weight_idx).
Proof.
  apply (gradient_check_invariant (fun t => Network.grads_ t = c)
           (fun _ => True)); now intros.
Qed.

End Grads.

(** One layer of a complete gradient check that returns. *)
Lemma complete_check_layer_ok {E : Externals} (x y : ndarray) (eps : Q)
    (k : nat) (s s' : Network.t) (gs : list ndarray) :
  Network.grads_ s = Some gs ->
  Network.complete_check_layer x y eps k s = (Ok tt, s') ->
  weights s' = weights s
  /\ exists w g,
       weights s !! k = Some (Some w)
       /\ nrows g = nrows w /\ ncols g = ncols w
       /\ Network.grads_ s' = Some (gs ++ [g])
       /\ Network.n s' <> None /\ Network.d s' <> None.
Proof.
  intros Hgs Hbody.
  pose proof (complete_check_layer_weights x y eps k s s' Hbody)
    as Hweights.
  split; [exact Hweights|].
  unfold Network.complete_check_layer in Hbody.
  apply bind_ok_inv in Hbody as (w & s1 & H1 & Hbody).
  apply read_w_ok in H1 as [Hw ->].
  apply bind_ok_inv in Hbody as (gm & s2 & Hloop & Hbody).
  assert (Hshape : nrows gm = nrows w /\ ncols gm = ncols w).
  { eapply (for_loop_ok_acc
              (fun g => nrows g = nrows w /\ ncols g = ncols w))
      in Hloop; [exact Hloop | | now split].
    clear. intros idx g s g' s' Hbody [Hr Hc].
    apply bind_ok_inv in Hbody as (layer_id & s1 & _ & Hbody).
    apply bind_ok_inv in Hbody as (gr & s2 & _ & Hbody).
    destruct gr as [v|]; [|discriminate].
    unfold lift in Hbody. injection Hbody as Hset _.
    apply set_item_shape in Hset as [Hr' Hc']. split; congruence. }
  assert (Hg2 : Network.grads_ s2 = Some gs).
  { eapply (for_loop_ok_keeps Network.grads_) in Hloop;
      [now rewrite Hloop|].
    clear. intros idx g s g' s' Hbody.
    apply bind_ok_inv in Hbody as (layer_id & s1 & H1 & Hbody).
    apply bind_ok_inv in Hbody as (gr & s2 & H2 & Hbody).
    destruct gr as [v|]; [|discriminate].
    unfold lift in Hbody. injection Hbody as _ <-.
    pose proof (invariant_ok _ _ _ _ _
                  (at_layer_keeps_grads (Network.grads_ s) _ _) eq_refl H1)
      as G1.
    pose proof (invariant_ok _ _ _ _ _
                  (gradient_check_keeps_grads (Network.grads_ s1) x y eps
                     layer_id idx) eq_refl H2) as G2.
    simpl in G1, G2. congruence. }
  apply bind_ok_inv in Hbody as (dw & s3 & H3 & Hbody).
  apply bind_ok_inv in Hbody as (diff & s4 & H4 & Hbody).
  apply bind_ok_inv in Hbody as (dw' & s5 & H5 & Hbody).
  rewrite bind_modify, bind_get in Hbody.
  apply bind_ok_inv in Hbody as (grads & s6 & H6 & Hret).
  injection Hret as <-.
  pose proof (invariant_ok _ _ _ _ _
                (at_layer_keeps_grads (Network.grads_ s2) _ _) eq_refl H3)
    as G3.
  injection H4 as _ <-.
  pose proof (invariant_ok _ _ _ _ _
                (at_layer_keeps_grads (Network.grads_ s3) _ _) eq_refl H5)
    as G5.
  simpl in G3, G5.
  assert (Hgrads : grads = gs /\ s6 = Network.set_n_d
                                       (norm (Network.entries diff))
                                       (norm (Network.entries gm)
                                        + norm (Network.entries dw'))
                                       s5).
  { simpl in H6. rewrite G5, G3, Hg2 in H6. simpl in H6.
    injection H6 as <- <-. now split. }
  destruct Hgrads as [-> ->].
  exists w, gm. repeat split; try tauto; try discriminate.
Qed.

(** X23.  What [complete_gradient_check] leaves in [grads_].  A call that
    returns has discarded what [grads_] held and put there one array for
    each layer after the first, in order, the array of index [k] having
    the shape of the weights of the layer of index [k + 1]; the weights
    are those of before the call. *)
Theorem complete_gradient_check_fills_grads {E : Externals}
    (x y : ndarray) (eps : Q) (s s' : Network.t) :
  Network.complete_gradient_check x y eps s = (Ok tt, s') ->
  exists gs,
    Network.grads_ s' = Some gs
    /\ length gs = (length (Network.items s) - 1)%nat
    /\ (forall k g, gs !! k = Some g ->
          exists w, weights s !! S k = Some (Some w)
                    /\ nrows g = nrows w /\ ncols g = ncols w)
    /\ weights s' = weights s.
Proof.
  intros Hrun. unfold Network.complete_gradient_check in Hrun.
  rewrite bind_modify, bind_get in Hrun.
  simpl Network.items in Hrun.
  pose (Inv := fun (acc : list nat) (t : Network.t) =>
                 weights t = weights s
                 /\ exists gs, Network.grads_ t = Some gs
                      /\ Forall2 (fun g k =>
                           exists w, weights s !! k = Some (Some w)
                                     /\ nrows g = nrows w
                                     /\ ncols g = ncols w) gs acc).
  assert (Hend : Inv ([] ++ seq 1 (length (Network.items s) - 1)) s').
  { eapply (for_each_ok_acc Inv) in Hrun; [exact Hrun | |].
    - clear. intros k acc t t' (Hw & gs & Hgs & Hall) Hbody.
      destruct (complete_check_layer_ok x y eps k t t' gs Hgs Hbody)
        as (Hw' & w & g & Hk & Hr & Hc & Hgs' & _).
      split; [congruence|]. exists (gs ++ [g]). split; [exact Hgs'|].
      apply Forall2_app; [exact Hall|]. constructor; [|constructor].
      exists w. rewrite <- Hw. now repeat split.
    - split; [reflexivity|]. exists []. split; [reflexivity | constructor]. }
  destruct Hend as (Hw & gs & Hgs & Hall). simpl app in Hall.
  exists gs. split; [exact Hgs|]. split; [|split; [|exact Hw]].
  - apply Forall2_length in Hall. now rewrite length_seq in Hall.
  - intros k g Hk.
    destruct (Forall2_lookup_l _ _ _ _ _ Hall Hk) as (i & Hi & w & Hlw & Hs).
    apply lookup_seq in Hi as [-> _]. now exists w.
Qed.

(** On the trained sample network: two arrays, of the shapes (2, 2) and
    (1, 2) of its weights. *)
Lemma complete_gradient_check_fills_grads_witness :
  exists gs,
    Network.grads_
      (Network.complete_gradient_check (E := sample_externals) sample_x
         sample_y (1 # 100) trained_network).2 = Some gs
    /\ length gs = 2%nat.
Proof.
  destruct (Network.complete_gradient_check (E := sample_externals) sample_x
              sample_y (1 # 100) trained_network) as [[[]|e] s'] eqn:Hrun;
    [|vm_compute in Hrun; discriminate Hrun].
  destruct (complete_gradient_check_fills_grads (E := sample_externals)
              sample_x sample_y (1 # 100) trained_network s' Hrun)
    as (gs & Hgs & Hlen & _).
  exists gs. split; [exact Hgs | exact Hlen].
Defined.

(** ** Training on an empty batch *)

Lemma backprop_last_layer_empty {E : Externals} (x y : ndarray)
    (s : Network.t) :
  ncols x = 0%nat ->
  exists e,
    Network._backprop_last_layer x y s = (Raise e, s)
    /\ (forall deltaL, (Network.output_error y s).1 = Ok deltaL ->
                       e = ZeroDivisionError).
Proof.
  intros HB. unfold Network._backprop_last_layer. rewrite HB.
  pose proof (output_error_pure y s s eq_refl) as Hpure. simpl in Hpure.
  unfold bind at 1.
  destruct (Network.output_error y s) as [[deltaL|e] s1]; simpl in *;
    subst s1.
  - exists ZeroDivisionError. now split.
  - exists e. split; [reflexivity | discriminate].
Qed.

(** X24.  Training on an empty batch.  With inputs of no example, the
    backward pass does not return and writes nothing:
    [backpropagation] raises, [ZeroDivisionError] from [1 / batch_size]
    whenever the error of the output layer could be computed, and leaves
    the network as it found it; [train_on_batch] raises too, its forward
    pass having overwritten the caches at most: no gradient buffer has
    changed. *)
Theorem train_on_empty_batch {E : Externals} (x y : ndarray)
    (s : Network.t) :
  ncols x = 0%nat ->
  (exists e,
     Network.backpropagation x y s = (Raise e, s)
     /\ (forall deltaL, (Network.output_error y s).1 = Ok deltaL ->
                        e = ZeroDivisionError))
  /\ (exists e, (Network.train_on_batch x y s).1 = Raise e)
  /\ gradients <$> Network.items (Network.train_on_batch x y s).2
     = gradients <$> Network.items s.
Proof.
  intros HB.
  assert (Hback : forall t, exists e,
             Network.backpropagation x y t = (Raise e, t)
             /\ (forall deltaL, (Network.output_error y t).1 = Ok deltaL ->
                                e = ZeroDivisionError)).
  { intros t. destruct (backprop_last_layer_empty x y t HB) as (e & He & Hz).
    exists e. split; [|exact Hz].
    unfold Network.backpropagation, bind. now rewrite He. }
  split; [apply Hback|]. split.
  - unfold Network.train_on_batch, Network.emit.
    rewrite bind_modify. unfold bind.
    destruct (Network.forward_step x _) as [[a|e] s1]; [|now exists e].
    destruct (Hback s1) as (e & -> & _). now exists e.
  - unfold Network.train_on_batch, Network.emit.
    rewrite bind_modify. unfold bind.
    match goal with
    | |- context [Network.forward_step x ?t] =>
        pose proof (forward_step_read gradients
                      (fun _ _ => eq_refl) (fun _ _ => eq_refl)
                      (fun _ _ => eq_refl)
                      (gradients <$> Network.items s) x t eq_refl) as Hkept;
        destruct (Network.forward_step x t) as [[a|e] s1]
    end; [|exact Hkept].
    destruct (Hback s1) as (e & -> & _). exact Hkept.
Qed.

(** The sample network after a forward pass over inputs of no example. *)
Lemma train_on_empty_batch_witness :
  (Network.backpropagation (E := sample_externals) (mk_array 2 0 [[]; []])
     (mk_array 1 0 [[]])
     (Network.forward_step (E := sample_externals) (mk_array 2 0 [[]; []])
        sample_network).2).1
  = Raise ZeroDivisionError.
Proof.
  destruct (train_on_empty_batch (E := sample_externals)
              (mk_array 2 0 [[]; []]) (mk_array 1 0 [[]])
              (Network.forward_step (E := sample_externals)
                 (mk_array 2 0 [[]; []]) sample_network).2
              eq_refl)
    as ((e & Hrun & Hz) & _).
  rewrite Hrun. simpl. f_equal. eapply Hz. vm_compute. reflexivity.
Defined.

(** ** The schedule of the training loop *)

Section Schedule.
Context {E : Externals}.

(** A step that records nothing and leaves the learning rate. *)
Local Abbreviation quiet c r :=
  (fun t : Network.t => Network.trace t = c /\ Network.lr t = r).

Lemma forward_step_quiet (a : ndarray) c r :
  invariant (quiet c r) (Network.forward_step a).
Proof. apply forward_step_invariant. now intros. Qed.

Lemma backpropagation_quiet (x y : ndarray) c r :
  invariant (quiet c r) (Network.backpropagation x y).
Proof. apply backpropagation_invariant. now intros. Qed.

Lemma get_loss_quiet (x y : ndarray) (average_examples : bool) c r :
  invariant (quiet c r) (Network.get_loss x y average_examples).
Proof. apply get_loss_invariant. now intros. Qed.

Lemma train_on_batch_trace (x y : ndarray) (s : Network.t) :
  quiet (Network.trace s ++ [TrainOnBatch (ncols x) (Network.lr s)])
        (Network.lr s) (Network.train_on_batch x y s).2.
Proof.
  unfold Network.train_on_batch, Network.emit. rewrite bind_modify.
  assert (Hinv : forall c r,
             invariant (quiet c r)
               (bind (Network.forward_step x)
                  (fun _ => Network.backpropagation x y))).
  { intros c r. apply invariant_bind;
      [apply forward_step_quiet | intros _; apply backpropagation_quiet]. }
  apply Hinv. now split.
Qed.

Lemma update_weights_trace (s : Network.t) :
  quiet (Network.trace s ++ [UpdateWeights (Network.lr s)])
        (Network.lr s) (Network.update_weights s).2.
Proof.
  unfold Network.update_weights, Network.emit.
  rewrite bind_modify, bind_get.
  match goal with
  | |- context [for_each ?xs ?body _] =>
      assert (Hinv : forall c r, invariant (quiet c r) (for_each xs body))
  end.
  { intros c r. apply invariant_for_each. intros k.
    apply at_layer_invariant. now intros. }
  apply Hinv. now split.
Qed.

Variable checks : option Z.
Hypothesis no_checks : truthy checks = false.

Lemma fit_batch_trace (m : nat) (mb : ndarray * ndarray)
    (grad_printout v : bool) (s s' : Network.t) :
  Network.fit_batch checks m mb grad_printout s = (Ok v, s') ->
  quiet (Network.trace s ++ epoch_schedule (Network.lr s) [mb])
        (Network.lr s) s'.
Proof.
  destruct mb as [xb yb]. unfold Network.fit_batch.
  rewrite no_checks. simpl andb. cbv iota. intros Hrun.
  apply bind_ok_inv in Hrun as ([] & s1 & H1 & Hrun).
  apply bind_ok_inv in Hrun as (l & s2 & H2 & Hrun).
  rewrite bind_ret in Hrun.
  apply bind_ok_inv in Hrun as ([] & s3 & H3 & Hret).
  injection Hret as _ <-.
  pose proof (train_on_batch_trace xb yb s) as [T1 R1].
  rewrite H1 in T1, R1. simpl in T1, R1.
  pose proof (get_loss_quiet xb yb true (Network.trace s1) (Network.lr s1)
                s1 (conj eq_refl eq_refl)) as [T2 R2].
  rewrite H2 in T2, R2. simpl in T2, R2.
  pose proof (update_weights_trace s2) as [T3 R3].
  rewrite H3 in T3, R3. simpl in T3, R3.
  split; [|congruence].
  rewrite T3, T2, T1, R2, R1. unfold epoch_schedule. simpl.
  now rewrite <- app_assoc.
Qed.

Lemma batches_trace (ems : list (nat * (ndarray * ndarray))) :
  forall (grad_printout v : bool) (s s' : Network.t),
    for_loop ems (fun mb => Network.fit_batch checks mb.1 mb.2)
      grad_printout s = (Ok v, s') ->
    quiet (Network.trace s ++ epoch_schedule (Network.lr s) (snd <$> ems))
          (Network.lr s) s'.
Proof.
  induction ems as [|em ems IH]; intros gp v s s' Hrun.
  - injection Hrun as _ <-. unfold epoch_schedule. simpl.
    now rewrite app_nil_r.
  - simpl for_loop in Hrun.
    apply bind_ok_inv in Hrun as (gp1 & s1 & Hone & Hrun).
    apply fit_batch_trace in Hone as [T1 R1].
    apply IH in Hrun as [T2 R2].
    split; [|congruence].
    rewrite T2, T1, R1. unfold epoch_schedule. rewrite fmap_cons. simpl.
    now rewrite <- app_assoc.
Qed.

Lemma fit_epoch_trace (x y : ndarray) (ytrain_labels : list nat)
    (validation : option (ndarray * ndarray * list nat)) (epoch_ : Z)
    (grad_printout v : bool) (s s' : Network.t) (r : Q) :
  Network.lr s = Some r ->
  Network.fit_epoch x y ytrain_labels validation checks epoch_
    grad_printout s = (Ok v, s') ->
  quiet (Network.trace s
           ++ epoch_schedule (Some (r * decay_factor)%Q) (minibatches x y 1000))
        (Some (r * decay_factor)%Q) s'.
Proof.
  intros Hlr Hrun. unfold Network.fit_epoch in Hrun.
  apply bind_ok_inv in Hrun as ([] & s1 & Hdecay & Hrun).
  rewrite (decay_lr_run s r Hlr) in Hdecay. injection Hdecay as <-.
  apply bind_ok_inv in Hrun as (gp & s2 & Hloop & Hrun).
  apply batches_trace in Hloop as Hquiet.
  unfold enumerate in Hquiet.
  rewrite snd_zip in Hquiet by (rewrite length_seq; lia).
  simpl in Hquiet.
  pose proof forward_step_quiet. pose proof get_loss_quiet.
  match type of Hrun with
  | ?k s2 = _ =>
      assert (Hinv : forall c r0, invariant (quiet c r0) k)
        by (intros c r0; invariant_auto; apply invariant_modify; now intros)
  end.
  exact (invariant_ok _ _ _ _ _ (Hinv _ _) Hquiet Hrun).
Qed.

Lemma epochs_trace (x y : ndarray) (ytrain_labels : list nat)
    (validation : option (ndarray * ndarray * list nat)) (rate : Q)
    (epochs : list Z) :
  forall (k : nat) (grad_printout v : bool) (s s' : Network.t),
    Network.lr s = Some (decayed k rate) ->
    for_loop epochs (Network.fit_epoch x y ytrain_labels validation checks)
      grad_printout s = (Ok v, s') ->
    quiet (Network.trace s
             ++ schedule rate (S k) (length epochs) (minibatches x y 1000))
          (Some (decayed (k + length epochs) rate)) s'.
Proof.
  induction epochs as [|epoch_ epochs IH]; intros k gp v s s' Hlr Hrun.
  - injection Hrun as _ <-. unfold schedule. simpl.
    rewrite app_nil_r, Nat.add_0_r. now split.
  - simpl for_loop in Hrun.
    apply bind_ok_inv in Hrun as (gp1 & s1 & Hone & Hrun).
    apply (fit_epoch_trace _ _ _ _ _ _ _ _ _ _ Hlr) in Hone as [T1 R1].
    apply (IH (S k)) in Hrun as [T2 R2]; [|exact R1].
    split.
    + rewrite T2, T1. unfold schedule. simpl. now rewrite <- app_assoc.
    + rewrite R2. simpl length. do 2 f_equal. lia.
Qed.

End Schedule.

(** X25.  The schedule of [fit].  Without gradient checks
    ([gradients_to_check_each_epoch] falsy), a call of [fit] on a
    compiled network that returns has made, for each of its
    [epochs - 1] epochs in turn and for each minibatch of
    [misc.minibatches(x, y, batch_size=1000)] in order, one
    [train_on_batch] on the examples of the minibatch followed by one
    [update_weights], both under the learning rate decayed once more
    than in the epoch before, and no other training step or update. *)
Theorem fit_schedule {E : Externals}
    (x y : ndarray) (epochs batch_size : Z)
    (validation_data : option (ndarray * ndarray)) (checks : option Z)
    (s s' : Network.t) (rate : Q) :
  truthy checks = false ->
  Network.lr s = Some rate ->
  Network.fit x y epochs batch_size validation_data checks s = (Ok tt, s') ->
  Network.trace s'
  = Network.trace s
      ++ schedule rate 1 (Z.to_nat (epochs - 1)) (minibatches x y 1000).
Proof.
  intros Hchecks Hlr Hrun.
  destruct (fit_cases x y epochs batch_size validation_data checks s)
    as [[e He] | (labels & validation & Hfit)];
    rewrite Hrun in *; [discriminate|].
  symmetry in Hfit.
  apply bind_ok_inv in Hfit as (gp & s1 & Hloop & Hret).
  injection Hret as <-.
  apply (epochs_trace checks Hchecks x y labels validation rate _ 0%nat)
    in Hloop as [Htrace _]; [|exact Hlr].
  now rewrite length_epoch_range in Htrace.
Qed.

(** Three epochs asked of the sample network: two are run, of one
    minibatch of the four examples each. *)
Lemma fit_schedule_witness :
  Network.trace
    (Network.fit (E := sample_externals) sample_x sample_y 3 2 None None
       sample_network).2
  = [TrainOnBatch 4 (Some (decayed 1 (1 # 10)));
     UpdateWeights (Some (decayed 1 (1 # 10)));
     TrainOnBatch 4 (Some (decayed 2 (1 # 10)));
     UpdateWeights (Some (decayed 2 (1 # 10)))].
Proof.
  assert (Hrun : exists s',
             Network.fit (E := sample_externals) sample_x sample_y 3 2 None
               None sample_network = (Ok tt, s'))
    by (vm_compute; eexists; reflexivity).
  destruct Hrun as [s' Hrun]. rewrite Hrun. cbn [snd].
  rewrite (fit_schedule (E := sample_externals) sample_x sample_y 3 2 None
             None sample_network s' (1 # 10) eq_refl eq_refl Hrun).
  vm_compute. reflexivity.
Defined.

(** ** The gradient checks of the training loop *)

Lemma flat_map_constant {X X' Y} (e : list Y) (l : list X) (l' : list X') :
  length l = length l' ->
  flat_map (fun _ => e) l = flat_map (fun _ => e) l'.
Proof.
  revert l'. induction l as [|a l IH]; intros [|a' l'];
    try discriminate; [reflexivity|].
  intros [= Hlen]. simpl. now rewrite (IH l').
Qed.

Lemma flat_map_replicate {X Y} (a : Y) (l : list X) :
  flat_map (fun _ => [a]) l = replicate (length l) a.
Proof. induction l as [|b l IH]; simpl; [reflexivity | now rewrite IH]. Qed.

Section Records.
Context {E : Externals}.

Lemma silent_of_invariant {A} (m : M Network.t A) :
  (forall c, invariant (fun t => Network.trace t = c) m) -> silent m.
Proof. intros Hm s. now apply (Hm (Network.trace s)). Qed.

Lemma forward_step_unrecorded (a : ndarray) (c : list event) :
  invariant (fun t => Network.trace t = c) (Network.forward_step a).
Proof. apply forward_step_invariant. now intros. Qed.

Lemma get_loss_unrecorded (x y : ndarray) (average_examples : bool)
    (c : list event) :
  invariant (fun t => Network.trace t = c)
    (Network.get_loss x y average_examples).
Proof. apply get_loss_invariant. now intros. Qed.

Lemma silent_at_layer {A} (i : Z) (m : M layer A) :
  silent (Network.at_layer i m).
Proof.
  apply silent_of_invariant. intros c. apply at_layer_invariant. now intros.
Qed.

Lemma silent_randint (low high : nat) : silent (Network.randint low high).
Proof.
  apply silent_of_invariant. intros c. apply randint_invariant; now intros.
Qed.

Lemma silent_choice (dim : nat) : silent (Network.choice dim).
Proof.
  apply silent_of_invariant. intros c. apply choice_invariant; now intros.
Qed.

Lemma silent_bind {A B} (m : M Network.t A) (k : A -> M Network.t B) :
  silent m -> (forall a, silent (k a)) -> silent (bind m k).
Proof.
  intros Hm Hk s. unfold bind. specialize (Hm s).
  destruct (m s) as [[a|e] s1]; simpl in *; [|exact Hm].
  now rewrite Hk.
Qed.

Lemma records_silent {A} (m : M Network.t A) : silent m -> records [] m.
Proof.
  intros Hm s. exists []. split; [apply prefix_nil|]. split; [|reflexivity].
  unfold steps. now rewrite Hm, app_nil_r.
Qed.

(** A method that records its calls before anything can make it raise. *)
Lemma records_exactly {A} (expected : list step) (m : M Network.t A) :
  (forall s, steps (m s).2 = steps s ++ expected) -> records expected m.
Proof.
  intros Hm s. exists expected. split; [reflexivity|]. split; [apply Hm|].
  reflexivity.
Qed.

Lemma records_bind {A B} (e1 e2 : list step) (m : M Network.t A)
    (k : A -> M Network.t B) :
  records e1 m -> (forall a, records e2 (k a)) ->
  records (e1 ++ e2) (bind m k).
Proof.
  intros Hm Hk s. destruct (Hm s) as (d1 & Hp1 & Hs1 & Hok1). unfold bind.
  destruct (m s) as [[a|e] s1]; simpl in *.
  - destruct (Hk a s1) as (d2 & Hp2 & Hs2 & Hok2).
    rewrite (Hok1 a eq_refl) in Hs1.
    exists (e1 ++ d2). split; [now apply prefix_app|]. split.
    + now rewrite Hs2, Hs1, app_assoc.
    + intros v Hv. now rewrite (Hok2 v Hv).
  - exists d1. split; [now apply prefix_app_r|].
    split; [exact Hs1 | discriminate].
Qed.

Lemma records_after_silent {A B} (expected : list step) (m : M Network.t A)
    (k : A -> M Network.t B) :
  silent m -> (forall a, records expected (k a)) ->
  records expected (bind m k).
Proof.
  intros Hm Hk. apply (records_bind [] expected); [|exact Hk].
  now apply records_silent.
Qed.

Lemma records_before_silent {A B} (expected : list step)
    (m : M Network.t A) (k : A -> M Network.t B) :
  records expected m -> (forall a, silent (k a)) ->
  records expected (bind m k).
Proof.
  intros Hm Hk. rewrite <- (app_nil_r expected).
  apply records_bind; [exact Hm|]. intros a. now apply records_silent.
Qed.

Lemma records_for_loop {X L} (expected : X -> list step)
    (body : X -> L -> M Network.t L) :
  (forall x l, records (expected x) (body x l)) ->
  forall xs l, records (flat_map expected xs) (for_loop xs body l).
Proof.
  intros Hbody xs. induction xs as [|x xs IH]; intros l; simpl.
  - apply records_silent. now intros s.
  - apply records_bind; auto.
Qed.

(** The three primitives record themselves first, and nothing after. *)
Lemma train_on_batch_records (x y : ndarray) :
  records [Trains (ncols x)] (Network.train_on_batch x y).
Proof.
  apply records_exactly. intros s.
  destruct (train_on_batch_trace x y s) as [Htrace _].
  unfold steps. now rewrite Htrace, fmap_app.
Qed.

Lemma update_weights_records : records [Updates] Network.update_weights.
Proof.
  apply records_exactly. intros s.
  destruct (update_weights_trace s) as [Htrace _].
  unfold steps. now rewrite Htrace, fmap_app.
Qed.

Lemma gradient_check_records (x ytrue : ndarray) (eps : Q) (layer_id : nat)
    (weight_idx : nat * nat) :
  records [Checks eps]
    (Network.gradient_check x ytrue eps layer_id weight_idx).
Proof.
  apply records_exactly. intros s.
  apply (gradient_check_invariant_from
           (fun t => steps t = steps s ++ [Checks eps])); [now intros|].
  unfold Network.emit, modify, steps; simpl. now rewrite fmap_app.
Qed.

Lemma gradient_checks_records (x ytrue : ndarray) (checks : nat) (eps : Q) :
  records (replicate checks (Checks eps))
    (Network.gradient_checks x ytrue checks eps).
Proof.
  unfold Network.gradient_checks.
  apply records_before_silent; [|now intros gs s].
  replace (replicate checks (Checks eps))
    with (flat_map (fun _ : nat => [Checks eps]) (seq 0 checks))
    by (now rewrite flat_map_replicate, length_seq).
  apply records_for_loop. intros check gs.
  apply records_after_silent; [now intros s|]. intros self.
  apply records_after_silent; [apply silent_randint|]. intros layer_id.
  apply records_after_silent; [apply silent_at_layer|]. intros w.
  apply records_after_silent; [apply silent_choice|]. intros i.
  apply records_after_silent; [apply silent_choice|]. intros j.
  apply records_before_silent; [apply gradient_check_records|].
  intros gradient.
  apply silent_bind; [apply silent_at_layer | now intros backprop s].
Qed.

Lemma fit_batch_records (checks : option Z) (m : nat)
    (minibatch : ndarray * ndarray) (grad_printout : bool) :
  records (batch_steps (truthy checks) m minibatch)
    (Network.fit_batch checks m minibatch grad_printout).
Proof.
  destruct minibatch as [xb yb]. unfold Network.fit_batch, batch_steps.
  cbn [fst].
  apply records_bind; [apply train_on_batch_records|]. intros _.
  apply records_after_silent.
  { apply silent_of_invariant. intros c. apply get_loss_unrecorded. }
  intros _. apply records_bind.
  - destruct (truthy checks && (m =? 1)%nat).
    + apply records_before_silent; [|now intros g s].
      apply gradient_checks_records.
    + apply records_silent. now intros s.
  - intros gp. apply records_before_silent; [|now intros u s].
    apply update_weights_records.
Qed.

Lemma fit_epoch_records (x y : ndarray) (ytrain_labels : list nat)
    (validation : option (ndarray * ndarray * list nat))
    (checks : option Z) (epoch_ : Z) (grad_printout : bool) :
  records (epoch_steps (truthy checks) (minibatches x y 1000))
    (Network.fit_epoch x y ytrain_labels validation checks epoch_
       grad_printout).
Proof.
  unfold Network.fit_epoch, epoch_steps.
  apply records_after_silent; [intros s; apply decay_lr_trace|]. intros _.
  apply records_before_silent.
  - apply (records_for_loop
             (fun mb => batch_steps (truthy checks) mb.1 mb.2)).
    intros mb gp. apply fit_batch_records.
  - intros gp. apply silent_of_invariant. intros c.
    pose proof forward_step_unrecorded. pose proof get_loss_unrecorded.
    invariant_auto; apply invariant_modify; now intros.
Qed.

Lemma fit_records (x y : ndarray) (epochs batch_size : Z)
    (validation_data : option (ndarray * ndarray)) (checks : option Z) :
  records (fit_steps (truthy checks) (Z.to_nat (epochs - 1))
             (minibatches x y 1000))
    (Network.fit x y epochs batch_size validation_data checks).
Proof.
  intros s.
  destruct (fit_cases x y epochs batch_size validation_data checks s)
    as [[e ->] | (labels & validation & ->)].
  - exists []. split; [apply prefix_nil|].
    split; [now rewrite app_nil_r | discriminate].
  - revert s.
    change (records (fit_steps (truthy checks) (Z.to_nat (epochs - 1))
                       (minibatches x y 1000))
              (bind (for_loop (Network.epoch_range epochs)
                       (Network.fit_epoch x y labels validation checks)
                       (negb (truthy checks)))
                    (fun _ => ret tt))).
    apply records_before_silent; [|now intros gp s].
    unfold fit_steps.
    rewrite (flat_map_constant _ (seq 0 (Z.to_nat (epochs - 1)))
               (Network.epoch_range epochs))
      by (now rewrite length_seq, length_epoch_range).
    apply records_for_loop. intros epoch_ gp. apply fit_epoch_records.
Qed.

End Records.

(** C10.  The gradient checks of [fit].  The training steps, gradient
    checks and weight updates that a call of [fit] makes are, in this
    order: for each of its [epochs - 1] epochs and each minibatch of the
    epoch, numbered from 0, one training step on the minibatch; then, if
    [gradients_to_check_each_epoch] is truthy and the minibatch has
    number 1, and then only, three gradient checks with [eps = 10**(-6)];
    then one weight update.  A call that returns has made all of them and
    no other; a call that raises has made the first ones of them, in that
    order, and no other.  So no check is made for a falsy argument, and
    none when the epochs have a single minibatch; and the argument counts
    for its truth value only: with any other value as truthy, or as
    falsy, the call ends in the same way. *)
Theorem fit_gradient_checks {E : Externals}
    (x y : ndarray) (epochs batch_size : Z)
    (validation_data : option (ndarray * ndarray)) (checks : option Z)
    (self s' : Network.t) (r : result unit) :
  Network.fit x y epochs batch_size validation_data checks self = (r, s') ->
  (exists done,
     done `prefix_of` fit_steps (truthy checks) (Z.to_nat (epochs - 1))
                        (minibatches x y 1000)
     /\ steps s' = steps self ++ done
     /\ (r = Ok tt ->
         done = fit_steps (truthy checks) (Z.to_nat (epochs - 1))
                  (minibatches x y 1000)))
  /\ (truthy checks = false \/ (length (minibatches x y 1000) <= 1)%nat ->
      gradient_check_count s' = gradient_check_count self)
  /\ (forall checks',
        truthy checks' = truthy checks ->
        Network.fit x y epochs batch_size validation_data checks' self
        = (r, s')).
Proof.
  intros Hrun. split; [|split].
  - destruct (fit_records x y epochs batch_size validation_data checks self)
      as (done & Hprefix & Hsteps & Hall).
    rewrite Hrun in Hsteps, Hall. exists done.
    split; [exact Hprefix|]. split; [exact Hsteps|].
    intros ->. now apply (Hall tt).
  - intros Hnone.
    destruct (fit_cases x y epochs batch_size validation_data checks self)
      as [[e He] | (labels & validation & Hfit)]; rewrite Hrun in *.
    + now injection He as _ ->.
    + assert (Hinv : invariant
                       (fun t => gradient_check_count t
                                 = gradient_check_count self)
                       (bind (for_loop (Network.epoch_range epochs)
                                (Network.fit_epoch x y labels validation
                                   checks)
                                (negb (truthy checks)))
                             (fun _ => ret tt))).
      { apply invariant_bind; [|intros gp; apply invariant_ret].
        apply invariant_for_loop. intros epoch_ gp t Ht.
        now rewrite fit_epoch_without_check. }
      specialize (Hinv self eq_refl). now rewrite <- Hfit in Hinv.
  - intros checks' Hsame. rewrite <- Hrun. now apply fit_truthiness.
Qed.

(** The sample network with checks asked for, its four examples in two
    minibatches of two: the three checks of the one epoch come after the
    training step on the second minibatch. *)
Lemma fit_gradient_checks_witness :
  steps (Network.fit (E := paired_externals) sample_x sample_y 2 128 None
           (Some 15%Z) sample_network).2
  = [Trains 2; Updates;
     Trains 2; Checks (1 # 1000000); Checks (1 # 1000000);
     Checks (1 # 1000000); Updates].
Proof.
  assert (Hreturns : (Network.fit (E := paired_externals) sample_x sample_y
                        2 128 None (Some 15%Z) sample_network).1 = Ok tt)
    by (vm_compute; reflexivity).
  destruct (Network.fit (E := paired_externals) sample_x sample_y 2 128 None
              (Some 15%Z) sample_network) as [r s'] eqn:Hrun.
  cbn [fst snd] in *.
  destruct (fit_gradient_checks (E := paired_externals) _ _ _ _ _ _ _ _ _ Hrun)
    as ((done & _ & Hsteps & Hall) & _).
  rewrite Hsteps, (Hall Hreturns). vm_compute. reflexivity.
Defined.

(** ** An update that fails *)

(** [for k in range(len(pre), ...): self[k].m()], where [m] returns on the
    layers [ds] and raises on the one after them. *)
Lemma for_each_layer_fails (m : M Dense.t unit) (h : Dense.t -> Dense.t)
    (d d' : Dense.t) (e : exn) (rest : list Dense.t) (ds : list Dense.t) :
  Forall (fun d0 => m d0 = (Ok tt, h d0)) ds ->
  m d = (Raise e, d') ->
  forall (pre : list layer) (s : Network.t),
    Network.items s = pre ++ (DenseLayer <$> (ds ++ d :: rest)) ->
    for_each (seq (length pre) (length (ds ++ d :: rest)))
      (fun k => Network.at_layer (Z.of_nat k) (on_dense m)) s
    = (Raise e,
       Network.set_items
         (pre ++ (DenseLayer <$> ((h <$> ds) ++ d' :: rest))) s).
Proof.
  intros Hds Hd. induction Hds as [|d0 ds Hd0 Hds IH]; intros pre s Hitems.
  - rewrite app_nil_l in *. rewrite fmap_cons in Hitems.
    cbn [length seq for_each]. unfold bind.
    rewrite (at_layer_dense m pre (DenseLayer <$> rest) d d' (Raise e) s
               Hitems Hd).
    now rewrite fmap_nil, app_nil_l, fmap_cons.
  - rewrite <- !app_comm_cons in *. rewrite fmap_cons in Hitems.
    cbn [length seq for_each].
    erewrite bind_ok by (eapply at_layer_dense; eauto).
    specialize (IH (pre ++ [DenseLayer (h d0)])
                  (Network.set_items
                     (pre ++ DenseLayer (h d0)
                          :: (DenseLayer <$> (ds ++ d :: rest))) s)).
    rewrite length_app in IH; simpl in IH.
    rewrite Nat.add_1_r in IH. rewrite IH.
    + rewrite set_items_twice, (fmap_cons h), <- app_comm_cons, fmap_cons.
      now rewrite <- app_assoc.
    + now rewrite <- app_assoc.
Qed.

(** X26.  [update_weights] is not all or nothing.  When the update of a
    layer raises (its [dw] or [db] does not broadcast into the
    parameter), [update_weights] raises that exception at once: the
    layers before that one have taken their step, the layers after it
    have not, and the layer itself is untouched, or has its weights
    stepped and its bias not. *)
Theorem update_weights_stops_at_first_failure (s : Network.t)
    (input : layer) (done : list Dense.t) (d d' : Dense.t)
    (rest : list Dense.t) (rate : Q) (e : exn) :
  Network.items s = input :: (DenseLayer <$> (done ++ d :: rest)) ->
  Network.lr s = Some rate ->
  Forall gradients_fit done ->
  Network.update_layer (Some rate) d = (Raise e, d') ->
  (Network.update_weights s).1 = Raise e
  /\ Network.items (Network.update_weights s).2
     = input :: (DenseLayer <$> ((stepped rate <$> done) ++ d' :: rest))
  /\ (d' = d \/ exists w', d' = Dense.set_w w' d).
Proof.
  intros Hitems Hlr Hfit Hd.
  assert (Hrun : exists s',
             Network.update_weights s = (Raise e, s')
             /\ Network.items s'
                = input
                    :: (DenseLayer
                          <$> ((stepped rate <$> done) ++ d' :: rest))).
  { eexists. split.
    - unfold Network.update_weights, Network.emit.
      rewrite bind_modify, bind_get. simpl Network.lr. rewrite Hlr.
      simpl Network.items. rewrite Hitems.
      replace (length (input :: (DenseLayer <$> (done ++ d :: rest))) - 1)%nat
        with (length (done ++ d :: rest))
        by (rewrite length_cons, length_fmap; lia).
      apply (for_each_layer_fails (Network.update_layer (Some rate))
               (stepped rate) d d' e rest done) with (pre := [input]).
      + eapply Forall_impl; [exact Hfit|]. intros d0 Hd0.
        now apply update_layer_run.
      + exact Hd.
      + exact Hitems.
    - reflexivity. }
  destruct Hrun as (s' & -> & Hs').
  split; [reflexivity|]. split; [exact Hs'|].
  clear -Hd. unfold Network.update_layer, bind, attr, get, lift, modify in Hd.
  simpl in Hd.
  destruct (np_isub (Dense.w d) _) as [w'|]; simpl in Hd.
  - destruct (np_isub (Dense.b d) _); simpl in Hd; [discriminate|].
    injection Hd as _ <-. right. now exists w'.
  - injection Hd as _ <-. now left.
Qed.

(** The trained sample network, its output layer given gradients of the
    shape (2, 3): the hidden layer is stepped, and the call raises. *)
Lemma update_weights_stops_at_first_failure_witness :
  (Network.update_weights
     (Network.set_items
        [InputLayer None; DenseLayer (sample_hidden None None);
         DenseLayer (Dense.set_dw (matrix [[1; 2; 3]; [4; 5; 6]]%Q)
                       (sample_output None None))]
        sample_network)).1
  = Raise ValueError.
Proof.
  apply (update_weights_stops_at_first_failure
           (Network.set_items
              [InputLayer None; DenseLayer (sample_hidden None None);
               DenseLayer (Dense.set_dw (matrix [[1; 2; 3]; [4; 5; 6]]%Q)
                             (sample_output None None))]
              sample_network)
           (InputLayer None) [sample_hidden None None]
           (Dense.set_dw (matrix [[1; 2; 3]; [4; 5; 6]]%Q)
              (sample_output None None))
           (Dense.set_dw (matrix [[1; 2; 3]; [4; 5; 6]]%Q)
              (sample_output None None))
           [] (1 # 10) ValueError).
  - reflexivity.
  - reflexivity.
  - repeat constructor.
  - vm_compute. reflexivity.
Defined.

(** ** What the caches do not influence *)

Lemma same_but_caches_split (s s' : Network.t) :
  same_but_caches s s'
  <-> forget_layer <$> Network.items s = forget_layer <$> Network.items s'
      /\ Network.set_items [] s = Network.set_items [] s'.
Proof.
  unfold same_but_caches, forget_caches. destruct s, s'; simpl.
  split.
  - intros [= -> -> -> -> -> -> -> -> -> -> -> -> ->]. now split.
  - intros [-> [= -> -> -> -> -> -> -> -> -> -> -> ->]]. reflexivity.
Qed.

Lemma same_but_caches_refl (s : Network.t) : same_but_caches s s.
Proof. reflexivity. Qed.

Lemma same_but_caches_sym (s s' : Network.t) :
  same_but_caches s s' -> same_but_caches s' s.
Proof. unfold same_but_caches. congruence. Qed.

Lemma same_but_caches_trans (s s' s'' : Network.t) :
  same_but_caches s s' -> same_but_caches s' s'' -> same_but_caches s s''.
Proof. unfold same_but_caches. congruence. Qed.

Lemma same_rest_items (s s' : Network.t) :
  Network.items s = Network.items s' ->
  Network.set_items [] s = Network.set_items [] s' -> s = s'.
Proof.
  destruct s, s'; simpl. intros ->.
  now intros [= -> -> -> -> -> -> -> -> -> -> -> ->].
Qed.

Lemma is_dense_forget (l : layer) : is_dense (forget_layer l) = is_dense l.
Proof. now destruct l. Qed.

Lemma same_but_caches_length (s s' : Network.t) :
  same_but_caches s s' ->
  length (Network.items s) = length (Network.items s').
Proof.
  intros [Hitems _]%same_but_caches_split.
  rewrite <- (length_fmap forget_layer), Hitems. apply length_fmap.
Qed.

Lemma same_but_caches_plain (n : nat) (s s' : Network.t) :
  same_but_caches s s' -> plain n s -> plain n s'.
Proof.
  intros [Hitems _]%same_but_caches_split. unfold plain, layers_read.
  intros <-.
  rewrite <- (list_fmap_ext (is_dense ∘ forget_layer) is_dense
                (Network.items s)) by (intros; apply is_dense_forget).
  rewrite <- (list_fmap_ext (is_dense ∘ forget_layer) is_dense
                (Network.items s')) by (intros; apply is_dense_forget).
  now rewrite !list_fmap_compose, Hitems.
Qed.

Section NonInterference.
Context {E : Externals}.
Variable n : nat.

Lemma sim_ret {A} (a : A) : simulates n (ret a) (ret a).
Proof. intros s s' _ Hs v t [= <- <-]. now exists s'. Qed.

Lemma sim_lift {A} (r : result A) : simulates n (lift r) (lift r).
Proof.
  intros s s' _ Hs v t. unfold lift. intros [= -> <-]. now exists s'.
Qed.

Lemma sim_attr {A} (field : option A) : simulates n (attr field) (attr field).
Proof.
  destruct field as [a|]; [apply sim_ret|]. intros s s' _ _ v t. discriminate.
Qed.

Lemma sim_raise {A} (e : exn) : simulates n (@raise _ A e) (raise e).
Proof. intros s s' _ _ v t. discriminate. Qed.

Lemma sim_bind {A B} (m m' : M Network.t A) (k k' : A -> M Network.t B) :
  simulates n m m' -> invariant (plain n) m ->
  (forall a, simulates n (k a) (k' a)) ->
  simulates n (bind m k) (bind m' k').
Proof.
  intros Hm Hplain Hk s s' Hs Hss v t Hrun.
  apply bind_ok_inv in Hrun as (a & s1 & Hma & Hka).
  destruct (Hm s s' Hs Hss a s1 Hma) as (t1 & Hm' & Hs1).
  pose proof (invariant_ok _ _ _ _ _ Hplain Hs Hma) as Hplain1.
  destruct (Hk a s1 t1 Hplain1 Hs1 v t Hka) as (t' & Hk' & Ht).
  exists t'. split; [|exact Ht]. now rewrite (bind_ok _ _ _ _ _ Hm').
Qed.

(** After a step that synchronises, whatever follows runs alike. *)
Lemma sim_sync_bind {A B} (m : M Network.t A) (k : A -> M Network.t B) :
  synchronises n m -> simulates n (bind m k) (bind m k).
Proof.
  intros Hm s s' Hs Hss v t Hrun.
  apply bind_ok_inv in Hrun as (a & s1 & Hma & Hka).
  pose proof (Hm s s' Hs Hss a s1 Hma) as Hm'.
  exists t. split; [|reflexivity]. now rewrite (bind_ok _ _ _ _ _ Hm').
Qed.

Lemma sim_for_loop {A L} (xs : list A) (body body' : A -> L -> M Network.t L) :
  (forall x l, simulates n (body x l) (body' x l)) ->
  (forall x l, invariant (plain n) (body x l)) ->
  forall l, simulates n (for_loop xs body l) (for_loop xs body' l).
Proof.
  intros Hbody Hplain. induction xs as [|x xs IH]; intros l; simpl.
  - apply sim_ret.
  - apply sim_bind; auto.
Qed.

Lemma sim_for_each {A} (xs : list A) (body body' : A -> M Network.t unit) :
  (forall x, simulates n (body x) (body' x)) ->
  (forall x, invariant (plain n) (body x)) ->
  simulates n (for_each xs body) (for_each xs body').
Proof.
  intros Hbody Hplain. induction xs as [|x xs IH]; simpl.
  - apply sim_ret.
  - apply sim_bind; auto.
Qed.

Lemma sim_at_layer {A} (i : Z) (m : M layer A) :
  layer_simulates m ->
  simulates n (Network.at_layer i m) (Network.at_layer i m).
Proof.
  intros Hm s s' _ Hss v t Hrun.
  pose proof (same_but_caches_length s s' Hss) as Hlen.
  apply same_but_caches_split in Hss as [Hitems Hrest].
  unfold Network.at_layer in *. rewrite <- Hlen.
  destruct (py_index _ _) as [k|e]; [|discriminate].
  pose proof (f_equal (fun ls => ls !! k) Hitems) as Hk. simpl in Hk.
  rewrite !list_lookup_fmap in Hk.
  destruct (Network.items s !! k) as [l|] eqn:Hl; [|discriminate].
  destruct (Network.items s' !! k) as [l'|] eqn:Hl'; [|discriminate].
  injection Hk as Hk.
  destruct (m l) as [r l1] eqn:Hml. injection Hrun as -> <-.
  destruct (Hm l l' Hk v l1 Hml) as (l1' & Hml' & Hl1).
  rewrite Hml'. eexists. split; [reflexivity|].
  apply same_but_caches_split. split.
  - simpl. now rewrite !list_fmap_insert, Hl1, Hitems.
  - exact Hrest.
Qed.

(** A method of [Dense] that reads the caches of the layer no more than
    it writes them. *)
Lemma on_dense_simulates {A} (m : M Dense.t A) :
  (forall d d', forget_layer (DenseLayer d) = forget_layer (DenseLayer d') ->
     forall v d1, m d = (Ok v, d1) ->
       exists d1', m d' = (Ok v, d1')
                   /\ forget_layer (DenseLayer d1)
                      = forget_layer (DenseLayer d1')) ->
  layer_simulates (on_dense m).
Proof.
  intros Hm [a|d] [a'|d'] Hl v l1 Hrun; try discriminate.
  unfold on_dense in *.
  destruct (m d) as [r d1] eqn:Hmd. injection Hrun as -> <-.
  destruct (Hm d d' Hl v d1 Hmd) as (d1' & -> & Hd1).
  now exists (DenseLayer d1').
Qed.

End NonInterference.

Lemma plain_items (n : nat) (s : Network.t) :
  plain n s ->
  exists a0 rest,
    Network.items s = InputLayer a0 :: rest
    /\ Forall (fun l => is_dense l = true) rest.
Proof.
  unfold plain, layers_read.
  destruct (Network.items s) as [|[a0|d] rest]; try discriminate.
  rewrite fmap_cons. intros [= Hrest]. exists a0, rest. split; [reflexivity|].
  apply Forall_forall. intros l Hl.
  apply (list_elem_of_fmap_2 is_dense) in Hl. rewrite Hrest in Hl.
  now apply elem_of_replicate_inv in Hl.
Qed.

Lemma forward_forget {E : Externals} (a : ndarray) (d d' d1 : Dense.t)
    (v : ndarray) :
  forget_layer (DenseLayer d) = forget_layer (DenseLayer d') ->
  Dense.forward a d = (Ok v, d1) -> Dense.forward a d' = (Ok v, d1).
Proof.
  destruct d, d'; simpl. intros [= -> -> -> -> -> -> -> ->].
  unfold Dense.forward, bind, get, lift, modify, ret; simpl.
  destruct (np_dot _ a) as [wa|]; simpl; [|discriminate].
  destruct (np_add wa _) as [zc|]; simpl; [|discriminate].
  now intros [= <- <-].
Qed.

(** The loop of [forward_step] over dense layers overwrites their
    caches. *)
Lemma sync_loop {E : Externals} (todo : list layer) :
  forall (todo' done : list layer) (a : ndarray) (s s' : Network.t)
         (v : ndarray) (t : Network.t),
    Network.items s = done ++ todo ->
    Network.items s' = done ++ todo' ->
    Forall (fun l => is_dense l = true) todo ->
    forget_layer <$> todo = forget_layer <$> todo' ->
    Network.set_items [] s = Network.set_items [] s' ->
    for_loop (seq (length done) (length todo))
      (fun k a' => Network.at_layer (Z.of_nat k) (layer_call a')) a s
    = (Ok v, t) ->
    for_loop (seq (length done) (length todo))
      (fun k a' => Network.at_layer (Z.of_nat k) (layer_call a')) a s'
    = (Ok v, t).
Proof.
  induction todo as [|l todo IH];
    intros todo' done a s s' v t Hs Hs' Hdense Hforget Hrest Hrun.
  - destruct todo' as [|l' todo']; [|discriminate].
    simpl in *. rewrite <- Hrun. unfold ret. do 2 f_equal.
    symmetry. apply same_rest_items; congruence.
  - destruct todo' as [|l' todo']; [discriminate|].
    rewrite !fmap_cons in Hforget. injection Hforget as Hl Hforget.
    apply Forall_cons in Hdense as [Hd Hdense].
    destruct l as [?|d]; [discriminate|].
    destruct l' as [?|d']; [discriminate|].
    cbn [length seq for_loop] in *.
    apply bind_ok_inv in Hrun as (a1 & s1 & Hstep & Hrun).
    destruct (Dense.forward a d) as [r d1] eqn:Hfwd.
    rewrite (at_layer_middle (layer_call a) done todo (DenseLayer d)
               (DenseLayer d1) r s Hs) in Hstep
      by (unfold layer_call, on_dense; now rewrite Hfwd).
    injection Hstep as -> <-.
    pose proof (forward_forget a d d' d1 a1 Hl Hfwd) as Hfwd'.
    erewrite bind_ok
      by (eapply (at_layer_middle (layer_call a) done todo' (DenseLayer d')
                    (DenseLayer d1) (Ok a1) s' Hs');
          unfold layer_call, on_dense; now rewrite Hfwd').
    specialize (IH todo' (done ++ [DenseLayer d1]) a1
                  (Network.set_items (done ++ DenseLayer d1 :: todo) s)
                  (Network.set_items (done ++ DenseLayer d1 :: todo') s')
                  v t).
    rewrite length_app in IH. cbn [length] in IH.
    rewrite Nat.add_1_r in IH.
    apply IH; try assumption.
    + cbn [Network.items Network.set_items]. now rewrite <- app_assoc.
    + cbn [Network.items Network.set_items]. now rewrite <- app_assoc.
Qed.

Lemma forward_step_synchronises {E : Externals} (n : nat) (a : ndarray) :
  synchronises n (Network.forward_step a).
Proof.
  intros s s' Hs Hss v t Hrun.
  pose proof (same_but_caches_plain n s s' Hss Hs) as Hs'.
  destruct (plain_items n s Hs) as (a0 & rest & Hitems & Hdense).
  destruct (plain_items n s' Hs') as (a0' & rest' & Hitems' & _).
  apply same_but_caches_split in Hss as [Hforget Hrest].
  rewrite Hitems, Hitems', !fmap_cons in Hforget.
  injection Hforget as Hforget.
  assert (Hlen : length rest' = length rest)
    by (rewrite <- (length_fmap forget_layer), <- Hforget;
        apply length_fmap).
  unfold Network.forward_step in *.
  erewrite bind_ok in Hrun
    by (eapply (at_layer_middle (layer_set_a a) [] rest); [exact Hitems|];
        reflexivity).
  erewrite bind_ok
    by (eapply (at_layer_middle (layer_set_a a) [] rest'); [exact Hitems'|];
        reflexivity).
  rewrite bind_get in *.
  cbn [Network.items Network.set_items app length seq for_loop] in *.
  erewrite bind_ok in Hrun
    by (eapply (at_layer_middle (layer_call a) [] rest
                  (InputLayer (Some a))); reflexivity).
  erewrite bind_ok
    by (eapply (at_layer_middle (layer_call a) [] rest'
                  (InputLayer (Some a))); reflexivity).
  rewrite !set_items_twice in *. rewrite Hlen.
  refine (sync_loop rest rest' [InputLayer (Some a)] a _ _ v t _ _
            Hdense Hforget _ Hrun); [reflexivity | reflexivity | exact Hrest].
Qed.

Lemma same_but_caches_fields (s s' : Network.t) :
  same_but_caches s s' ->
  Network.lr s = Network.lr s'
  /\ Network.draws s = Network.draws s'
  /\ Network.loss_fct s = Network.loss_fct s'
  /\ Network.trace s = Network.trace s'
  /\ Network.epoch s = Network.epoch s'.
Proof.
  intros [_ Hrest]%same_but_caches_split. destruct s, s'; simpl in *.
  injection Hrest as -> -> -> -> -> -> -> -> -> -> -> ->. now repeat split.
Qed.

(** A change of the network that is not one of its layers. *)
Lemma same_but_caches_update (f : Network.t -> Network.t) (s s' : Network.t) :
  (forall t, Network.items (f t) = Network.items t) ->
  (forall t t', Network.set_items [] t = Network.set_items [] t' ->
                Network.set_items [] (f t) = Network.set_items [] (f t')) ->
  same_but_caches s s' -> same_but_caches (f s) (f s').
Proof.
  intros Hitems Hrest [Hi Hr]%same_but_caches_split.
  apply same_but_caches_split. rewrite !Hitems. split; [exact Hi|].
  now apply Hrest.
Qed.

Section FitSimulation.
Context {E : Externals}.
Variable n : nat.

Lemma plain_emit (e : option Q -> event) :
  invariant (plain n) (Network.emit e).
Proof. unfold plain. apply emit_read. Qed.

Lemma plain_at_layer {A} (i : Z) (m : M layer A) :
  layer_keeps is_dense m -> invariant (plain n) (Network.at_layer i m).
Proof. unfold plain. apply at_layer_read. Qed.

Lemma plain_forward_step (a : ndarray) :
  invariant (plain n) (Network.forward_step a).
Proof. unfold plain. now apply forward_step_read. Qed.

Lemma plain_get_loss (x y : ndarray) (average_examples : bool) :
  invariant (plain n) (Network.get_loss x y average_examples).
Proof. unfold plain. now apply get_loss_read. Qed.

Lemma plain_train_on_batch (x y : ndarray) :
  invariant (plain n) (Network.train_on_batch x y).
Proof. unfold plain. now apply train_on_batch_read. Qed.

Lemma plain_update_weights : invariant (plain n) Network.update_weights.
Proof. unfold plain. now apply update_weights_read. Qed.

Lemma plain_set_weight (layer_id i j : nat) (v : Q) :
  invariant (plain n) (Network.set_weight layer_id i j v).
Proof. unfold plain. now apply set_weight_read. Qed.

Lemma plain_get_weight (layer_id i j : nat) :
  invariant (plain n) (Network.get_weight layer_id i j).
Proof. unfold plain. now apply get_weight_read. Qed.

Lemma plain_gradient_check (x y : ndarray) (eps : Q) (layer_id : nat)
    (weight_idx : nat * nat) :
  invariant (plain n) (Network.gradient_check x y eps layer_id weight_idx).
Proof. unfold plain. now apply gradient_check_read. Qed.

Lemma plain_gradient_checks (x y : ndarray) (checks : nat) (eps : Q) :
  invariant (plain n) (Network.gradient_checks x y checks eps).
Proof. unfold plain. now apply gradient_checks_read. Qed.

Lemma plain_randint (low high : nat) :
  invariant (plain n) (Network.randint low high).
Proof. unfold plain. apply randint_read. Qed.

Lemma plain_choice (dim : nat) : invariant (plain n) (Network.choice dim).
Proof. unfold plain. apply choice_read. Qed.

Lemma plain_draw : invariant (plain n) Network.draw.
Proof. unfold plain. apply draw_read. Qed.

Lemma plain_decay_lr : invariant (plain n) Network.decay_lr.
Proof.
  unfold Network.decay_lr. invariant_auto. apply invariant_modify.
  now intros.
Qed.

Hint Resolve plain_emit plain_forward_step plain_get_loss
  plain_train_on_batch plain_update_weights plain_set_weight
  plain_get_weight plain_gradient_check plain_gradient_checks
  plain_randint plain_choice plain_draw plain_decay_lr : inv.

Lemma sim_emit (e : option Q -> event) :
  simulates n (Network.emit e) (Network.emit e).
Proof.
  intros s s' _ Hss v t [= <- <-]. eexists. split; [reflexivity|].
  destruct (same_but_caches_fields s s' Hss) as (Hlr & _ & _ & Htrace & _).
  rewrite Hlr, Htrace.
  apply (same_but_caches_update
           (Network.set_trace (Network.trace s' ++ [e (Network.lr s')])));
    [reflexivity | | exact Hss].
  intros [] [] [= -> -> -> -> -> -> -> -> -> -> -> ->]. reflexivity.
Qed.

Lemma sim_draw : simulates n Network.draw Network.draw.
Proof.
  intros s s' _ Hss v t [= <- <-].
  destruct (same_but_caches_fields s s' Hss) as (_ & Hdraws & _).
  rewrite Hdraws. eexists. split; [reflexivity|].
  apply (same_but_caches_update (Network.set_draws (S (Network.draws s'))));
    [reflexivity | | exact Hss].
  intros [] [] [= -> -> -> -> -> -> -> -> -> -> -> ->]. reflexivity.
Qed.

Lemma sim_randint (low high : nat) :
  simulates n (Network.randint low high) (Network.randint low high).
Proof.
  unfold Network.randint. destruct (low <? high)%nat; [|apply sim_raise].
  apply sim_bind; [apply sim_draw | apply plain_draw |].
  intros r. apply sim_ret.
Qed.

Lemma sim_choice (dim : nat) :
  simulates n (Network.choice dim) (Network.choice dim).
Proof.
  unfold Network.choice. destruct dim; [apply sim_raise|].
  apply sim_bind; [apply sim_draw | apply plain_draw |].
  intros r. apply sim_ret.
Qed.

Lemma sim_get_loss (x y : ndarray) (average_examples : bool) :
  simulates n (Network.get_loss x y average_examples)
    (Network.get_loss x y average_examples).
Proof.
  unfold Network.get_loss. apply sim_sync_bind, forward_step_synchronises.
Qed.

Lemma sim_train_on_batch (x y : ndarray) :
  simulates n (Network.train_on_batch x y) (Network.train_on_batch x y).
Proof.
  unfold Network.train_on_batch.
  apply sim_bind; [apply sim_emit | apply plain_emit |].
  intros _. apply sim_sync_bind, forward_step_synchronises.
Qed.

(** Methods of [Dense] that read and write no cache. *)
Ltac dense_simulates :=
  apply on_dense_simulates;
  let d := fresh "d" in
  let d' := fresh "d'" in
  let Hf := fresh "Hf" in
  let Hrun := fresh "Hrun" in
  intros d d' Hf ? ? Hrun;
  destruct d, d'; simpl in Hf;
  injection Hf as -> -> -> -> -> -> -> ->;
  cbv [Network.update_layer bind get gets lift modify attr ret raise] in *;
  simpl in *;
  repeat match type of Hrun with
         | context [match ?x with _ => _ end] =>
             destruct x; simpl in Hrun; try discriminate Hrun
         end;
  injection Hrun as <- <-; eexists; split; reflexivity.

(** The goal of a simulation at two given networks, as a simulation. *)
Ltac as_simulation :=
  match goal with
  | |- forall v t, ?m ?s = _ -> exists t', ?m' ?s' = _ /\ _ =>
      let Hsim := fresh "Hsim" in
      enough (Hsim : simulates n m m') by (intros v t; now apply Hsim)
  end.

Lemma sim_read_w (i : Z) :
  simulates n (Network.at_layer i (on_dense (gets Dense.w)))
    (Network.at_layer i (on_dense (gets Dense.w))).
Proof. apply sim_at_layer. dense_simulates. Qed.

Lemma sim_read_dw (k : Z) (i j : nat) :
  simulates n
    (Network.at_layer k
       (on_dense (let* d := get in lift (get_item (Dense.dw d) i j))))
    (Network.at_layer k
       (on_dense (let* d := get in lift (get_item (Dense.dw d) i j)))).
Proof. apply sim_at_layer. dense_simulates. Qed.

Lemma sim_get_weight (layer_id i j : nat) :
  simulates n (Network.get_weight layer_id i j)
    (Network.get_weight layer_id i j).
Proof. unfold Network.get_weight. apply sim_at_layer. dense_simulates. Qed.

Lemma sim_set_weight (layer_id i j : nat) (v : Q) :
  simulates n (Network.set_weight layer_id i j v)
    (Network.set_weight layer_id i j v).
Proof. unfold Network.set_weight. apply sim_at_layer. dense_simulates. Qed.

Lemma sim_update_layer (k : Z) (rate : option Q) :
  simulates n (Network.at_layer k (on_dense (Network.update_layer rate)))
    (Network.at_layer k (on_dense (Network.update_layer rate))).
Proof.
  apply sim_at_layer. destruct rate as [r|]; [dense_simulates|].
  apply on_dense_simulates. intros d d' _ v d1. discriminate.
Qed.

Lemma sim_update_weights :
  simulates n Network.update_weights Network.update_weights.
Proof.
  unfold Network.update_weights.
  apply sim_bind; [apply sim_emit | apply plain_emit |].
  intros _ s s' Hs Hss v t Hrun. rewrite bind_get in *.
  rewrite <- (same_but_caches_length s s' Hss).
  destruct (same_but_caches_fields s s' Hss) as (<- & _).
  revert v t Hrun. as_simulation. apply sim_for_each.
  - intros k. apply sim_update_layer.
  - intros k. apply plain_at_layer. apply on_dense_keeps. intros x.
    now apply update_layer_keeps.
Qed.

Lemma sim_gradient_check (x y : ndarray) (eps : Q) (layer_id : nat)
    (weight_idx : nat * nat) :
  simulates n (Network.gradient_check x y eps layer_id weight_idx)
    (Network.gradient_check x y eps layer_id weight_idx).
Proof.
  destruct weight_idx as [i j]. unfold Network.gradient_check.
  apply sim_bind; [apply sim_emit | apply plain_emit |]. intros _.
  apply sim_bind; [apply sim_get_weight | apply plain_get_weight |].
  intros w_original.
  apply sim_bind.
  - apply sim_for_loop.
    + intros sign cost.
      apply sim_bind; [apply sim_set_weight | apply plain_set_weight |].
      intros _.
      apply sim_bind; [apply sim_get_loss | apply plain_get_loss |].
      intros l. apply sim_ret.
    + intros sign cost. invariant_auto.
  - invariant_auto.
  - intros cost.
    apply sim_bind; [apply sim_set_weight | apply plain_set_weight |].
    intros _. apply sim_ret.
Qed.

Lemma sim_gradient_checks (x y : ndarray) (checks : nat) (eps : Q) :
  simulates n (Network.gradient_checks x y checks eps)
    (Network.gradient_checks x y checks eps).
Proof.
  unfold Network.gradient_checks.
  apply sim_bind; [| |intros gs; apply sim_ret].
  - apply sim_for_loop.
    + intros check gs s s' Hs Hss v t Hrun. rewrite bind_get in *.
      rewrite <- (same_but_caches_length s s' Hss).
      revert v t Hrun. as_simulation.
      apply sim_bind; [apply sim_randint | apply plain_randint |].
      intros layer_id.
      apply sim_bind; [apply sim_read_w | |].
      { apply plain_at_layer. apply on_dense_keeps. intros; invariant_auto. }
      intros w.
      apply sim_bind; [apply sim_choice | apply plain_choice |]. intros i.
      apply sim_bind; [apply sim_choice | apply plain_choice |]. intros j.
      apply sim_bind;
        [apply sim_gradient_check | apply plain_gradient_check |].
      intros gradient.
      apply sim_bind; [apply sim_read_dw | |].
      { apply plain_at_layer. apply on_dense_keeps. intros; invariant_auto. }
      intros backprop. apply sim_ret.
    + intros check gs. pose proof (@plain_at_layer) as Hat.
      invariant_auto; apply Hat, on_dense_keeps; intros; invariant_auto.
  - pose proof (@plain_at_layer) as Hat.
    invariant_auto; apply Hat, on_dense_keeps; intros; invariant_auto.
Qed.

Lemma sim_fit_batch (checks : option Z) (m : nat)
    (minibatch : ndarray * ndarray) (grad_printout : bool) :
  simulates n (Network.fit_batch checks m minibatch grad_printout)
    (Network.fit_batch checks m minibatch grad_printout).
Proof.
  destruct minibatch as [xb yb]. unfold Network.fit_batch.
  apply sim_bind;
    [apply sim_train_on_batch | apply plain_train_on_batch |]. intros _.
  apply sim_bind; [apply sim_get_loss | apply plain_get_loss |]. intros _.
  apply sim_bind.
  - destruct (truthy checks && (m =? 1)%nat); [|apply sim_ret].
    apply sim_bind;
      [apply sim_gradient_checks | apply plain_gradient_checks |].
    intros _. apply sim_ret.
  - destruct (truthy checks && (m =? 1)%nat); invariant_auto.
  - intros gp.
    apply sim_bind;
      [apply sim_update_weights | apply plain_update_weights |].
    intros _. apply sim_ret.
Qed.

Lemma plain_fit_batch (checks : option Z) (m : nat)
    (minibatch : ndarray * ndarray) (grad_printout : bool) :
  invariant (plain n) (Network.fit_batch checks m minibatch grad_printout).
Proof.
  destruct minibatch as [xb yb]. unfold Network.fit_batch. invariant_auto.
Qed.

Lemma sim_decay_lr : simulates n Network.decay_lr Network.decay_lr.
Proof.
  intros s s' Hs Hss v t Hrun. unfold Network.decay_lr in *.
  rewrite bind_get in *.
  destruct (same_but_caches_fields s s' Hss) as (<- & _).
  destruct (Network.lr s) as [r|]; [|discriminate].
  injection Hrun as <- <-. eexists. split; [reflexivity|].
  apply (same_but_caches_update (Network.set_lr (r * decay_factor)%Q));
    [reflexivity | | exact Hss].
  intros [] [] [= -> -> -> -> -> -> -> -> -> -> -> ->]. reflexivity.
Qed.

Lemma sync_simulates {A} (m : M Network.t A) :
  synchronises n m -> simulates n m m.
Proof.
  intros Hm s s' Hs Hss v t Hrun. exists t.
  split; [now apply (Hm s s' Hs Hss) | reflexivity].
Qed.

(** A forward pass changes caches only, however it ends. *)
Lemma forward_step_caches_only (a : ndarray) (s0 : Network.t) :
  invariant (fun t => same_but_caches t s0) (Network.forward_step a).
Proof.
  intros t [Hitems Hrest]%same_but_caches_split.
  apply same_but_caches_split. split.
  - now apply (forward_step_read forget_layer).
  - now apply (forward_step_invariant
                 (fun t => Network.set_items [] t = Network.set_items [] s0)).
Qed.

Lemma get_loss_caches_only (x y : ndarray) (average_examples : bool)
    (s0 : Network.t) :
  invariant (fun t => same_but_caches t s0)
    (Network.get_loss x y average_examples).
Proof.
  pose proof forward_step_caches_only. unfold Network.get_loss.
  invariant_auto.
Qed.

(** A step that changes caches only can be left out. *)
Lemma sim_skip {B} (m : M Network.t unit) (k k' : unit -> M Network.t B) :
  (forall s0, invariant (fun t => same_but_caches t s0) m) ->
  invariant (plain n) m ->
  simulates n (k tt) (k' tt) ->
  simulates n (bind m k) (bind (ret tt) k').
Proof.
  intros Hm Hplain Hk s s' Hs Hss v t Hrun.
  apply bind_ok_inv in Hrun as ([] & s1 & Hm1 & Hk1).
  pose proof (invariant_ok _ _ _ _ _ (Hm s) (same_but_caches_refl s) Hm1)
    as Hs1.
  pose proof (invariant_ok _ _ _ _ _ Hplain Hs Hm1) as Hplain1.
  simpl in Hs1.
  destruct (Hk s1 s' Hplain1 (same_but_caches_trans _ _ _ Hs1 Hss) v t Hk1)
    as (t' & Hk' & Ht).
  exists t'. now split.
Qed.

(** An epoch with validation data against the same epoch without. *)
Lemma sim_fit_epoch (x y : ndarray) (ytrain_labels : list nat)
    (validation : option (ndarray * ndarray * list nat))
    (checks : option Z) (epoch_ : Z) (grad_printout : bool) :
  simulates n
    (Network.fit_epoch x y ytrain_labels validation checks epoch_
       grad_printout)
    (Network.fit_epoch x y ytrain_labels None checks epoch_ grad_printout).
Proof.
  unfold Network.fit_epoch.
  apply sim_bind; [apply sim_decay_lr | apply plain_decay_lr |]. intros _.
  apply sim_bind.
  { apply sim_for_loop; intros mb gp;
      [apply sim_fit_batch | apply plain_fit_batch]. }
  { apply invariant_for_loop. intros mb gp. apply plain_fit_batch. }
  intros gp.
  apply sim_bind;
    [apply sync_simulates, forward_step_synchronises
    | apply plain_forward_step |].
  intros a_train.
  apply sim_bind; [apply sim_lift | apply invariant_lift |]. intros pred.
  apply sim_bind; [apply sim_lift | apply invariant_lift |]. intros correct.
  apply sim_skip.
  - intros s0. pose proof forward_step_caches_only.
    pose proof get_loss_caches_only.
    destruct validation as [[[xtest ytest] labels]|]; invariant_auto.
  - destruct validation as [[[xtest ytest] labels]|]; invariant_auto.
  - apply sim_bind.
    + destruct gp; [apply sim_ret | apply sim_raise].
    + destruct gp; invariant_auto.
    + intros _. apply sim_bind; [| |intros _; apply sim_ret].
      * intros s s' _ Hss v t [= <- <-]. eexists. split; [reflexivity|].
        destruct (same_but_caches_fields s s' Hss) as (_ & _ & _ & _ & <-).
        apply (same_but_caches_update
                 (Network.set_epoch (Network.epoch s + 1)));
          [reflexivity | | exact Hss].
        intros [] [] [= -> -> -> -> -> -> -> -> -> -> -> ->]. reflexivity.
      * apply invariant_modify. now intros.
Qed.

Lemma plain_fit_epoch (x y : ndarray) (ytrain_labels : list nat)
    (validation : option (ndarray * ndarray * list nat))
    (checks : option Z) (epoch_ : Z) (grad_printout : bool) :
  invariant (plain n)
    (Network.fit_epoch x y ytrain_labels validation checks epoch_
       grad_printout).
Proof.
  pose proof plain_fit_batch. unfold Network.fit_epoch.
  invariant_auto; apply invariant_modify; now intros.
Qed.

Lemma sim_fit (x y : ndarray) (epochs batch_size : Z)
    (validation_data : option (ndarray * ndarray)) (checks : option Z) :
  simulates n
    (Network.fit x y epochs batch_size validation_data checks)
    (Network.fit x y epochs batch_size None checks).
Proof.
  intros s s' Hs Hss v t Hrun. unfold Network.fit in *.
  apply bind_ok_inv in Hrun as (labels & s1 & Hlabels & Hrun).
  unfold lift in Hlabels. injection Hlabels as Hlabels <-.
  rewrite Hlabels, bind_lift_ok, bind_ret.
  apply bind_ok_inv in Hrun as (validation & s2 & Hval & Hrun).
  assert (Hs2 : s2 = s).
  { destruct validation_data as [[xtest ytest]|].
    - destruct (ncols xtest =? ncols ytest)%nat; [|discriminate].
      unfold bind, lift, ret in Hval.
      destruct (np_argmax_axis0 ytest); [|discriminate].
      now injection Hval as _ <-.
    - unfold ret in Hval. now injection Hval as _ <-. }
  subst s2. revert v t Hrun. as_simulation.
  apply sim_bind; [| |intros _; apply sim_ret].
  - apply sim_for_loop; intros epoch_ gp;
      [apply sim_fit_epoch | apply plain_fit_epoch].
  - apply invariant_for_loop. intros epoch_ gp. apply plain_fit_epoch.
Qed.

End FitSimulation.

Lemma outside_forward_forget (ls ls' : list layer) :
  forget_layer <$> ls = forget_layer <$> ls' ->
  outside_forward <$> ls = outside_forward <$> ls'.
Proof.
  intros Hforget.
  rewrite <- (list_fmap_ext (outside_forward ∘ forget_layer) outside_forward
                ls) by (intros i [a|d] _; reflexivity).
  rewrite <- (list_fmap_ext (outside_forward ∘ forget_layer) outside_forward
                ls') by (intros i [a|d] _; reflexivity).
  now rewrite !list_fmap_compose, Hforget.
Qed.

(** X27.  Validation data do not influence training.  On a network made
    of the input placeholder and dense layers, when [fit] with
    [validation_data] returns, the same call without validation data
    returns too, and the two networks differ in the caches [z] and [a]
    at most: they have the same weights, biases and gradient buffers in
    every layer, the same learning rate and epoch counter, and have made
    the same training steps, gradient checks and updates.  The forward
    passes and the loss that [fit] evaluates on the validation set leave
    no trace in what it trains. *)
Theorem validation_does_not_influence_training {E : Externals} (n : nat)
    (x y : ndarray) (epochs batch_size : Z) (xtest ytest : ndarray)
    (checks : option Z) (s s' : Network.t) :
  plain n s ->
  Network.fit x y epochs batch_size (Some (xtest, ytest)) checks s
  = (Ok tt, s') ->
  exists s'',
    Network.fit x y epochs batch_size None checks s = (Ok tt, s'')
    /\ same_but_caches s' s''
    /\ outside_forward <$> Network.items s'
       = outside_forward <$> Network.items s''
    /\ Network.lr s' = Network.lr s''
    /\ Network.epoch s' = Network.epoch s''
    /\ Network.trace s' = Network.trace s''.
Proof.
  intros Hs Hrun.
  destruct (sim_fit n x y epochs batch_size (Some (xtest, ytest)) checks
              s s Hs (same_but_caches_refl s) tt s' Hrun)
    as (s'' & Hrun' & Hss).
  exists s''. split; [exact Hrun'|]. split; [exact Hss|].
  destruct (same_but_caches_fields s' s'' Hss) as (Hlr & _ & _ & Htr & Hep).
  apply same_but_caches_split in Hss as [Hitems _].
  split; [now apply outside_forward_forget|]. now repeat split.
Qed.

(** One epoch of the sample network, validated on its training set. *)
Lemma validation_does_not_influence_training_witness :
  exists s'',
    Network.fit (E := sample_externals) sample_x sample_y 2 2 None None
      sample_network = (Ok tt, s'')
    /\ outside_forward
         <$> Network.items
               (Network.fit (E := sample_externals) sample_x sample_y 2 2
                  (Some (sample_x, sample_y)) None sample_network).2
       = outside_forward <$> Network.items s''.
Proof.
  assert (Hrun : exists s',
             Network.fit (E := sample_externals) sample_x sample_y 2 2
               (Some (sample_x, sample_y)) None sample_network = (Ok tt, s'))
    by (vm_compute; eexists; reflexivity).
  destruct Hrun as [s' Hrun].
  assert (Hplain : plain 2 sample_network) by (vm_compute; reflexivity).
  destruct (validation_does_not_influence_training (E := sample_externals)
              2 sample_x sample_y 2 2 sample_x sample_y None sample_network
              s' Hplain Hrun)
    as (s'' & Hrun' & _ & Hitems & _).
  exists s''. split; [exact Hrun'|]. rewrite Hrun. exact Hitems.
Defined.
